(** * file_syncer.py: the directory synchroniser

    A shallow embedding of [src/python/file_syncer.py] (class [FileSyncer]
    and [main]) and the properties of its filter, scanner, comparator,
    conflict resolver, planner and executor, of its path parsing, of its
    logging and summary, and of its command line.

    Conventions of the embedding.
    - A path is the list of its segments; [os.path.join] is list append,
      [os.path.dirname] drops the last segment and [os.path.relpath] strips
      a prefix.  The filter works on the rendered string (segments joined by
      a slash), as the source does.  The system is POSIX: [normcase] is the
      identity, and a backslash is a character of a name like any other;
      the destination path of a remote destination has its backslashes
      replaced by slashes, as in the source.
    - A string is the list of its characters, each of 8 bits: a name is
      taken to hold code points below 256 only, one to a character.
    - Modification times are rationals (seconds since the epoch): every
      [st_mtime] float and every integral SFTP time is one.  Comparing two
      floats is exact.  The sum and the difference that the comparator and
      the conflict detector take of two times are rounded to the nearest
      binary64 number, ties to even, as Python rounds them; the ends of the
      exponent range of binary64 are not represented (no time is near
      them).
    - A store is the ordered list of the entries of a file system, in the
      order in which a walk yields them.  The world holds the local file
      system, the hosts behind the two SFTP clients and the clock.  The
      clock stands still during a run.
    - A storage call is atomic: it succeeds, or it raises and leaves the
      store as it was.  It raises for a reason the store shows (a missing
      or unreadable file, a file where a directory is needed, a directory
      where a file is needed, a dangling link).  The right to write is not
      represented: a call of the model fails only for a reason the store
      shows, and the call of the script can fail where it does not.  A
      directory that cannot
      be listed is one whose node is not readable.  Of the symbolic links
      only the dangling ones are represented, as entries on which
      [os.stat] fails; their targets are not, and a write to the path of
      one puts a file in its place.  Writing into a directory
      does not touch the directory's own time.  The staging files that the
      script creates under [/tmp] and removes again, and the log file of
      the logger, are not represented.
    - [hashlib.md5] is an arbitrary function from contents to digests.
    - Logging is represented only where a property speaks of it (the
      scanner); the wall-clock fields of the statistics are left out.
    - A Python dictionary is the list of its items in insertion order.
    - Of the [logging] module the levels, the handlers of the one logger
      of the script and the sinks they write to are represented; the text
      of a record is not.
    - [main] takes the loading of the configuration file and one whole
      synchronisation (building the [FileSyncer], connecting,
      [synchronize], [print_summary], disconnecting) as parameters. *)

From Stdlib Require Import List String Ascii Bool Arith ZArith QArith Qabs Qround Qpower Lia Lqa.
From Stdlib Require Import DecimalString Permutation.
Import ListNotations.

Set Implicit Arguments.

Open Scope string_scope.
Open Scope list_scope.

(* ================================================================= *)
(** ** Paths (posixpath) *)

Definition Path := list string.

Fixpoint path_eqb (a b : Path) : bool :=
  match a, b with
  | [], [] => true
  | x :: a', y :: b' => String.eqb x y && path_eqb a' b'
  | _, _ => false
  end.

(** [os.path.join(a, b)] on segment lists. *)
Definition os_path_join (a b : Path) : Path := a ++ b.

(** [os.path.dirname(p)]. *)
Definition os_path_dirname (p : Path) : Path := removelast p.

(** [os.path.relpath(p, start)] for a path [p] below [start]. *)
Fixpoint os_path_relpath (p start : Path) {struct start} : option Path :=
  match start, p with
  | [], _ => Some p
  | s :: start', x :: p' => if String.eqb s x then os_path_relpath p' start' else None
  | _ :: _, [] => None
  end.

(** [p] lies strictly below [d]. *)
Definition is_under (d p : Path) : bool :=
  match os_path_relpath p d with
  | Some (_ :: _) => true
  | _ => false
  end.

(** The string a path stands for. *)
Definition path_str (p : Path) : string := String.concat "/" p.

(** [str + suffix] on the last segment of a path ([f"{path}.bak.{ts}"]). *)
Fixpoint path_append (p : Path) (suffix : string) : Path :=
  match p with
  | [] => [suffix]
  | [x] => [(x ++ suffix)%string]
  | x :: p' => x :: path_append p' suffix
  end.

Fixpoint has_slash (s : string) : bool :=
  match s with
  | EmptyString => false
  | String c r => Ascii.eqb c "/" || has_slash r
  end.

(** [os.path.basename] on strings: what follows the last slash. *)
Fixpoint os_path_basename (p : string) : string :=
  match p with
  | EmptyString => EmptyString
  | String c r =>
      if has_slash r then os_path_basename r
      else if Ascii.eqb c "/" then r else p
  end.

(* ================================================================= *)
(** ** fnmatch *)

Module Fnmatch.

(** The pieces of a translated pattern. *)
Inductive Tok : Type :=
| TStar                                   (* [*]: any run of characters *)
| TAny                                    (* [?]: any one character *)
| TSet (neg : bool) (items : list (ascii * ascii))  (* [[seq]], [[!seq]] *)
| TLit (c : ascii).

Definition ascii_leb (a b : ascii) : bool :=
  (nat_of_ascii a <=? nat_of_ascii b)%nat.

(** The members of a bracket expression: [a-b] is a range, anything else
    stands for itself. *)
Fixpoint class_items (l : list ascii) : list (ascii * ascii) :=
  match l with
  | a :: l1 =>
      match l1 with
      | h :: b :: rest =>
          if Ascii.eqb h "-" then (a, b) :: class_items rest
          else (a, a) :: class_items l1
      | _ => (a, a) :: class_items l1
      end
  | [] => []
  end.

(** Split at the first closing bracket. *)
Fixpoint split_close (l : list ascii) : option (list ascii * list ascii) :=
  match l with
  | [] => None
  | c :: r =>
      if Ascii.eqb c "]" then Some ([], r)
      else match split_close r with
           | Some (stuff, rest) => Some (c :: stuff, rest)
           | None => None
           end
  end.

(** The scan of [translate] after an opening bracket: an optional [!],
    an optional literal closing bracket, then up to the closing one.
    [None]: there is no closing bracket and the opening one is literal. *)
Definition parse_set (l : list ascii) : option (bool * list ascii * list ascii) :=
  let '(neg, l1) :=
    match l with
    | c :: t => if Ascii.eqb c "!" then (true, t) else (false, l)
    | [] => (false, l)
    end in
  match l1 with
  | c :: t =>
      if Ascii.eqb c "]" then
        match split_close t with
        | Some (stuff, rest) => Some (neg, c :: stuff, rest)
        | None => None
        end
      else
        match split_close l1 with
        | Some (stuff, rest) => Some (neg, stuff, rest)
        | None => None
        end
  | [] => None
  end.

Fixpoint translate (fuel : nat) (pat : list ascii) : list Tok :=
  match fuel with
  | O => []
  | S fuel' =>
      match pat with
      | [] => []
      | c :: r =>
          if Ascii.eqb c "*" then TStar :: translate fuel' r
          else if Ascii.eqb c "?" then TAny :: translate fuel' r
          else if Ascii.eqb c "[" then
            match parse_set r with
            | Some (neg, stuff, rest) =>
                TSet neg (class_items stuff) :: translate fuel' rest
            | None => TLit c :: translate fuel' r
            end
          else TLit c :: translate fuel' r
      end
  end.

Definition tok_accepts (t : Tok) (c : ascii) : bool :=
  match t with
  | TStar => true
  | TAny => true
  | TSet neg items =>
      xorb neg (existsb (fun '(lo, hi) => ascii_leb lo c && ascii_leb c hi) items)
  | TLit d => Ascii.eqb c d
  end.

(** Whole-string match of the translated pattern. *)
Fixpoint match_toks (ts : list Tok) (s : list ascii) {struct ts} : bool :=
  match ts with
  | [] => match s with [] => true | _ => false end
  | TStar :: ts' =>
      (fix star (s : list ascii) : bool :=
         match_toks ts' s ||
         match s with
         | [] => false
         | _ :: s' => star s'
         end) s
  | t :: ts' =>
      match s with
      | [] => false
      | c :: s' => tok_accepts t c && match_toks ts' s'
      end
  end.

(** [fnmatch.fnmatch(name, pat)] on a POSIX system ([normcase] is the
    identity there, so the match is case-sensitive). *)
Definition fnmatch (name pat : string) : bool :=
  let p := list_ascii_of_string pat in
  match_toks (translate (List.length p) p) (list_ascii_of_string name).

End Fnmatch.

Definition fnmatch := Fnmatch.fnmatch.

(* ================================================================= *)
(** ** The data model of the script *)

Inductive SyncMode : Type := ONE_WAY | TWO_WAY | MIRROR.

Inductive FileAction : Type := COPY | UPDATE | DELETE | CONFLICT | SKIP.

Inductive PathType : Type := LOCAL | REMOTE.

Definition SyncMode_eqb (a b : SyncMode) : bool :=
match a, b with
| ONE_WAY, ONE_WAY | TWO_WAY, TWO_WAY | MIRROR, MIRROR => true
| _, _ => false
end.

Definition PathType_eqb (a b : PathType) : bool :=
match a, b with
| LOCAL, LOCAL | REMOTE, REMOTE => true
| _, _ => false
end.

(** One dictionary of [_list_files]. *)
Record FileInfo : Type := {
  path : Path;
  full_path : Path;
  size : Z;
  mtime : Q;
  is_dir : bool
}.

(** The attributes of a [FileSyncer] that the synchronisation reads.
    [rich_console] stands for [RICH_AVAILABLE and self.console and not
    self.quiet], the test that selects the progress-bar copy loops. *)
Record FileSyncer : Type := {
  source : Path;
  destination : Path;
  dry_run : bool;
  sync_mode : SyncMode;
  exclude_patterns : list string;
  include_patterns : list string;
  use_timestamp : bool;
  use_checksum : bool;
  backup : bool;
  force : bool;
  source_type : PathType;
  dest_type : PathType;
  rich_console : bool
}.

(** [self.stats] (the two wall-clock fields are left out). *)
Record Stats : Type := {
  copied : Z;
  updated : Z;
  deleted : Z;
  skipped : Z;
  conflicts : Z;
  errors : Z;
  bytes_transferred : Z
}.

Definition fresh_stats : Stats :=
{| copied := 0; updated := 0; deleted := 0; skipped := 0; conflicts := 0;
   errors := 0; bytes_transferred := 0 |}.

Definition add_copied (s : Stats) : Stats :=
{| copied := copied s + 1; updated := updated s; deleted := deleted s;
   skipped := skipped s; conflicts := conflicts s; errors := errors s;
   bytes_transferred := bytes_transferred s |}.

Definition add_updated (s : Stats) : Stats :=
{| copied := copied s; updated := updated s + 1; deleted := deleted s;
   skipped := skipped s; conflicts := conflicts s; errors := errors s;
   bytes_transferred := bytes_transferred s |}.

Definition add_deleted (s : Stats) : Stats :=
{| copied := copied s; updated := updated s; deleted := deleted s + 1;
   skipped := skipped s; conflicts := conflicts s; errors := errors s;
   bytes_transferred := bytes_transferred s |}.

Definition add_conflicts (k : Z) (s : Stats) : Stats :=
{| copied := copied s; updated := updated s; deleted := deleted s;
   skipped := skipped s; conflicts := conflicts s + k; errors := errors s;
   bytes_transferred := bytes_transferred s |}.

Definition add_error (s : Stats) : Stats :=
{| copied := copied s; updated := updated s; deleted := deleted s;
   skipped := skipped s; conflicts := conflicts s; errors := errors s + 1;
   bytes_transferred := bytes_transferred s |}.

Definition add_bytes (k : Z) (s : Stats) : Stats :=
{| copied := copied s; updated := updated s; deleted := deleted s;
   skipped := skipped s; conflicts := conflicts s; errors := errors s;
   bytes_transferred := bytes_transferred s + k |}.

Definition set_skipped (k : Z) (s : Stats) : Stats :=
{| copied := copied s; updated := updated s; deleted := deleted s;
   skipped := k; conflicts := conflicts s; errors := errors s;
   bytes_transferred := bytes_transferred s |}.

(* ================================================================= *)
(** ** Stores and the world *)

(** What a directory entry is.  [KDangling] is a symbolic link without a
    target: a walk lists it among the file names, [os.stat] raises on it
    and [os.path.exists] is false. *)
Inductive Kind : Type := KFile | KDir | KDangling.

Record Node : Type := {
  n_kind : Kind;
  n_data : string;        (* the contents of a file *)
  n_mtime : Q;
  n_readable : bool       (* whether opening a file for reading, or listing
                             a directory, succeeds *)
}.

Definition Store := list (Path * Node).

Record World : Type := {
  local_fs : Store;       (* the local file system *)
  source_sftp : Store;    (* the host behind [self.source_sftp] *)
  dest_sftp : Store;      (* the host behind [self.dest_sftp] *)
  clock : Q               (* [time.time()], and the stamp of a write *)
}.

Definition set_local (w : World) (st : Store) : World :=
{| local_fs := st; source_sftp := source_sftp w; dest_sftp := dest_sftp w;
   clock := clock w |}.

Definition set_dest_sftp (w : World) (st : Store) : World :=
{| local_fs := local_fs w; source_sftp := source_sftp w; dest_sftp := st;
   clock := clock w |}.

Definition is_KDir (k : Kind) : bool :=
match k with KDir => true | _ => false end.

Definition is_KDangling (k : Kind) : bool :=
match k with KDangling => true | _ => false end.

Fixpoint fs_lookup (p : Path) (st : Store) : option Node :=
match st with
| [] => None
| (q, n) :: r => if path_eqb q p then Some n else fs_lookup p r
end.

(** Replace the entry of [p] where it stands, or add it at the end. *)
Fixpoint fs_put (p : Path) (n : Node) (st : Store) : Store :=
match st with
| [] => [(p, n)]
| (q, m) :: r => if path_eqb q p then (q, n) :: r else (q, m) :: fs_put p n r
end.

Definition fs_remove (p : Path) (st : Store) : Store :=
filter (fun e => negb (path_eqb (fst e) p)) st.

Definition fs_remove_tree (p : Path) (st : Store) : Store :=
filter (fun e => negb (path_eqb (fst e) p || is_under p (fst e))) st.

Definition new_dir (now : Q) : Node :=
{| n_kind := KDir; n_data := EmptyString; n_mtime := now; n_readable := true |}.

Definition new_file (content : string) (stamp : Q) : Node :=
{| n_kind := KFile; n_data := content; n_mtime := stamp; n_readable := true |}.

Definition node_size (n : Node) : Z :=
match n_kind n with
| KFile => Z.of_nat (String.length (n_data n))
| _ => 0
end.

(** [os.path.exists] / a successful [sftp.stat]. *)
Definition os_path_exists (st : Store) (p : Path) : bool :=
match fs_lookup p st with
| Some n => negb (is_KDangling (n_kind n))
| None => false
end.

Definition os_path_isdir (st : Store) (p : Path) : bool :=
match fs_lookup p st with
| Some n => is_KDir (n_kind n)
| None => false
end.

(** The parent of an entry to be created is there: the root, or a
    directory of the store. *)
Definition parent_ok (st : Store) (p : Path) : bool :=
match os_path_dirname p with
| [] => true
| d => os_path_isdir st d
end.

(** [os.makedirs(p, exist_ok=True)]: the missing directories of the chain
    are created from the top; a component that is not a directory raises
    ([None]). *)
Fixpoint makedirs_from (now : Q) (pre rest : Path) (st : Store) : option Store :=
match rest with
| [] => Some st
| seg :: rest' =>
    let p := pre ++ [seg] in
    match fs_lookup p st with
    | Some n => if is_KDir (n_kind n) then makedirs_from now p rest' st else None
    | None => makedirs_from now p rest' (fs_put p (new_dir now) st)
    end
end.

Definition os_makedirs (now : Q) (p : Path) (st : Store) : option Store :=
match p with
| [] => None
| _ => makedirs_from now [] p st
end.

(** The loop of [_create_directory] over [dirpath.split('/')] for a remote
    path: [sftp.stat] each prefix, [sftp.mkdir] it when the stat raises. *)
Fixpoint sftp_mkdir_parts (now : Q) (pre rest : Path) (st : Store) : option Store :=
match rest with
| [] => Some st
| seg :: rest' =>
    let p := pre ++ [seg] in
    if os_path_exists st p then sftp_mkdir_parts now p rest' st
    else
      match fs_lookup p st with
      | Some _ => None
      | None =>
          if parent_ok st p
          then sftp_mkdir_parts now p rest' (fs_put p (new_dir now) st)
          else None
      end
end.

(** Opening a file for reading. *)
Definition fs_read (st : Store) (p : Path) : option Node :=
match fs_lookup p st with
| Some n =>
    match n_kind n with
    | KFile => if n_readable n then Some n else None
    | _ => None
    end
| None => None
end.

(** Creating or truncating the file [p] and writing [content]. *)
Definition fs_write (p : Path) (content : string) (stamp : Q) (st : Store)
  : option Store :=
if os_path_isdir st p then None
else if parent_ok st p then Some (fs_put p (new_file content stamp) st)
else None.

(** [shutil.copy2(src, dst)] within one store: into [dst] when it is a
    directory, under the base name of [src]; the times of [src] are kept.
    The two paths are taken to name two files: the script never passes a
    file as its own copy (an entry found at its destination with the same
    size, time and contents is skipped, and a backup has a name of its
    own). *)
Definition shutil_copy2 (src dst : Path) (st : Store) : option Store :=
match fs_read st src with
| Some n =>
    let target := if os_path_isdir st dst then dst ++ [last src EmptyString] else dst in
    fs_write target (n_data n) (n_mtime n) st
| None => None
end.

Definition os_unlink (p : Path) (st : Store) : option Store :=
match fs_lookup p st with
| Some n => if is_KDir (n_kind n) then None else Some (fs_remove p st)
| None => None
end.

Definition shutil_rmtree (p : Path) (st : Store) : option Store :=
if os_path_isdir st p then Some (fs_remove_tree p st) else None.

(** [int(time.time())] as the script prints it. *)
Definition unix_time_str (now : Q) : string :=
NilZero.string_of_int (Z.to_int (Qfloor now)).

Definition backup_name (p : Path) (now : Q) : Path :=
path_append p (".bak." ++ unix_time_str now)%string.

(* ================================================================= *)
(** ** Python dictionaries keyed by relative path *)

Definition Dict := list (Path * FileInfo).

Fixpoint dict_get (k : Path) (d : Dict) : option FileInfo :=
match d with
| [] => None
| (q, v) :: r => if path_eqb q k then Some v else dict_get k r
end.

(** [d[k] = v]: the value changes in place, a new key goes to the end. *)
Fixpoint dict_set (k : Path) (v : FileInfo) (d : Dict) : Dict :=
match d with
| [] => [(k, v)]
| (q, u) :: r => if path_eqb q k then (q, v) :: r else (q, u) :: dict_set k v r
end.

(** [{f["path"]: f for f in files}]. *)
Definition dict_of_list (files : list FileInfo) : Dict :=
fold_left (fun d f => dict_set (path f) f d) files [].

Definition dict_contains (k : Path) (d : Dict) : bool :=
match dict_get k d with Some _ => true | None => false end.

(** [rel_path in conflicts] for a list. *)
Definition path_in (k : Path) (l : list Path) : bool :=
existsb (path_eqb k) l.

(** [a > b] on times. *)
Definition Qgtb (a b : Q) : bool := negb (Qle_bool a b).

(* ================================================================= *)
(** ** Binary64 arithmetic on times

    A comparison of two floats is exact.  A sum or a difference of two
    floats is the binary64 number nearest to the exact result. *)

(** The exponent of a positive rational: the [e] with
    [2^e <= q < 2^(e+1)]. *)
Definition ilog2 (q : Q) : Z :=
let k := (Z.log2 (Qnum q) - Z.log2 (Zpos (Qden q)))%Z in
if Qle_bool (2 ^ k) q then k else (k - 1)%Z.

(** The nearest integer, the even one of two that are equally near. *)
Definition round_half_even (x : Q) : Z :=
let k := Qfloor x in
let r := x - inject_Z k in
if Qle_bool r (1 # 2)
then if Qle_bool (1 # 2) r then (if Z.even k then k else k + 1)%Z else k
else (k + 1)%Z.

(** The binary64 number nearest to a rational: 53 significant bits, ties
    to the even significand. *)
Definition round64 (q : Q) : Q :=
if Qeq_bool q 0 then 0
else
  let ulp := 2 ^ (ilog2 (Qabs q) - 52) in
  inject_Z (round_half_even (q / ulp)) * ulp.

Definition is_binary64 (q : Q) : bool := Qeq_bool (round64 q) q.

(** [a > b + c] as Python evaluates it on three floats.  On a rational
    that is no binary64 number, and so the value of no float, the sum is
    taken as it is. *)
Definition float_gt_sum (a b c : Q) : bool :=
if is_binary64 a && is_binary64 b && is_binary64 c
then Qgtb a (round64 (b + c))
else Qgtb a (b + c).

(** [abs(a - b) > c] as Python evaluates it on three floats. *)
Definition float_gap_gt (a b c : Q) : bool :=
if is_binary64 a && is_binary64 b && is_binary64 c
then Qgtb (Qabs (round64 (a - b))) c
else Qgtb (Qabs (a - b)) c.

Definition nonempty (s : string) : bool :=
match s with EmptyString => false | _ => true end.

(* ================================================================= *)
(** ** The methods of [FileSyncer] *)

Record State : Type := {
  stats : Stats;          (* [self.stats] *)
  world : World
}.

Definition with_stats (f : Stats -> Stats) (s : State) : State :=
{| stats := f (stats s); world := world s |}.

Definition CopyItem := (Path * Path * bool)%type.   (* source_path, dest_path, is_dir *)
Definition DeleteItem := (Path * bool)%type.        (* dest_path, is_dir *)

(** The four lists that [synchronize] fills before it executes anything,
    and the number of times it has added one to [stats["conflicts"]]. *)
Record Plan : Type := {
  to_copy : list CopyItem;
  to_update : list CopyItem;
  to_delete : list DeleteItem;
  skipped_paths : list Path;
  conflicts_counted : Z
}.

Record Outcome : Type := {
  result : bool;            (* the value [synchronize] returns *)
  final : State;            (* the statistics and the world it leaves *)
  planned : option Plan     (* the lists, when it got as far as building them *)
}.

Section Syncer.

Variable md5_hexdigest : string -> string.

(** The SFTP client the helper methods pick for a remote path:
    [self.source_sftp if path_type == REMOTE and self.source_type == REMOTE
     else self.dest_sftp]. *)
Definition sftp_of (self : FileSyncer) (w : World) (path_type : PathType) : Store :=
if PathType_eqb path_type REMOTE && PathType_eqb (source_type self) REMOTE
then source_sftp w else dest_sftp w.

Definition _path_exists (self : FileSyncer) (w : World) (p : Path)
  (path_type : PathType) : bool :=
match path_type with
| LOCAL => os_path_exists (local_fs w) p
| REMOTE => os_path_exists (sftp_of self w path_type) p
end.

Definition mk_info (rel full : Path) (n : Node) : FileInfo :=
{| path := rel; full_path := full; size := node_size n; mtime := n_mtime n;
   is_dir := is_KDir (n_kind n) |}.

(** [os.walk] lists a directory with [os.scandir].  The script gives no
    [onerror] handler, so a directory that cannot be listed is passed over
    in silence: the walk goes on with the next one. *)
Definition listable (st : Store) (d : Path) : bool :=
match fs_lookup d st with
| Some n => negb (is_KDir (n_kind n)) || n_readable n
| None => true
end.

(** Whether the walk of [directory] comes to the entry at [rel] below it:
    every directory on the way down, [directory] included, can be listed. *)
Fixpoint walk_reaches (st : Store) (directory rel : Path) : bool :=
match rel with
| [] => true
| seg :: rel' => listable st directory && walk_reaches st (directory ++ [seg]) rel'
end.

(** The two loops over [os.walk(directory)] on the entries [st] of the
    store [all].  Every entry the walk comes to is [os.stat]ed in walk
    order; the first [os.stat] that raises leaves the loops (the only
    handler is the one around the whole walk).  The flag tells whether that
    happened. *)
Fixpoint walk_from (all : Store) (directory : Path) (st : Store)
  : list FileInfo * bool :=
match st with
| [] => ([], false)
| (p, n) :: rest =>
    match os_path_relpath p directory with
    | Some (seg :: rel) =>
        if negb (walk_reaches all directory (seg :: rel))
        then walk_from all directory rest
        else if is_KDangling (n_kind n) then ([], true)
        else
          let '(files, failed) := walk_from all directory rest in
          (mk_info (seg :: rel) p n :: files, failed)
    | _ => walk_from all directory rest
    end
end.

Definition walk_entries (directory : Path) (st : Store) : list FileInfo * bool :=
walk_from st directory st.

(** [sftp.listdir_attr(remote_dir)]: the children of a directory. *)
Definition sftp_listdir_attr (st : Store) (remote_dir : Path) : option Store :=
if os_path_isdir st remote_dir
then Some (filter (fun e =>
             match fst e with
             | [] => false
             | _ => path_eqb (os_path_dirname (fst e)) remote_dir
             end) st)
else None.

(** [stat.S_ISDIR(item.st_mode)] as [list_remote_dir] evaluates it.  The
    module [stat] is not imported, and [stat] is a local variable of
    [_list_files] (its local branch assigns [stat = os.stat(full_path)]).
    On the remote branch that variable is unbound, so the evaluation raises
    [NameError]: [None]. *)
Definition S_ISDIR_in_closure (n : Node) : option bool := None.

(** The nested function [list_remote_dir]: the files found and the
    directories whose listing logged an error.  [fuel] bounds the depth. *)
Fixpoint list_remote_dir (fuel : nat) (st : Store) (remote_dir base_dir : Path)
  : list FileInfo * list Path :=
match fuel with
| O => ([], [])
| S fuel' =>
    match sftp_listdir_attr st remote_dir with
    | None => ([], [remote_dir])
    | Some items =>
        let body :=
          fold_left
            (fun (acc : option (list FileInfo * list Path)) (item : Path * Node) =>
               match acc with
               | None => None
               | Some (res, logged) =>
                   match os_path_relpath (fst item) base_dir,
                         S_ISDIR_in_closure (snd item) with
                   | Some rel_path, Some true =>
                       let '(sub, sublogged) :=
                         list_remote_dir fuel' st (fst item) base_dir in
                       Some (res ++ mk_info rel_path (fst item) (new_dir (n_mtime (snd item)))
                                 :: sub,
                             logged ++ sublogged)
                   | Some rel_path, Some false =>
                       Some (res ++ [mk_info rel_path (fst item) (snd item)], logged)
                   | _, _ => None
                   end
               end)
            items (Some ([], [])) in
        match body with
        | Some r => r
        | None => ([], [remote_dir])      (* except Exception: log, return [] *)
        end
    end
end.

(** [_list_files] with what it logs at error level: the files, and the
    directories named in the error records. *)
Definition list_files_logged (self : FileSyncer) (w : World) (directory : Path)
  (path_type : PathType) : list FileInfo * list Path :=
match path_type with
| LOCAL =>
    if os_path_isdir (local_fs w) directory then
      let '(files, failed) := walk_entries directory (local_fs w) in
      (files, if failed then [directory] else [])
    else ([], [])
| REMOTE =>
    let st := sftp_of self w path_type in
    list_remote_dir (S (List.length st)) st directory directory
end.

(** What [_list_files] returns to its caller. *)
Definition _list_files (self : FileSyncer) (w : World) (directory : Path)
  (path_type : PathType) : list FileInfo :=
fst (list_files_logged self w directory path_type).

Definition matches_any (filepath : string) (patterns : list string) : bool :=
existsb (fun pattern =>
           fnmatch filepath pattern || fnmatch (os_path_basename filepath) pattern)
        patterns.

Definition _should_include_file (self : FileSyncer) (filepath : string) : bool :=
if matches_any filepath (exclude_patterns self) then false
else
  match include_patterns self with
  | [] => true
  | _ => matches_any filepath (include_patterns self)
  end.

(** The empty string stands for a digest that could not be computed. *)
Definition _calculate_checksum (self : FileSyncer) (w : World) (filepath : Path)
  (path_type : PathType) : string :=
let st := match path_type with
          | LOCAL => local_fs w
          | REMOTE => sftp_of self w path_type
          end in
match fs_read st filepath with
| Some n => md5_hexdigest (n_data n)
| None => EmptyString
end.

Definition side_type (t : PathType) : PathType :=
match t with REMOTE => REMOTE | LOCAL => LOCAL end.

Definition _compare_files (self : FileSyncer) (w : World) (source_file : FileInfo)
  (dest_file : option FileInfo) (source_path dest_path : Path) : FileAction :=
match dest_file with
| None => COPY
| Some dest_file =>
    if negb (size source_file =? size dest_file)%Z then UPDATE
    else if use_timestamp self && negb (use_checksum self)
            && float_gt_sum (mtime source_file) (mtime dest_file) 2
    then UPDATE
    else if use_checksum self then
      let source_checksum :=
        _calculate_checksum self w source_path (side_type (source_type self)) in
      let dest_checksum :=
        _calculate_checksum self w dest_path (side_type (dest_type self)) in
      if nonempty source_checksum && nonempty dest_checksum
         && negb (String.eqb source_checksum dest_checksum)
      then UPDATE else SKIP
    else SKIP
end.

(** The test of [_detect_conflicts] on one item of [source_files]. *)
Definition in_conflict (self : FileSyncer) (w : World) (dest_files : Dict)
  (item : Path * FileInfo) : bool :=
let '(rel_path, source_file) := item in
match dict_get rel_path dest_files with
| None => false
| Some dest_file =>
    if is_dir source_file || is_dir dest_file then false
    else if use_checksum self then
      negb (String.eqb
              (_calculate_checksum self w (full_path source_file)
                 (side_type (source_type self)))
              (_calculate_checksum self w (full_path dest_file)
                 (side_type (dest_type self))))
    else float_gap_gt (mtime source_file) (mtime dest_file) 2
end.

Definition _detect_conflicts (self : FileSyncer) (w : World)
  (source_files dest_files : Dict) : list Path :=
if negb (SyncMode_eqb (sync_mode self) TWO_WAY) then []
else map fst (filter (in_conflict self w dest_files) source_files).

Definition _resolve_conflict (self : FileSyncer) (rel_path : Path)
  (source_file dest_file : FileInfo) : FileAction :=
if force self then UPDATE
else if Qgtb (mtime source_file) (mtime dest_file) then UPDATE
else SKIP.

(** *** The three mutators.  A storage call that raises leaves the store
    as it was. *)

Definition _create_directory (self : FileSyncer) (dirpath : Path)
  (path_type : PathType) (s : State) : bool * State :=
if dry_run self then (true, s)
else
  let w := world s in
  let attempt :=
    match path_type with
    | LOCAL => option_map (set_local w) (os_makedirs (clock w) dirpath (local_fs w))
    | REMOTE =>
        option_map (set_dest_sftp w)
          (sftp_mkdir_parts (clock w) [] dirpath (dest_sftp w))
    end in
  match attempt with
  | Some w' => (true, {| stats := stats s; world := w' |})
  | None => (false, with_stats add_error s)
  end.

(** The backup of [_copy_file]; a failure is only a warning. *)
Definition backup_before_copy (w : World) (dest_path : Path) (dest_type : PathType)
  : World :=
let backup_path := backup_name dest_path (clock w) in
match dest_type with
| LOCAL =>
    match shutil_copy2 dest_path backup_path (local_fs w) with
    | Some st => set_local w st
    | None => w
    end
| REMOTE =>
    let tmp := path_append backup_path ".tmp" in
    match fs_read (dest_sftp w) dest_path with            (* dest_sftp.get *)
    | None => w
    | Some n =>
        match fs_write tmp (n_data n) (clock w) (local_fs w) with
        | None => w
        | Some l1 =>
            let w1 := set_local w l1 in
            match fs_write backup_path (n_data n) (clock w) (dest_sftp w1) with
            | None => w1                                   (* dest_sftp.put *)
            | Some r1 =>
                let w2 := set_dest_sftp w1 r1 in
                match os_unlink tmp (local_fs w2) with
                | Some l2 => set_local w2 l2
                | None => w2
                end
            end
        end
    end
end.

(** The body of the [try] of [_copy_file]: the new world and the number
    added to [bytes_transferred], or [None] when something raises.  Only
    [shutil.copy2] keeps the source's time; every other way stamps the
    destination with the clock.  The progress-bar loop between two remote
    hosts counts every chunk twice (download and upload).  The staging file
    under [/tmp] is created and removed again. *)
Definition transfer (self : FileSyncer) (w : World) (src_path dest_path : Path)
  (src_type dest_type : PathType) : option (World * Z) :=
let src_store :=
  match src_type with LOCAL => local_fs w | REMOTE => source_sftp w end in
match fs_read src_store src_path with
| None => None
| Some n =>
    let bytes :=
      if rich_console self && PathType_eqb src_type REMOTE
         && PathType_eqb dest_type REMOTE
      then (2 * node_size n)%Z else node_size n in
    match dest_type with
    | LOCAL =>
        let written :=
          match src_type, rich_console self with
          | LOCAL, false => shutil_copy2 src_path dest_path (local_fs w)
          | _, _ => fs_write dest_path (n_data n) (clock w) (local_fs w)
          end in
        option_map (fun st => (set_local w st, bytes)) written
    | REMOTE =>
        option_map (fun st => (set_dest_sftp w st, bytes))
          (fs_write dest_path (n_data n) (clock w) (dest_sftp w))
    end
end.

Definition _copy_file (self : FileSyncer) (src_path dest_path : Path)
  (src_type dest_type : PathType) (s : State) : bool * State :=
if dry_run self then (true, s)
else
  let dest_dir := os_path_dirname dest_path in
  let '(made, s1) :=
    match dest_dir with
    | [] => (true, s)
    | _ =>
        if negb (_path_exists self (world s) dest_dir dest_type)
        then _create_directory self dest_dir dest_type s
        else (true, s)
    end in
  if negb made then (false, s1)
  else
    let w2 :=
      if backup self && _path_exists self (world s1) dest_path dest_type
      then backup_before_copy (world s1) dest_path dest_type
      else world s1 in
    match transfer self w2 src_path dest_path src_type dest_type with
    | Some (w3, n) => (true, {| stats := add_bytes n (stats s1); world := w3 |})
    | None => (false, {| stats := add_error (stats s1); world := w2 |})
    end.

(** The backup of [_delete_path]; a failure is only a warning. *)
Definition backup_before_delete (w : World) (p : Path) (path_type : PathType)
  : World :=
let backup_path := backup_name p (clock w) in
match path_type with
| LOCAL =>
    match shutil_copy2 p backup_path (local_fs w) with
    | Some st => set_local w st
    | None => w
    end
| REMOTE =>
    match fs_read (dest_sftp w) p with
    | Some n =>
        match fs_write backup_path (n_data n) (clock w) (dest_sftp w) with
        | Some st => set_dest_sftp w st
        | None => w
        end
    | None => w
    end
end.

(** The body of the [try] of [_delete_path].  [rmdir_recursive] catches
    its own [IOError]: a remote directory that cannot be removed raises
    nothing. *)
Definition remove_path (w : World) (p : Path) (path_type : PathType)
  (is_dir : bool) : option World :=
match path_type with
| LOCAL =>
    option_map (set_local w)
      (if is_dir then shutil_rmtree p (local_fs w) else os_unlink p (local_fs w))
| REMOTE =>
    if is_dir then
      Some (match shutil_rmtree p (dest_sftp w) with
            | Some st => set_dest_sftp w st
            | None => w
            end)
    else option_map (set_dest_sftp w) (os_unlink p (dest_sftp w))
end.

Definition _delete_path (self : FileSyncer) (p : Path) (path_type : PathType)
  (is_dir : bool) (s : State) : bool * State :=
if dry_run self then (true, s)
else
  let w1 :=
    if backup self && negb is_dir
    then backup_before_delete (world s) p path_type
    else world s in
  match remove_path w1 p path_type is_dir with
  | Some w2 => (true, {| stats := stats s; world := w2 |})
  | None => (false, {| stats := add_error (stats s); world := w1 |})
  end.

(** *** [synchronize]: building the lists *)

Definition empty_plan : Plan :=
{| to_copy := []; to_update := []; to_delete := []; skipped_paths := [];
   conflicts_counted := 0 |}.

Definition push_copy (acc : Plan) (it : CopyItem) : Plan :=
{| to_copy := to_copy acc ++ [it]; to_update := to_update acc;
   to_delete := to_delete acc; skipped_paths := skipped_paths acc;
   conflicts_counted := conflicts_counted acc |}.

Definition push_update (acc : Plan) (it : CopyItem) : Plan :=
{| to_copy := to_copy acc; to_update := to_update acc ++ [it];
   to_delete := to_delete acc; skipped_paths := skipped_paths acc;
   conflicts_counted := conflicts_counted acc |}.

Definition push_skipped (acc : Plan) (rel_path : Path) : Plan :=
{| to_copy := to_copy acc; to_update := to_update acc;
   to_delete := to_delete acc; skipped_paths := skipped_paths acc ++ [rel_path];
   conflicts_counted := conflicts_counted acc |}.

Definition count_conflict (acc : Plan) : Plan :=
{| to_copy := to_copy acc; to_update := to_update acc;
   to_delete := to_delete acc; skipped_paths := skipped_paths acc;
   conflicts_counted := conflicts_counted acc + 1 |}.

Definition set_to_delete (acc : Plan) (l : list DeleteItem) : Plan :=
{| to_copy := to_copy acc; to_update := to_update acc;
   to_delete := l; skipped_paths := skipped_paths acc;
   conflicts_counted := conflicts_counted acc |}.

(** The [if action == COPY ... elif ... else] at the end of the loop. *)
Definition route (acc : Plan) (action : FileAction) (it : CopyItem)
  (rel_path : Path) : Plan :=
match action with
| COPY => push_copy acc it
| UPDATE => push_update acc it
| _ => push_skipped acc rel_path
end.

(** [s.replace('\\', '/')] on one segment of a rendered path: a backslash
    becomes a separator, so it ends a segment. *)
Fixpoint split_backslash (s : string) : list string :=
match s with
| EmptyString => [EmptyString]
| String c r =>
    if Ascii.eqb c (ascii_of_nat 92) then EmptyString :: split_backslash r
    else
      match split_backslash r with
      | h :: t => String c h :: t
      | [] => [String c EmptyString]
      end
end.

(** The replacement on a whole path.  Two separators in a row stand for
    one: no segment is empty. *)
Definition backslashes_to_slashes (p : Path) : Path :=
filter nonempty (flat_map split_backslash p).

(** [dest_path] in the loop of [synchronize]: the joined path for a local
    destination, and the joined path with its backslashes replaced for a
    remote one. *)
Definition dest_path_of (self : FileSyncer) (rel_path : Path) : Path :=
match dest_type self with
| LOCAL => os_path_join (destination self) rel_path
| REMOTE => backslashes_to_slashes (os_path_join (destination self) rel_path)
end.

(** The body of [for rel_path, source_file in source_files.items()]. *)
Definition plan_entry (self : FileSyncer) (w : World) (conflict_list : list Path)
  (dest_files : Dict) (acc : Plan) (item : Path * FileInfo) : Plan :=
let '(rel_path, source_file) := item in
let dest_file := dict_get rel_path dest_files in
let source_path := full_path source_file in
let dest_path := dest_path_of self rel_path in
if is_dir source_file then
  match dest_file with
  | None => push_copy acc (source_path, dest_path, is_dir source_file)
  | Some _ => acc
  end
else if path_in rel_path conflict_list then
  match dest_file with
  | Some dest_file =>
      match _resolve_conflict self rel_path source_file dest_file with
      | SKIP => count_conflict (push_skipped acc rel_path)
      | action => route acc action (source_path, dest_path, is_dir source_file) rel_path
      end
  | None => acc   (* not reached: a path in conflict is a key of dest_files *)
  end
else
  route acc (_compare_files self w source_file dest_file source_path dest_path)
        (source_path, dest_path, is_dir source_file) rel_path.

(** The source index: scanned, filtered, keyed by relative path. *)
Definition source_index (self : FileSyncer) (w : World) : Dict :=
dict_of_list
  (filter (fun f => _should_include_file self (path_str (path f)))
          (_list_files self w (source self) (source_type self))).

Definition dest_index (self : FileSyncer) (w : World) : Dict :=
if _path_exists self w (destination self) (dest_type self)
then dict_of_list (_list_files self w (destination self) (dest_type self))
else [].

(** The deletions of the mirror mode. *)
Definition mirror_deletions (self : FileSyncer) (source_files dest_files : Dict)
  : list DeleteItem :=
match sync_mode self with
| MIRROR =>
    map (fun e => (full_path (snd e), is_dir (snd e)))
      (filter (fun e => negb (dict_contains (fst e) source_files)
                        && _should_include_file self (path_str (fst e)))
              dest_files)
| _ => []
end.

Definition build_plan (self : FileSyncer) (w : World) : Plan :=
let source_files := source_index self w in
let dest_files := dest_index self w in
let conflict_list := _detect_conflicts self w source_files dest_files in
let acc := fold_left (plan_entry self w conflict_list dest_files) source_files
             empty_plan in
set_to_delete acc (mirror_deletions self source_files dest_files).

(** *** [synchronize]: carrying the lists out *)

Definition exec_dirs (self : FileSyncer) (l : list CopyItem) (s : State) : State :=
fold_left
  (fun s (it : CopyItem) =>
     let '(_, dest_path, is_dir) := it in
     if is_dir then
       let '(ok, s') := _create_directory self dest_path (dest_type self) s in
       if ok then with_stats add_copied s' else s'
     else s)
  l s.

Definition exec_files (self : FileSyncer) (bump : Stats -> Stats)
  (l : list CopyItem) (s : State) : State :=
fold_left
  (fun s (it : CopyItem) =>
     let '(source_path, dest_path, is_dir) := it in
     if negb is_dir then
       let '(ok, s') :=
         _copy_file self source_path dest_path (source_type self) (dest_type self) s in
       if ok then with_stats bump s' else s'
     else s)
  l s.

Definition exec_deletes (self : FileSyncer) (l : list DeleteItem) (s : State) : State :=
fold_left
  (fun s (it : DeleteItem) =>
     let '(dest_path, is_dir) := it in
     let '(ok, s') := _delete_path self dest_path (dest_type self) is_dir s in
     if ok then with_stats add_deleted s' else s')
  l s.

Definition execute (self : FileSyncer) (p : Plan) (s : State) : State :=
let s1 := exec_dirs self (to_copy p) s in
let s2 := exec_files self add_copied (to_copy p) s1 in
let s3 := exec_files self add_updated (to_update p) s2 in
let s4 := exec_deletes self (to_delete p) s3 in
with_stats (set_skipped (Z.of_nat (List.length (skipped_paths p)))) s4.

(** The two checks at the head of [synchronize]: the state they leave, and
    [false] when [synchronize] returns [False] there. *)
Definition check_paths (self : FileSyncer) (s : State) : State * bool :=
if negb (_path_exists self (world s) (source self) (source_type self))
then (s, false)
else if negb (_path_exists self (world s) (destination self) (dest_type self))
        && negb (SyncMode_eqb (sync_mode self) MIRROR)
then
  let '(ok, s1) := _create_directory self (destination self) (dest_type self) s in
  (s1, ok)
else (s, true).

Definition synchronize (self : FileSyncer) (s : State) : Outcome :=
let '(s1, ok) := check_paths self s in
if negb ok then {| result := false; final := s1; planned := None |}
else
  let p := build_plan self (world s1) in
  let s2 := with_stats (add_conflicts (conflicts_counted p)) s1 in
  let s3 := execute self p s2 in
  {| result := (errors (stats s3) =? 0)%Z; final := s3; planned := Some p |}.

(** A run of a freshly built [FileSyncer] on a world. *)
Definition run (self : FileSyncer) (w : World) : Outcome :=
synchronize self {| stats := fresh_stats; world := w |}.

End Syncer.

(* ================================================================= *)
(** ** The command line (the part of [main] that sets the two comparison
    switches) *)

(** The [store_true] flags [-t] and [-z]. *)
Record Args : Type := {
  arg_timestamp : bool;
  arg_checksum : bool
}.

(** What [parse_args] yields when neither flag is given. *)
Definition argparse_defaults : Args :=
{| arg_timestamp := false; arg_checksum := false |}.

(** The keys ["timestamp"] and ["checksum"] of an options dictionary; a
    configuration file may leave them out. *)
Record Options : Type := {
  opt_timestamp : option bool;
  opt_checksum : option bool
}.

(** The dictionary [main] builds from the command line. *)
Definition cli_options (args : Args) : Options :=
{| opt_timestamp := Some (arg_timestamp args);
   opt_checksum := Some (arg_checksum args) |}.

(** [options.get("timestamp", True)] and [options.get("checksum", False)]. *)
Definition init_use_timestamp (o : Options) : bool :=
match opt_timestamp o with Some b => b | None => true end.

Definition init_use_checksum (o : Options) : bool :=
match opt_checksum o with Some b => b | None => false end.

(* ================================================================= *)
(** ** Path types and remote paths *)

(** [c in s] for a character. *)
Fixpoint contains_char (c : ascii) (s : string) : bool :=
match s with
| EmptyString => false
| String a r => Ascii.eqb a c || contains_char c r
end.

Definition _get_path_type (path : string) : PathType :=
if contains_char "@" path && contains_char ":" path then REMOTE else LOCAL.

(** [s.split(c, 1)]: the text before the first [c] and the text after it,
    or the whole string alone when [c] does not occur. *)
Fixpoint split_once (c : ascii) (s : string) : string * option string :=
match s with
| EmptyString => (EmptyString, None)
| String a r =>
    if Ascii.eqb a c then (EmptyString, Some r)
    else let '(h, t) := split_once c r in (String a h, t)
end.

(** [_parse_remote_path]: user, host and path.  [environ_USER] stands for
    [os.environ.get("USER", "")].  [None]: the unpacking of
    [path.split(":", 1)] raises [ValueError]. *)
Definition _parse_remote_path (environ_USER : string) (path : string)
  : option (string * string * string) :=
match split_once ":" path with
| (user_host, Some remote_path) =>
    if contains_char "@" user_host then
      match split_once "@" user_host with
      | (username, Some hostname) => Some (username, hostname, remote_path)
      | (_, None) => None
      end
    else Some (environ_USER, user_host, remote_path)
| (_, None) => None
end.

(* ================================================================= *)
(** ** Logging *)

(** The levels of the [logging] module. *)
Definition NOTSET : nat := 0.
Definition DEBUG : nat := 10.
Definition INFO : nat := 20.
Definition WARNING : nat := 30.
Definition ERROR : nat := 40.

(** Where a handler writes: the console ([RichHandler] or [StreamHandler])
    or a log file. *)
Inductive Sink : Type := Console | LogFile (name : string).

Record Handler : Type := {
  h_level : nat;
  h_sink : Sink
}.

(** [logging.getLogger("file_syncer")]: one logger object for the whole
    process, shared by every [FileSyncer] that is built. *)
Record Logger : Type := {
  l_level : nat;
  l_handlers : list Handler
}.

(** The logger before the first [FileSyncer] is built. *)
Definition fresh_logger : Logger := {| l_level := NOTSET; l_handlers := [] |}.

(** The level [_setup_logging] picks. *)
Definition log_level (verbose quiet : bool) : nat :=
if verbose then DEBUG else if quiet then ERROR else WARNING.

(** [_setup_logging]: a console handler is added, and a file handler when
    [log_file] is not empty; the logger's level is set.  Both branches of
    [if RICH_AVAILABLE] give the console handler the same level. *)
Definition _setup_logging (verbose quiet : bool) (log_file : string) (lg : Logger)
  : Logger :=
let level := log_level verbose quiet in
let with_console := l_handlers lg ++ [{| h_level := level; h_sink := Console |}] in
{| l_level := level;
   l_handlers :=
     if nonempty log_file
     then with_console ++ [{| h_level := level; h_sink := LogFile log_file |}]
     else with_console |}.

(** The level a logger works with: its own, or the root logger's
    ([WARNING]) while it has none. *)
Definition effective_level (lg : Logger) : nat :=
if (l_level lg =? NOTSET)%nat then WARNING else l_level lg.

(** [logger.log(level, ...)] (propagation is off): the sinks the record is
    written to, one per handler that lets it through. *)
Definition emit (lg : Logger) (level : nat) : list Sink :=
if (effective_level lg <=? level)%nat
then map h_sink (filter (fun h => (h_level h <=? level)%nat) (l_handlers lg))
else [].

(** What [print_summary] logs, all of it at [INFO]. *)
Inductive SummaryLine : Type :=
| SRule                         (* sixty [=] *)
| STitle
| SDuration (seconds : Q)
| SCopied (n : Z)
| SUpdated (n : Z)
| SDeleted (n : Z)
| SSkipped (n : Z)
| SConflicts (n : Z)
| SErrors (n : Z)
| STransferred (megabytes : Q)
| SDryRunNote.

(** [start_time] and [end_time] are the two wall-clock entries of
    [self.stats]. *)
Definition print_summary (self_dry_run : bool) (st : Stats) (start_time end_time : Q)
  : list SummaryLine :=
[ SRule; STitle; SRule;
  SDuration (end_time - start_time);
  SCopied (copied st); SUpdated (updated st); SDeleted (deleted st);
  SSkipped (skipped st); SConflicts (conflicts st); SErrors (errors st);
  STransferred (inject_Z (bytes_transferred st) / inject_Z (1024 * 1024)) ]
++ (if self_dry_run then [SDryRunNote] else [])
++ [SRule].

(** The records of a list as they reach the sinks. *)
Definition written (lg : Logger) (level : nat) (records : list SummaryLine)
  : list (Sink * SummaryLine) :=
flat_map (fun r => map (fun s => (s, r)) (emit lg level)) records.

(** [self.stats["end_time"]] after [synchronize]: the clock, or the 0 it
    was created with when [synchronize] returned at one of the path
    checks. *)
Definition end_time_after (o : Outcome) : Q :=
match planned o with
| Some _ => clock (world (final o))
| None => 0
end.

(* ================================================================= *)
(** ** The command line and the configuration file ([main]) *)

(** The values an options dictionary holds. *)
Inductive Value : Type :=
| VNone
| VBool (b : bool)
| VInt (z : Z)
| VStr (s : string)
| VList (l : list string).

(** A dictionary with string keys, in insertion order. *)
Definition OptionsDict := list (string * Value).

Fixpoint opt_get (k : string) (d : OptionsDict) : option Value :=
match d with
| [] => None
| (q, v) :: r => if String.eqb q k then Some v else opt_get k r
end.

(** [d[k] = v]. *)
Fixpoint opt_set (k : string) (v : Value) (d : OptionsDict) : OptionsDict :=
match d with
| [] => [(k, v)]
| (q, u) :: r => if String.eqb q k then (q, v) :: r else (q, u) :: opt_set k v r
end.

(** [d.update(e)]. *)
Definition opt_update (d e : OptionsDict) : OptionsDict :=
fold_left (fun acc kv => opt_set (fst kv) (snd kv) acc) e d.

(** Truth of an optional string ([None] and the empty string are false). *)
Definition given (o : option string) : bool :=
match o with Some s => nonempty s | None => false end.

Definition value_of (o : option string) : Value :=
match o with Some s => VStr s | None => VNone end.

(** The namespace [parse_args] returns. *)
Record Namespace : Type := {
  a_source : option string;
  a_destination : option string;
  a_config : option string;
  a_dry_run : bool;
  a_verbose : bool;
  a_quiet : bool;
  a_sync_mode : string;
  a_exclude : list string;
  a_include : list string;
  a_timestamp : bool;
  a_checksum : bool;
  a_backup : bool;
  a_force : bool;
  a_log : option string;
  a_port : Z;
  a_ssh_key : option string
}.

(** A loaded configuration file: the dictionary itself, its
    ["sync_pairs"] (a list of dictionaries) and its ["global_options"] when
    it has them. *)
Record Config : Type := {
  c_options : OptionsDict;
  c_sync_pairs : option (list OptionsDict);
  c_global_options : option OptionsDict
}.

(** The three overrides of the command line over a configuration. *)
Definition override_flags (args : Namespace) (options : OptionsDict) : OptionsDict :=
let o1 := if a_verbose args then opt_set "verbose" (VBool true) options else options in
let o2 := if a_quiet args then opt_set "quiet" (VBool true) o1 else o1 in
if a_dry_run args then opt_set "dry_run" (VBool true) o2 else o2.

(** The options of one pair of a configuration with ["sync_pairs"]. *)
Definition pair_options (args : Namespace) (config : Config) (pair_config : OptionsDict)
  : OptionsDict :=
let from_global :=
  match c_global_options config with
  | Some g => opt_update [] g
  | None => []
  end in
override_flags args (opt_update from_global pair_config).

(** The dictionary built from the command line alone. *)
Definition command_line_options (args : Namespace) : OptionsDict :=
[ ("source", value_of (a_source args));
  ("destination", value_of (a_destination args));
  ("dry_run", VBool (a_dry_run args));
  ("verbose", VBool (a_verbose args));
  ("quiet", VBool (a_quiet args));
  ("sync_mode", VStr (a_sync_mode args));
  ("exclude", VList (a_exclude args));
  ("include", VList (a_include args));
  ("timestamp", VBool (a_timestamp args));
  ("checksum", VBool (a_checksum args));
  ("backup", VBool (a_backup args));
  ("force", VBool (a_force args));
  ("log", value_of (a_log args));
  ("port", VInt (a_port args));
  ("ssh_key", value_of (a_ssh_key args)) ].

(** What [main] prints. *)
Inductive Message : Type :=
| MNoParamiko
| MNoRich
| MHelp
| MNeedSourceAndDestination
| MPairHeader (i n : nat)
| MPairFailed (i : nat)
| MFailed.

(** What [main] does, in order: a line printed, or one synchronisation
    (build the [FileSyncer], connect, [synchronize], [print_summary],
    disconnect) with the options it was built from. *)
Inductive Event : Type :=
| Printed (m : Message)
| Synchronised (options : OptionsDict).

Section Main.

(** [SFTP_AVAILABLE] and [RICH_AVAILABLE]. *)
Variable SFTP_AVAILABLE RICH_AVAILABLE : bool.

(** [load_config_file]; [None] when it prints its error and calls
    [sys.exit(1)]. *)
Variable load_config_file : string -> option Config.

(** One synchronisation: what [synchronize] returned, or [None] when the
    process ended inside it ([sys.exit(1)] in [_connect_sftp]). *)
Variable synchronise : OptionsDict -> option bool.

(** The loop over [config["sync_pairs"]], from pair [i] (counted from 0):
    the events and [true] when the process ended inside a pair. *)
Fixpoint run_pairs (args : Namespace) (config : Config) (n i : nat)
  (pairs : list OptionsDict) : list Event * bool :=
match pairs with
| [] => ([], false)
| pair_config :: rest =>
    let options := pair_options args config pair_config in
    let head := [Printed (MPairHeader (i + 1) n); Synchronised options] in
    match synchronise options with
    | None => (head, true)
    | Some success =>
        let report :=
          if negb success && negb (a_dry_run args)
          then [Printed (MPairFailed (i + 1))] else [] in
        let '(events, died) := run_pairs args config n (S i) rest in
        (head ++ report ++ events, died)
    end
end.

(** [main]: the events and the exit status of the process. *)
Definition main (args : Namespace) : list Event * Z :=
let notes :=
  (if SFTP_AVAILABLE then [] else [Printed MNoParamiko]) ++
  (if RICH_AVAILABLE then [] else [Printed MNoRich]) in
if negb (given (a_config args)) &&
   (negb (given (a_source args)) || negb (given (a_destination args)))
then (notes ++ [Printed MHelp; Printed MNeedSourceAndDestination], 1%Z)
else if given (a_config args) then
  match load_config_file (match a_config args with Some s => s | None => EmptyString end) with
  | None => (notes, 1%Z)
  | Some config =>
      match c_sync_pairs config with
      | Some pairs =>
          let '(events, died) :=
            run_pairs args config (List.length pairs) 0 pairs in
          (notes ++ events, if died then 1%Z else 0%Z)
      | None =>
          let options := override_flags args (c_options config) in
          match synchronise options with
          | None => (notes ++ [Synchronised options], 1%Z)
          | Some success =>
              (notes ++ [Synchronised options] ++
               (if negb success && negb (a_dry_run args) then [Printed MFailed] else []),
               0%Z)
          end
      end
  end
else
  let options := command_line_options args in
  match synchronise options with
  | None => (notes ++ [Synchronised options], 1%Z)
  | Some success =>
      if negb success && negb (a_dry_run args)
      then (notes ++ [Synchronised options; Printed MFailed], 1%Z)
      else (notes ++ [Synchronised options], 0%Z)
  end.

End Main.

(* ================================================================= *)
(** ** Notions used in the statements *)

Definition is_SKIP (a : FileAction) : bool :=
match a with SKIP => true | _ => false end.

(** Whether the resolver answers Skip for the path [rel] of two indices. *)
Definition resolves_to_skip (self : FileSyncer) (source_files dest_files : Dict)
  (rel : Path) : bool :=
match dict_get rel source_files, dict_get rel dest_files with
| Some source_file, Some dest_file =>
    is_SKIP (_resolve_conflict self rel source_file dest_file)
| _, _ => false
end.

(** The world in which a fresh [FileSyncer] scans and plans: the one the
    two checks at the head of [synchronize] leave. *)
Definition planning_world (self : FileSyncer) (w : World) : World :=
world (fst (check_paths self {| stats := fresh_stats; world := w |})).

(** The entries a walk of [directory] meets, in walk order: relative path,
    full path and node. *)
Definition entries_below (directory : Path) (st : Store) : list (Path * Path * Node) :=
flat_map
  (fun e : Path * Node =>
     match os_path_relpath (fst e) directory with
     | Some (seg :: rel) => [(seg :: rel, fst e, snd e)]
     | _ => []
     end)
  st.

(** [os.stat] succeeds on the entry. *)
Definition stat_ok (e : Path * Path * Node) : bool :=
negb (is_KDangling (n_kind (snd e))).

(** The entries below [directory] that a walk comes to, in walk order:
    those not below a directory that cannot be listed. *)
Definition visited_below (directory : Path) (st : Store) : list (Path * Path * Node) :=
filter (fun e : Path * Path * Node => walk_reaches st directory (fst (fst e)))
       (entries_below directory st).

(** The scan reads the entry: the walk comes to it and [os.stat] succeeds
    on it. *)
Definition scan_reads (st : Store) (directory : Path) (e : Path * Path * Node) : bool :=
walk_reaches st directory (fst (fst e)) && stat_ok e.

Definition info_of (e : Path * Path * Node) : FileInfo :=
mk_info (fst (fst e)) (snd (fst e)) (snd e).

Fixpoint take_while (A : Type) (f : A -> bool) (l : list A) : list A :=
match l with
| [] => []
| x :: r => if f x then x :: take_while f r else []
end.

(** [a] is [b] or an ancestor of it. *)
Definition prefixb (a b : Path) : bool :=
match os_path_relpath b a with Some _ => true | None => false end.

(** The part of a store at and below a root. *)
Definition at_or_below (root : Path) (st : Store) : Store :=
filter (fun e => prefixb root (fst e)) st.

(** The entry of a plan list for an item of the source index. *)
Definition copy_item (self : FileSyncer) (item : Path * FileInfo) : CopyItem :=
(full_path (snd item), dest_path_of self (fst item), is_dir (snd item)).

(** Where the planning loop sends an item when no path is in conflict. *)
Definition goes_copy (md5_hexdigest : string -> string) (self : FileSyncer)
  (w : World) (dest_files : Dict) (item : Path * FileInfo) : bool :=
if is_dir (snd item) then
  match dict_get (fst item) dest_files with None => true | Some _ => false end
else
  match _compare_files md5_hexdigest self w (snd item)
          (dict_get (fst item) dest_files) (full_path (snd item))
          (dest_path_of self (fst item)) with
  | COPY => true
  | _ => false
  end.

Definition goes_update (md5_hexdigest : string -> string) (self : FileSyncer)
  (w : World) (dest_files : Dict) (item : Path * FileInfo) : bool :=
if is_dir (snd item) then false
else
  match _compare_files md5_hexdigest self w (snd item)
          (dict_get (fst item) dest_files) (full_path (snd item))
          (dest_path_of self (fst item)) with
  | UPDATE => true
  | _ => false
  end.

Definition goes_skipped (md5_hexdigest : string -> string) (self : FileSyncer)
  (w : World) (dest_files : Dict) (item : Path * FileInfo) : bool :=
if is_dir (snd item) then false
else
  match _compare_files md5_hexdigest self w (snd item)
          (dict_get (fst item) dest_files) (full_path (snd item))
          (dest_path_of self (fst item)) with
  | COPY | UPDATE => false
  | _ => true
  end.

(** The time a copied file carries: [shutil.copy2] keeps the source's, the
    progress-bar loop leaves the clock's. *)
Definition copy_stamp (self : FileSyncer) (now : Q) (n : Node) : Q :=
if rich_console self then now else n_mtime n.

(** [st'] is [st] with new directories added at the end, each at a
    missing ancestor of [p] (or at [p]). *)
Definition adds_dirs (p : Path) (st st' : Store) : Prop :=
exists added : Store,
  st' = st ++ added /\ NoDup (map fst added) /\
  forall e, In e added ->
    fs_lookup (fst e) st = None /\ is_KDir (n_kind (snd e)) = true /\
    fst e <> [] /\ prefixb (fst e) p = true.

(** The destination paths of the files of a plan list. *)
Definition file_dests (l : list CopyItem) : list Path :=
map (fun it : CopyItem => snd (fst it)) (filter (fun it : CopyItem => negb (snd it)) l).

(** The digests the comparator computes for the two sides. *)
Definition source_checksum (md5_hexdigest : string -> string) (self : FileSyncer)
  (w : World) (source_path : Path) : string :=
_calculate_checksum md5_hexdigest self w source_path (side_type (source_type self)).

Definition dest_checksum (md5_hexdigest : string -> string) (self : FileSyncer)
  (w : World) (dest_path : Path) : string :=
_calculate_checksum md5_hexdigest self w dest_path (side_type (dest_type self)).

(** Whether the loop of [synchronize] adds one to [stats["conflicts"]] on
    an item of the source index. *)
Definition counts_conflict (self : FileSyncer) (conflict_list : list Path)
  (dest_files : Dict) (item : Path * FileInfo) : bool :=
negb (is_dir (snd item)) && path_in (fst item) conflict_list &&
match dict_get (fst item) dest_files with
| Some dest_file => is_SKIP (_resolve_conflict self (fst item) (snd item) dest_file)
| None => false
end.

(** How far the statistics moved: no counter went down, [skipped] and
    [conflicts] stayed, the three tallies grew by at most [dc], [du] and
    [dd], and by exactly that much when no error was added. *)
Definition advanced (dc du dd : Z) (a b : Stats) : Prop :=
  (errors a <= errors b)%Z /\
  skipped b = skipped a /\ conflicts b = conflicts a /\
  (copied a <= copied b <= copied a + dc)%Z /\
  (updated a <= updated b <= updated a + du)%Z /\
  (deleted a <= deleted b <= deleted a + dd)%Z /\
  (errors b = errors a ->
   copied b = (copied a + dc)%Z /\ updated b = (updated a + du)%Z /\
   deleted b = (deleted a + dd)%Z).

Definition count_dirs (l : list CopyItem) : Z :=
  Z.of_nat (List.length (filter (fun it : CopyItem => snd it) l)).

Definition count_files (l : list CopyItem) : Z :=
  Z.of_nat (List.length (filter (fun it : CopyItem => negb (snd it)) l)).

(** The operations a statistics record has settled: done or failed. *)
Definition settled (st : Stats) : Z :=
(copied st + updated st + deleted st + errors st)%Z.

(** A directory of the source that the destination already has: the only
    kind of entry the planning loop passes over. *)
Definition dir_in_place (dest_files : Dict) (item : Path * FileInfo) : bool :=
is_dir (snd item) && dict_contains (fst item) dest_files.

(** The destination paths a plan has settled: those of its copy and update
    lists, and those its skip list stands for. *)
Definition planned_dests (self : FileSyncer) (p : Plan) : list Path :=
map (fun it : CopyItem => snd (fst it)) (to_copy p) ++
map (fun it : CopyItem => snd (fst it)) (to_update p) ++
map (dest_path_of self) (skipped_paths p).

(** A pattern with none of the characters [fnmatch] treats specially. *)
Definition plain_char (c : ascii) : bool :=
negb (Ascii.eqb c "*" || Ascii.eqb c "?" || Ascii.eqb c "[").

Definition literal_pattern (pat : string) : bool :=
forallb plain_char (list_ascii_of_string pat).

(** The source tree is as it was. *)
Definition source_kept (self : FileSyncer) (w w' : World) : Prop :=
at_or_below (source self) (local_fs w') = at_or_below (source self) (local_fs w).

(** Every entry of [st] is still there in [st']: a directory untouched, a
    file possibly with new contents. *)
Definition entries_kept (st st' : Store) : Prop :=
forall (q : Path) (n : Node),
  fs_lookup q st = Some n ->
  exists n' : Node,
    fs_lookup q st' = Some n' /\ (is_KDir (n_kind n) = true -> n' = n).

(** The list the planning loop puts an entry of the source index on:
    [Some COPY], [Some UPDATE] or [Some SKIP], and [None] for an entry it
    passes over. *)
Definition planned_action (md5_hexdigest : string -> string) (self : FileSyncer)
  (w : World) (conflict_list : list Path) (dest_files : Dict)
  (item : Path * FileInfo) : option FileAction :=
let dest_file := dict_get (fst item) dest_files in
if is_dir (snd item) then
  match dest_file with None => Some COPY | Some _ => None end
else
  let action :=
    if path_in (fst item) conflict_list then
      match dest_file with
      | Some d => Some (_resolve_conflict self (fst item) (snd item) d)
      | None => None
      end
    else Some (_compare_files md5_hexdigest self w (snd item) dest_file
                 (full_path (snd item)) (dest_path_of self (fst item))) in
  match action with
  | Some COPY => Some COPY
  | Some UPDATE => Some UPDATE
  | Some _ => Some SKIP
  | None => None
  end.

Definition action_is (a : FileAction) (o : option FileAction) : bool :=
match o, a with
| Some COPY, COPY | Some UPDATE, UPDATE | Some SKIP, SKIP => true
| _, _ => false
end.

(** The options of the synchronisations among the events of [main]. *)
Fixpoint synchronised (events : list Event) : list OptionsDict :=
match events with
| [] => []
| Synchronised options :: r => options :: synchronised r
| Printed _ :: r => synchronised r
end.

(** The failure notices among the events of [main]. *)
Definition is_failure_notice (e : Event) : bool :=
match e with
| Printed (MPairFailed _) | Printed MFailed => true
| _ => false
end.

(** Whether the command line forces the key [k] of a configuration. *)
Definition forced_by_flag (args : Namespace) (k : string) : bool :=
(String.eqb k "verbose" && a_verbose args) ||
(String.eqb k "quiet" && a_quiet args) ||
(String.eqb k "dry_run" && a_dry_run args).

(* ================================================================= *)
(** ** Sample configurations and worlds *)

Definition sample_digest (content : string) : string :=
("md5:" ++ content)%string.

Definition set_dry_run (b : bool) (self : FileSyncer) : FileSyncer :=
{| source := source self; destination := destination self; dry_run := b;
   sync_mode := sync_mode self; exclude_patterns := exclude_patterns self;
   include_patterns := include_patterns self; use_timestamp := use_timestamp self;
   use_checksum := use_checksum self; backup := backup self; force := force self;
   source_type := source_type self; dest_type := dest_type self;
   rich_console := rich_console self |}.

(** A one-way run between two local directories, every switch off. *)
Definition plain_syncer (mode : SyncMode) : FileSyncer :=
{| source := ["src"]; destination := ["dst"]; dry_run := false;
   sync_mode := mode; exclude_patterns := []; include_patterns := [];
   use_timestamp := false; use_checksum := false; backup := false; force := false;
   source_type := LOCAL; dest_type := LOCAL; rich_console := false |}.

Definition with_patterns (excl incl : list string) (self : FileSyncer) : FileSyncer :=
{| source := source self; destination := destination self; dry_run := dry_run self;
   sync_mode := sync_mode self; exclude_patterns := excl;
   include_patterns := incl; use_timestamp := use_timestamp self;
   use_checksum := use_checksum self; backup := backup self; force := force self;
   source_type := source_type self; dest_type := dest_type self;
   rich_console := rich_console self |}.

Definition with_compare (ts cs : bool) (self : FileSyncer) : FileSyncer :=
{| source := source self; destination := destination self; dry_run := dry_run self;
   sync_mode := sync_mode self; exclude_patterns := exclude_patterns self;
   include_patterns := include_patterns self; use_timestamp := ts;
   use_checksum := cs; backup := backup self; force := force self;
   source_type := source_type self; dest_type := dest_type self;
   rich_console := rich_console self |}.

Definition with_force (b : bool) (self : FileSyncer) : FileSyncer :=
{| source := source self; destination := destination self; dry_run := dry_run self;
   sync_mode := sync_mode self; exclude_patterns := exclude_patterns self;
   include_patterns := include_patterns self; use_timestamp := use_timestamp self;
   use_checksum := use_checksum self; backup := backup self; force := b;
   source_type := source_type self; dest_type := dest_type self;
   rich_console := rich_console self |}.

Definition dir_node (t : Q) : Node := new_dir t.

Definition file_node (content : string) (t : Q) : Node := new_file content t.

Definition dangling_node : Node :=
{| n_kind := KDangling; n_data := EmptyString; n_mtime := 0; n_readable := false |}.

Definition local_world (st : Store) (now : Q) : World :=
{| local_fs := st; source_sftp := []; dest_sftp := []; clock := now |}.

(** [src] holds [a.txt] (5 bytes); [dst] is an empty directory. *)
Definition world_a : World :=
local_world
  [ (["src"], dir_node 100);
    (["src"; "a.txt"], file_node "hello" 100);
    (["dst"], dir_node 100) ]
  1000.

(** Scenario B: [a.txt] has ten bytes on both sides, with different
    contents; the source is the newer one. *)
Definition world_b : World :=
local_world
  [ (["src"], dir_node 100);
    (["src"; "a.txt"], file_node "0123456789" 200);
    (["dst"], dir_node 100);
    (["dst"; "a.txt"], file_node "abcdefghij" 100) ]
  1000.

Definition info_src_new : FileInfo :=
mk_info ["a.txt"] ["src"; "a.txt"] (file_node "0123456789" 200).

Definition info_dst_old : FileInfo :=
mk_info ["a.txt"] ["dst"; "a.txt"] (file_node "abcdefghij" 100).

(** Scenario D: [shared.txt] differs on both sides and the destination is
    the newer one. *)
Definition info_src_old : FileInfo :=
mk_info ["shared.txt"] ["src"; "shared.txt"] (file_node "source" 100).

Definition info_dst_new : FileInfo :=
mk_info ["shared.txt"] ["dst"; "shared.txt"] (file_node "target" 200).

(** Two files of one size whose times are the floats [2.1] and [0.1]. *)
Definition info_at_2_1 : FileInfo :=
mk_info ["a.txt"] ["src"; "a.txt"] (file_node "hello" (round64 (21 # 10))).

Definition info_at_0_1 : FileInfo :=
mk_info ["a.txt"] ["dst"; "a.txt"] (file_node "world" (round64 (1 # 10))).

(** No source directory: only [dst] is there. *)
Definition world_no_source : World :=
local_world [ (["dst"], dir_node 100) ] 1000.

(** A mirror run that excludes [*.tmp]; the destination holds
    [cache.tmp], the source holds nothing. *)
Definition mirror_syncer_no_tmp : FileSyncer :=
with_patterns ["*.tmp"] [] (plain_syncer MIRROR).

Definition world_tmp_in_dest : World :=
local_world
  [ (["src"], dir_node 100);
    (["dst"], dir_node 100);
    (["dst"; "cache.tmp"], file_node "scratch" 100) ]
  1000.

(** Scenario C: the destination holds [old.txt], the source holds nothing. *)
Definition world_old_in_dest : World :=
local_world
  [ (["src"], dir_node 100);
    (["dst"], dir_node 100);
    (["dst"; "old.txt"], file_node "stale" 100) ]
  1000.

(** Scenario D: [shared.txt] on both sides, same size, the destination a
    hundred seconds newer. *)
Definition world_d : World :=
local_world
  [ (["src"], dir_node 100);
    (["src"; "shared.txt"], file_node "source" 100);
    (["dst"], dir_node 100);
    (["dst"; "shared.txt"], file_node "target" 200) ]
  1000.

(** [src] holds [a.txt], a dangling link and [c.txt], met in that order. *)
Definition world_broken_link : World :=
local_world
  [ (["src"], dir_node 100);
    (["src"; "a.txt"], file_node "first" 100);
    (["src"; "broken"], dangling_node);
    (["src"; "c.txt"], file_node "third" 100);
    (["dst"], dir_node 100) ]
  1000.

(** A directory that cannot be listed, with a file in it. *)
Definition locked_dir_node : Node :=
{| n_kind := KDir; n_data := EmptyString; n_mtime := 100; n_readable := false |}.

Definition world_locked_dir : World :=
local_world
  [ (["src"], dir_node 100);
    (["src"; "a.txt"], file_node "first" 100);
    (["src"; "locked"], locked_dir_node);
    (["src"; "locked"; "x.txt"], file_node "hidden" 100);
    (["dst"], dir_node 100) ]
  1000.

(** A one-way run that compares modification times. *)
Definition timestamp_syncer : FileSyncer :=
with_compare true false (plain_syncer ONE_WAY).

Definition with_types (ts td : PathType) (self : FileSyncer) : FileSyncer :=
{| source := source self; destination := destination self; dry_run := dry_run self;
   sync_mode := sync_mode self; exclude_patterns := exclude_patterns self;
   include_patterns := include_patterns self; use_timestamp := use_timestamp self;
   use_checksum := use_checksum self; backup := backup self; force := force self;
   source_type := ts; dest_type := td; rich_console := rich_console self |}.

Definition with_backup (b : bool) (self : FileSyncer) : FileSyncer :=
{| source := source self; destination := destination self; dry_run := dry_run self;
   sync_mode := sync_mode self; exclude_patterns := exclude_patterns self;
   include_patterns := include_patterns self; use_timestamp := use_timestamp self;
   use_checksum := use_checksum self; backup := b; force := force self;
   source_type := source_type self; dest_type := dest_type self;
   rich_console := rich_console self |}.

(** The source is on a host and holds [a.txt]; the local destination
    holds [old.txt]. *)
Definition world_remote_source : World :=
{| local_fs := [ (["dst"], dir_node 100);
                 (["dst"; "old.txt"], file_node "stale" 100) ];
   source_sftp := [ (["src"], dir_node 100);
                    (["src"; "a.txt"], file_node "hello" 100) ];
   dest_sftp := [];
   clock := 1000 |}.

(** The destination is on a host and already holds the same [a.txt] as
    the local source. *)
Definition world_remote_dest : World :=
{| local_fs := [ (["src"], dir_node 100);
                 (["src"; "a.txt"], file_node "hello" 100) ];
   source_sftp := [];
   dest_sftp := [ (["dst"], dir_node 100);
                  (["dst"; "a.txt"], file_node "hello" 100) ];
   clock := 1000 |}.

(** A file name with a backslash in it: [a], a backslash, [b]. *)
Definition name_a_backslash_b : string :=
String "a" (String (ascii_of_nat 92) (String "b" EmptyString)).

(** The local source holds a file of that name beside a directory [a]
    with a file [b] in it; the destination is on a host. *)
Definition world_backslash_name : World :=
{| local_fs := [ (["src"], dir_node 100);
                 (["src"; name_a_backslash_b], file_node "one" 100);
                 (["src"; "a"], dir_node 100);
                 (["src"; "a"; "b"], file_node "two" 100) ];
   source_sftp := [];
   dest_sftp := [ (["dst"], dir_node 100) ];
   clock := 1000 |}.

(** The destination holds a directory [old] with a file in it; the source
    holds nothing. *)
Definition world_stale_dir : World :=
local_world
  [ (["src"], dir_node 100);
    (["dst"], dir_node 100);
    (["dst"; "old"], dir_node 100);
    (["dst"; "old"; "x.txt"], file_node "stale" 100) ]
  1000.


(** A namespace and a configuration for the examples: two pairs, the
    second with a dry run of its own. *)
Definition sample_args (config : option string) (dry : bool) : Namespace :=
{| a_source := None; a_destination := None; a_config := config;
   a_dry_run := dry; a_verbose := false; a_quiet := false;
   a_sync_mode := "one-way"; a_exclude := []; a_include := [];
   a_timestamp := false; a_checksum := false; a_backup := false; a_force := false;
   a_log := None; a_port := 22; a_ssh_key := None |}.

Definition sample_pairs : list OptionsDict :=
[ [("source", VStr "/data"); ("destination", VStr "/backup")];
  [("source", VStr "/etc"); ("destination", VStr "/backup/etc");
   ("dry_run", VBool true); ("sync_mode", VStr "one-way")] ].

Definition sample_config : Config :=
{| c_options := [];
   c_sync_pairs := Some sample_pairs;
   c_global_options := Some [("sync_mode", VStr "mirror"); ("backup", VBool true)] |}.

(* ================================================================= *)
(** ** Five rules in the words of the specification

    Each is stated as the specification words it; the code does not
    follow any of them as worded (see the counterexamples below). *)

(** The success rule in the words of the specification: the run returns
    true exactly when its error counter ends at zero. *)
Definition success_iff_no_error (md5_hexdigest : string -> string)
  (self : FileSyncer) (w : World) : Prop :=
result (run md5_hexdigest self w) = true <->
errors (stats (final (run md5_hexdigest self w))) = 0%Z.

(** The deletion rule in the words of the specification: an entry of the
    destination is planned for deletion exactly when the mode is Mirror and
    its path is absent from the filtered source index. *)
Definition delete_iff_absent (md5_hexdigest : string -> string)
  (self : FileSyncer) (w : World) : Prop :=
forall (rel : Path) (d : FileInfo),
  In (rel, d) (dest_index self w) ->
  (In (full_path d, is_dir d) (to_delete (build_plan md5_hexdigest self w)) <->
   sync_mode self = MIRROR /\ dict_contains rel (source_index self w) = false).

(** The reporting rule in the words of the specification: the conflicts
    statistic of a run counts every detected conflict. *)
Definition conflicts_all_counted (md5_hexdigest : string -> string)
  (self : FileSyncer) (w : World) : Prop :=
conflicts (stats (final (run md5_hexdigest self w))) =
Z.of_nat (List.length
            (_detect_conflicts md5_hexdigest self w
               (source_index self w) (dest_index self w))).

(** The partial-result policy in the words of the specification: a local
    scan omits only the entries it could not read. *)
Definition scan_omits_only_failures (self : FileSyncer) (w : World)
  (directory : Path) : Prop :=
forall e : Path * Path * Node,
  In e (entries_below directory (local_fs w)) ->
  stat_ok e = true ->
  In (info_of e) (_list_files self w directory LOCAL).

(** Idempotence in the words of the specification: after a one-way run
    that ended without an error, a second run over the trees it left plans
    no copy, no update and no deletion. *)
Definition second_run_idle (md5_hexdigest : string -> string)
  (self : FileSyncer) (w : World) : Prop :=
sync_mode self = ONE_WAY ->
errors (stats (final (run md5_hexdigest self w))) = 0%Z ->
forall p : Plan,
  planned (run md5_hexdigest self (world (final (run md5_hexdigest self w)))) = Some p ->
  to_copy p = [] /\ to_update p = [] /\ to_delete p = [].

(* ================================================================= *)
(** * Properties *)

Unset Implicit Arguments.

(** ** Basic facts *)

Lemma path_eqb_refl (a : Path) : path_eqb a a = true.
Proof.
  induction a as [|x a IH]; simpl; [reflexivity|].
  now rewrite String.eqb_refl, IH.
Qed.

Lemma path_eqb_eq (a b : Path) : path_eqb a b = true <-> a = b.
Proof.
  split.
  - revert b; induction a as [|x a IH]; intros [|y b] H; simpl in H;
      try discriminate; [reflexivity|].
    apply andb_true_iff in H as [Hx Hr].
    apply String.eqb_eq in Hx. apply IH in Hr. now subst.
  - intros ->. apply path_eqb_refl.
Qed.

Lemma path_eqb_neq (a b : Path) : path_eqb a b = false <-> a <> b.
Proof.
  rewrite <- path_eqb_eq. destruct (path_eqb a b); split; congruence.
Qed.

Lemma path_eqb_sym (a b : Path) : path_eqb a b = path_eqb b a.
Proof.
  destruct (path_eqb a b) eqn:E.
  - apply path_eqb_eq in E. subst. symmetry. apply path_eqb_refl.
  - symmetry. apply path_eqb_neq. apply path_eqb_neq in E. congruence.
Qed.

Lemma Qgtb_true (a b : Q) : Qgtb a b = true <-> (b < a)%Q.
Proof.
  unfold Qgtb. rewrite negb_true_iff.
  split; intros H.
  - apply Qnot_le_lt. intros Hle. apply Qle_bool_iff in Hle. congruence.
  - destruct (Qle_bool a b) eqn:E; [|reflexivity].
    apply Qle_bool_iff in E. exfalso. eapply Qlt_not_le; eauto.
Qed.

Lemma Qgtb_false (a b : Q) : Qgtb a b = false <-> (a <= b)%Q.
Proof.
  unfold Qgtb. rewrite negb_false_iff. apply Qle_bool_iff.
Qed.

(** *** Binary64 rounding *)

Lemma pow2_pos (e : Z) : (0 < 2 ^ e)%Q.
Proof. apply Qpower_0_lt. reflexivity. Qed.

Lemma pow2_le (a b : Z) : (a <= b)%Z -> (2 ^ a <= 2 ^ b)%Q.
Proof. intros H. apply Qpower_le_compat_l; [exact H|discriminate]. Qed.

Lemma pow2_lt_inv (a b : Z) : (2 ^ a < 2 ^ b)%Q -> (a < b)%Z.
Proof. intros H. apply (Qpower_lt_compat_l_inv 2 a b H). reflexivity. Qed.

Lemma pow2_split (a b : Z) : (2 ^ (a + b) == 2 ^ a * 2 ^ b)%Q.
Proof. apply Qpower_plus. discriminate. Qed.

Lemma pow2_Z (n : Z) : (0 <= n)%Z -> (inject_Z (2 ^ n) == 2 ^ n)%Q.
Proof. intros H. apply (Zpower_Qpower 2 n H). Qed.

Lemma Zfrac_lt (n a : Z) (d b : Z) :
  (0 < d)%Z -> (0 < b)%Z -> (n * b < a * d)%Z ->
  (inject_Z n / inject_Z d < inject_Z a / inject_Z b)%Q.
Proof.
  intros Hd Hb H.
  assert (HD : (0 < inject_Z d)%Q) by (rewrite <- (Zlt_Qlt 0); exact Hd).
  assert (HB : (0 < inject_Z b)%Q) by (rewrite <- (Zlt_Qlt 0); exact Hb).
  apply Qlt_shift_div_r; [exact HD|].
  setoid_replace (inject_Z a / inject_Z b * inject_Z d)%Q
    with (inject_Z a * inject_Z d / inject_Z b)%Q
    by (field; intros E; rewrite E in HB; discriminate).
  apply Qlt_shift_div_l; [exact HB|].
  rewrite <- !inject_Z_mult. rewrite <- Zlt_Qlt. exact H.
Qed.

Lemma ilog2_spec (q : Q) :
  (0 < q)%Q -> (2 ^ ilog2 q <= q)%Q /\ (q < 2 ^ (ilog2 q + 1))%Q.
Proof.
  intros Hq. destruct q as [n d]. unfold ilog2. cbn [Qnum Qden].
  assert (Hn : (0 < n)%Z).
  { unfold Qlt in Hq. cbn in Hq. lia. }
  set (ln := Z.log2 n). set (ld := Z.log2 (Zpos d)).
  pose proof (Z.log2_spec n Hn) as [Hn1 Hn2]. fold ln in Hn1, Hn2.
  pose proof (Z.log2_spec (Zpos d) (Pos2Z.is_pos d)) as [Hd1 Hd2]. fold ld in Hd1, Hd2.
  assert (Hln : (0 <= ln)%Z) by apply Z.log2_nonneg.
  assert (Hld : (0 <= ld)%Z) by apply Z.log2_nonneg.
  assert (Hpn : (0 < 2 ^ ln)%Z) by (apply Z.pow_pos_nonneg; lia).
  assert (Hpd : (0 < 2 ^ ld)%Z) by (apply Z.pow_pos_nonneg; lia).
  rewrite Z.pow_succ_r in Hn2, Hd2 by assumption.
  assert (Hup : (n # d < 2 ^ (ln - ld + 1))%Q).
  { replace (ln - ld + 1)%Z with ((ln + 1) + - ld)%Z by ring.
    rewrite pow2_split, Qpower_opp.
    rewrite <- (pow2_Z (ln + 1)) by lia. rewrite <- (pow2_Z ld) by lia.
    rewrite (Qmake_Qdiv n d).
    apply Zfrac_lt; [lia|lia|].
    rewrite Z.pow_add_r, Z.pow_1_r by lia. nia. }
  assert (Hlow : (2 ^ (ln - ld - 1) < n # d)%Q).
  { replace (ln - ld - 1)%Z with (ln + - (ld + 1))%Z by ring.
    rewrite pow2_split, Qpower_opp.
    rewrite <- (pow2_Z ln) by lia. rewrite <- (pow2_Z (ld + 1)) by lia.
    rewrite (Qmake_Qdiv n d).
    apply Zfrac_lt; [|lia|].
    - apply Z.pow_pos_nonneg; lia.
    - rewrite Z.pow_add_r, Z.pow_1_r by lia. nia. }
  destruct (Qle_bool (2 ^ (ln - ld)) (n # d)) eqn:E.
  - apply Qle_bool_iff in E. split; assumption.
  - split.
    + apply Qlt_le_weak. exact Hlow.
    + replace (ln - ld - 1 + 1)%Z with (ln - ld)%Z by ring.
      apply Qnot_le_lt. intros H. apply Qle_bool_iff in H. congruence.
Qed.

Lemma round_half_even_floor (x : Q) : (Qfloor x <= round_half_even x)%Z.
Proof.
  unfold round_half_even.
  destruct (Qle_bool (x - inject_Z (Qfloor x)) (1 # 2));
    [destruct (Qle_bool (1 # 2) (x - inject_Z (Qfloor x)));
       [destruct (Z.even (Qfloor x))|]|]; lia.
Qed.

Lemma round_half_even_ge (x : Q) (k : Z) :
  (inject_Z k <= x)%Q -> (k <= round_half_even x)%Z.
Proof.
  intros H. apply Qfloor_resp_le in H. rewrite Qfloor_Z in H.
  pose proof (round_half_even_floor x). lia.
Qed.

Lemma round64_nonzero (y : Q) :
  Qeq_bool y 0 = false ->
  round64 y =
  (inject_Z (round_half_even (y / 2 ^ (ilog2 (Qabs y) - 52))) *
   2 ^ (ilog2 (Qabs y) - 52))%Q.
Proof. intros H. unfold round64. rewrite H. reflexivity. Qed.

(** A multiple of the unit in the last place below [y] is below the
    rounding of [y]. *)
Lemma round64_ge_multiple (y : Q) (k : Z) :
  Qeq_bool y 0 = false ->
  (inject_Z k * 2 ^ (ilog2 (Qabs y) - 52) <= y)%Q ->
  (inject_Z k * 2 ^ (ilog2 (Qabs y) - 52) <= round64 y)%Q.
Proof.
  intros Hy H. rewrite (round64_nonzero y Hy).
  set (u := (2 ^ (ilog2 (Qabs y) - 52))%Q) in *.
  assert (Hu : (0 < u)%Q) by apply pow2_pos.
  apply Qmult_le_compat_r; [|apply Qlt_le_weak; exact Hu].
  rewrite <- Zle_Qle. apply round_half_even_ge.
  apply Qle_shift_div_l; assumption.
Qed.

Lemma Qeq_bool_false (a b : Q) : Qeq_bool a b = false -> ~ (a == b)%Q.
Proof. intros H E. apply Qeq_bool_iff in E. congruence. Qed.

Lemma pow2_scale (e k : Z) :
  (0 <= k)%Z -> (inject_Z (2 ^ k) * 2 ^ (e - k) == 2 ^ e)%Q.
Proof.
  intros Hk. rewrite (pow2_Z k Hk), <- pow2_split. now replace (k + (e - k))%Z with e by ring.
Qed.

(** Rounding to nearest never crosses a binary64 number. *)
Lemma round64_above (a y : Q) :
  is_binary64 a = true -> (a <= y)%Q -> (a <= round64 y)%Q.
Proof.
  unfold is_binary64. intros Ha Hle. apply Qeq_bool_iff in Ha.
  destruct (Qeq_bool y 0) eqn:Ey.
  { unfold round64. rewrite Ey. apply Qeq_bool_iff in Ey. now rewrite <- Ey. }
  pose proof (Qeq_bool_false _ _ Ey) as Hy0.
  set (e := ilog2 (Qabs y)).
  set (u := (2 ^ (e - 52))%Q).
  assert (Hu : (0 < u)%Q) by apply pow2_pos.
  assert (Hvia : forall k : Z, (a <= inject_Z k * u)%Q -> (inject_Z k * u <= y)%Q ->
                               (a <= round64 y)%Q).
  { intros k H1 H2. eapply Qle_trans; [exact H1|].
    apply round64_ge_multiple; assumption. }
  assert (Hay : (0 < Qabs y)%Q).
  { destruct (Qlt_le_dec y 0) as [Hneg|Hpos].
    - rewrite (Qabs_neg y) by (now apply Qlt_le_weak). lra.
    - rewrite (Qabs_pos y) by assumption.
      apply Qle_lteq in Hpos as [H|H]; [exact H|]. exfalso. apply Hy0. now symmetry. }
  pose proof (ilog2_spec (Qabs y) Hay) as [Hy1 Hy2]. fold e in Hy1, Hy2.
  destruct (Qeq_bool a 0) eqn:Ea.
  { apply Qeq_bool_iff in Ea. apply (Hvia 0%Z); rewrite Qmult_0_l; lra. }
  pose proof (Qeq_bool_false _ _ Ea) as Ha0.
  rewrite (round64_nonzero a Ea) in Ha.
  set (ea := ilog2 (Qabs a)) in *.
  set (m := round_half_even (a / 2 ^ (ea - 52))) in *.
  assert (Haa : (0 < Qabs a)%Q).
  { destruct (Qlt_le_dec a 0) as [Hneg|Hpos].
    - rewrite (Qabs_neg a) by (now apply Qlt_le_weak). lra.
    - rewrite (Qabs_pos a) by assumption.
      apply Qle_lteq in Hpos as [H|H]; [exact H|]. exfalso. apply Ha0. now symmetry. }
  pose proof (ilog2_spec (Qabs a) Haa) as [Ha1 Ha2]. fold ea in Ha1, Ha2.
  destruct (Qlt_le_dec 0 y) as [Hypos|Hyneg].
  - (* y is positive *)
    rewrite (Qabs_pos y) in Hy1, Hy2 by (now apply Qlt_le_weak).
    destruct (Qlt_le_dec a 0) as [Haneg|Hapos].
    { apply (Hvia 0%Z); rewrite Qmult_0_l; lra. }
    rewrite (Qabs_pos a) in Ha1, Ha2 by assumption.
    assert (Hee : (ea <= e)%Z).
    { assert (H : (2 ^ ea < 2 ^ (e + 1))%Q) by lra. apply pow2_lt_inv in H. lia. }
    destruct (Z.eq_dec ea e) as [Heq|Hne].
    + apply (Hvia m); unfold u; rewrite <- Heq; rewrite Ha; [apply Qle_refl|exact Hle].
    + apply (Hvia (2 ^ 52)%Z); unfold u; rewrite (pow2_scale e 52) by lia.
      * assert (H : (2 ^ (ea + 1) <= 2 ^ e)%Q) by (apply pow2_le; lia). lra.
      * exact Hy1.
  - (* y is negative *)
    assert (Hyn : (y < 0)%Q).
    { apply Qle_lteq in Hyneg as [H|H]; [exact H|]. exfalso. now apply Hy0. }
    rewrite (Qabs_neg y) in Hy1, Hy2 by assumption.
    rewrite (Qabs_neg a) in Ha1, Ha2 by lra.
    assert (Hee : (e <= ea)%Z).
    { assert (H : (2 ^ e < 2 ^ (ea + 1))%Q) by lra. apply pow2_lt_inv in H. lia. }
    destruct (Z.eq_dec ea e) as [Heq|Hne].
    + apply (Hvia m); unfold u; rewrite <- Heq; rewrite Ha; [apply Qle_refl|exact Hle].
    + assert (Hk : (inject_Z (- 2 ^ 53) * u == - 2 ^ (e + 1))%Q).
      { unfold u. rewrite inject_Z_opp.
        setoid_replace (- inject_Z (2 ^ 53) * 2 ^ (e - 52))%Q
          with (- (inject_Z (2 ^ 53) * 2 ^ ((e + 1) - 53)))%Q.
        - now rewrite (pow2_scale (e + 1) 53) by lia.
        - replace (e + 1 - 53)%Z with (e - 52)%Z by ring. ring. }
      apply (Hvia (- 2 ^ 53)%Z); rewrite Hk.
      * assert (H : (2 ^ (e + 1) <= 2 ^ ea)%Q) by (apply pow2_le; lia). lra.
      * lra.
Qed.

Lemma float_gt_sum_false (a b c : Q) :
  (a <= b + c)%Q -> float_gt_sum a b c = false.
Proof.
  intros H. unfold float_gt_sum.
  destruct (is_binary64 a) eqn:Ea; cbn [andb]; [|now apply Qgtb_false].
  destruct (is_binary64 b && is_binary64 c); apply Qgtb_false; [|exact H].
  now apply round64_above.
Qed.

Lemma nonempty_true (s : string) : nonempty s = true <-> s <> EmptyString.
Proof. destruct s; simpl; split; congruence. Qed.

Lemma dest_path_of_local (self : FileSyncer) (rel : Path) :
  dest_type self = LOCAL ->
  dest_path_of self rel = os_path_join (destination self) rel.
Proof. intros H. unfold dest_path_of. now rewrite H. Qed.

Example fnmatch_star : fnmatch "a/b/notes.tmp" "*.tmp" = true.
Proof. reflexivity. Qed.

Example fnmatch_question :
  fnmatch "a.py" "?.py" = true /\ fnmatch "ab.py" "?.py" = false.
Proof. split; reflexivity. Qed.

Example fnmatch_set :
  fnmatch "f3.log" "f[0-9].log" = true /\ fnmatch "fx.log" "f[!0-9].log" = true /\
  fnmatch "f3.log" "f[!0-9].log" = false /\ fnmatch "[x" "[x" = true.
Proof. repeat split; reflexivity. Qed.

Example fnmatch_case_sensitive : fnmatch "A.TXT" "*.txt" = false.
Proof. reflexivity. Qed.

Example basename_samples :
  os_path_basename "a/b/c.txt" = "c.txt" /\ os_path_basename "c.txt" = "c.txt" /\
  os_path_basename "a/" = "".
Proof. repeat split; reflexivity. Qed.

(** Scenario A: [a.txt] is copied into the empty destination. *)
Example scenario_a :
  let o := run sample_digest (plain_syncer ONE_WAY) world_a in
  result o = true /\ copied (stats (final o)) = 1%Z /\
  fs_lookup ["dst"; "a.txt"] (local_fs (world (final o))) =
    fs_lookup ["src"; "a.txt"] (local_fs world_a).
Proof. repeat split; reflexivity. Qed.

(** Scenario D: the conflict on [shared.txt] is settled for the newer
    destination. *)
Example scenario_d :
  let o := run sample_digest (plain_syncer TWO_WAY) world_d in
  conflicts (stats (final o)) = 1%Z /\ updated (stats (final o)) = 0%Z.
Proof. split; reflexivity. Qed.

Lemma matches_any_true (filepath : string) (patterns : list string) :
  matches_any filepath patterns = true <->
  exists pattern, In pattern patterns /\
    (fnmatch filepath pattern = true \/
     fnmatch (os_path_basename filepath) pattern = true).
Proof.
  unfold matches_any. rewrite existsb_exists.
  split; intros [pat [Hin H]]; exists pat; split; auto.
  - now apply orb_true_iff in H.
  - now apply orb_true_iff.
Qed.

(* ================================================================= *)
(** ** The filter *)

(** C7.  For every relative path [p]: the filter answers [false] as soon as
    [p] or its base name matches an exclude pattern, whatever the include
    patterns are; with a non-empty include list it answers [true] only if
    [p] or its base name matches an include pattern; with an empty include
    list and no matching exclude pattern it answers [true]. *)
Theorem should_include_file_filter (self : FileSyncer) (p : string) :
  ((exists pattern, In pattern (exclude_patterns self) /\
      (fnmatch p pattern = true \/ fnmatch (os_path_basename p) pattern = true)) ->
   _should_include_file self p = false)
  /\
  (include_patterns self <> [] ->
   _should_include_file self p = true ->
   exists pattern, In pattern (include_patterns self) /\
      (fnmatch p pattern = true \/ fnmatch (os_path_basename p) pattern = true))
  /\
  (include_patterns self = [] ->
   (forall pattern, In pattern (exclude_patterns self) ->
      fnmatch p pattern = false /\ fnmatch (os_path_basename p) pattern = false) ->
   _should_include_file self p = true).
Proof.
  unfold _should_include_file. repeat split.
  - intros H. apply matches_any_true in H. now rewrite H.
  - intros Hne H.
    destruct (matches_any p (exclude_patterns self)); [discriminate|].
    destruct (include_patterns self) as [|i incl] eqn:E; [congruence|].
    now apply matches_any_true.
  - intros Hnil Hno.
    destruct (matches_any p (exclude_patterns self)) eqn:E.
    + apply matches_any_true in E as [pat [Hin [H|H]]];
        destruct (Hno pat Hin); congruence.
    + now rewrite Hnil.
Qed.

Lemma should_include_file_filter_witness :
  _should_include_file
    (with_patterns ["*.tmp"] ["*.py"] (plain_syncer ONE_WAY)) "build/x.tmp" = false
  /\
  (exists pattern, In pattern ["*.py"] /\
     (fnmatch "lib/m.py" pattern = true \/
      fnmatch (os_path_basename "lib/m.py") pattern = true))
  /\
  _should_include_file
    (with_patterns ["*.tmp"] [] (plain_syncer ONE_WAY)) "notes.txt" = true.
Proof.
  split; [|split].
  - apply (proj1 (should_include_file_filter
                    (with_patterns ["*.tmp"] ["*.py"] (plain_syncer ONE_WAY))
                    "build/x.tmp")).
    exists "*.tmp". split; [simpl; auto | left; reflexivity].
  - apply (proj1 (proj2 (should_include_file_filter
                    (with_patterns ["*.tmp"] ["*.py"] (plain_syncer ONE_WAY))
                    "lib/m.py"))).
    + simpl. discriminate.
    + reflexivity.
  - apply (proj2 (proj2 (should_include_file_filter
                    (with_patterns ["*.tmp"] [] (plain_syncer ONE_WAY))
                    "notes.txt"))).
    + reflexivity.
    + simpl. intros pattern [<-|[]]. split; reflexivity.
Defined.

(* ================================================================= *)
(** ** The comparator and the resolver *)

Section Comparator.

Variable md5_hexdigest : string -> string.
Variable self : FileSyncer.
Variable w : World.

(** C1.  Without a destination entry the comparator answers Copy.  With
    one: Update when the sizes differ; at equal sizes, with [use_timestamp]
    and without [use_checksum], Update exactly when the source time exceeds
    the destination time plus two seconds, else Skip; at equal sizes with
    [use_checksum], Update exactly when both digests are non-empty and
    differ, else Skip.  The sum is the one of the source, a sum of floats:
    for two binary64 times the source time is compared with the binary64
    number nearest to the destination time plus two.  Whatever the
    rounding, an Update by this rule is given only to a source time that
    exceeds the destination time by more than two seconds. *)
Theorem compare_files_classifies (source_file : FileInfo) (source_path dest_path : Path) :
  _compare_files md5_hexdigest self w source_file None source_path dest_path = COPY
  /\
  forall dest_file : FileInfo,
    let verdict :=
      _compare_files md5_hexdigest self w source_file (Some dest_file)
        source_path dest_path in
    (size source_file <> size dest_file -> verdict = UPDATE)
    /\
    (size source_file = size dest_file ->
     use_timestamp self = true -> use_checksum self = false ->
     (verdict = UPDATE <->
        float_gt_sum (mtime source_file) (mtime dest_file) 2 = true) /\
     (verdict = UPDATE -> (mtime dest_file + 2 < mtime source_file)%Q) /\
     (is_binary64 (mtime source_file) = true ->
      is_binary64 (mtime dest_file) = true ->
      (verdict = UPDATE <->
         (round64 (mtime dest_file + 2) < mtime source_file)%Q)) /\
     (verdict = UPDATE \/ verdict = SKIP))
    /\
    (size source_file = size dest_file ->
     use_checksum self = true ->
     (verdict = UPDATE <->
        source_checksum md5_hexdigest self w source_path <> EmptyString /\
        dest_checksum md5_hexdigest self w dest_path <> EmptyString /\
        source_checksum md5_hexdigest self w source_path <> dest_checksum md5_hexdigest self w dest_path) /\
     (verdict = UPDATE \/ verdict = SKIP)).
Proof.
  split; [reflexivity|].
  intros dest_file verdict. subst verdict. unfold _compare_files.
  fold (source_checksum md5_hexdigest self w source_path) (dest_checksum md5_hexdigest self w dest_path).
  split; [|split].
  - intros Hne. apply Z.eqb_neq in Hne. now rewrite Hne.
  - intros Hsz Hts Hcs.
    apply Z.eqb_eq in Hsz. rewrite Hsz, Hts, Hcs. simpl.
    assert (Hfl : is_binary64 (mtime source_file) = true ->
                  is_binary64 (mtime dest_file) = true ->
                  float_gt_sum (mtime source_file) (mtime dest_file) 2 =
                  Qgtb (mtime source_file) (round64 (mtime dest_file + 2))).
    { intros Hs Hd. unfold float_gt_sum. now rewrite Hs, Hd. }
    destruct (float_gt_sum (mtime source_file) (mtime dest_file) 2) eqn:E.
    + split; [tauto|]. split; [|split; [|auto]].
      * intros _. apply Qnot_le_lt. intro Hle.
        apply float_gt_sum_false in Hle. congruence.
      * intros Hs Hd. specialize (Hfl Hs Hd). symmetry in Hfl.
        apply Qgtb_true in Hfl. tauto.
    + split; [split; discriminate|]. split; [discriminate|]. split; [|auto].
      intros Hs Hd. specialize (Hfl Hs Hd). split; [discriminate|].
      intros Hlt. apply Qgtb_true in Hlt. congruence.
  - intros Hsz Hcs.
    apply Z.eqb_eq in Hsz. rewrite Hsz, Hcs. simpl.
    rewrite andb_false_r. simpl.
    destruct (nonempty (source_checksum md5_hexdigest self w source_path)) eqn:Es;
      destruct (nonempty (dest_checksum md5_hexdigest self w dest_path)) eqn:Ed;
      destruct (String.eqb (source_checksum md5_hexdigest self w source_path) (dest_checksum md5_hexdigest self w dest_path)) eqn:Ee;
      simpl; (split; [split|auto]).
    all: try discriminate.
    all: try (intros (Hs & Hd & Hne); try reflexivity; exfalso).
    all: try (apply nonempty_true in Hs; congruence).
    all: try (apply nonempty_true in Hd; congruence).
    all: try (apply String.eqb_eq in Ee; congruence).
    intros _. apply nonempty_true in Es. apply nonempty_true in Ed.
    apply String.eqb_neq in Ee. auto.
Qed.

(** C10.  With both switches off, a destination entry of equal size makes
    the comparator answer Skip, whatever the times and the contents are;
    and both switches are off on a command line that gives neither flag. *)
Theorem compare_files_size_only (source_file dest_file : FileInfo)
  (source_path dest_path : Path) :
  (use_timestamp self = false -> use_checksum self = false ->
   size source_file = size dest_file ->
   _compare_files md5_hexdigest self w source_file (Some dest_file)
     source_path dest_path = SKIP)
  /\
  init_use_timestamp (cli_options argparse_defaults) = false
  /\
  init_use_checksum (cli_options argparse_defaults) = false.
Proof.
  split; [|split; reflexivity].
  intros Hts Hcs Hsz. unfold _compare_files.
  apply Z.eqb_eq in Hsz. now rewrite Hsz, Hts, Hcs.
Qed.

(** C5.  The resolver answers Update when [force] is set; otherwise it
    answers Update exactly when the source time is strictly newer, and Skip
    when the times are equal or the destination is newer.  For a file in
    conflict, with [force] unset and a destination that is not older, the
    loop of [synchronize] records the path as skipped, counts the conflict
    and adds nothing to the updates or to the copies. *)
Theorem resolve_conflict_verdict (rel_path : Path) (source_file dest_file : FileInfo) :
  (force self = true ->
   _resolve_conflict self rel_path source_file dest_file = UPDATE)
  /\
  (force self = false ->
   (_resolve_conflict self rel_path source_file dest_file = UPDATE <->
      (mtime dest_file < mtime source_file)%Q) /\
   ((mtime source_file <= mtime dest_file)%Q ->
      _resolve_conflict self rel_path source_file dest_file = SKIP))
  /\
  (forall (conflict_list : list Path) (dest_files : Dict) (acc : Plan),
     force self = false ->
     (mtime source_file <= mtime dest_file)%Q ->
     is_dir source_file = false ->
     path_in rel_path conflict_list = true ->
     dict_get rel_path dest_files = Some dest_file ->
     let acc' := plan_entry md5_hexdigest self w conflict_list dest_files acc
                   (rel_path, source_file) in
     to_update acc' = to_update acc /\ to_copy acc' = to_copy acc /\
     skipped_paths acc' = skipped_paths acc ++ [rel_path] /\
     conflicts_counted acc' = (conflicts_counted acc + 1)%Z).
Proof.
  unfold _resolve_conflict. split; [|split].
  - intros ->. reflexivity.
  - intros ->. split; [split|].
    + destruct (Qgtb (mtime source_file) (mtime dest_file)) eqn:E; [|discriminate].
      intros _. now apply Qgtb_true.
    + intros H. apply Qgtb_true in H. now rewrite H.
    + intros H. apply Qgtb_false in H. now rewrite H.
  - intros conflict_list dest_files acc Hf Hle Hd Hin Hget.
    unfold plan_entry, _resolve_conflict.
    apply Qgtb_false in Hle. rewrite Hd, Hin, Hget, Hf, Hle. simpl.
    repeat split; reflexivity.
Qed.

End Comparator.

Lemma compare_files_classifies_witness :
  _compare_files sample_digest (with_compare true false (plain_syncer ONE_WAY))
    world_b info_src_new (Some info_dst_old) ["src"; "a.txt"] ["dst"; "a.txt"] = UPDATE
  /\
  _compare_files sample_digest (with_compare false true (plain_syncer ONE_WAY))
    world_b info_src_new (Some info_dst_old) ["src"; "a.txt"] ["dst"; "a.txt"] = UPDATE.
Proof.
  split.
  - apply (proj1 (proj1 (proj2 (proj2
        (compare_files_classifies sample_digest
           (with_compare true false (plain_syncer ONE_WAY)) world_b
           info_src_new ["src"; "a.txt"] ["dst"; "a.txt"]) info_dst_old))
        eq_refl eq_refl eq_refl)).
    reflexivity.
  - apply (proj1 (proj2 (proj2 (proj2
        (compare_files_classifies sample_digest
           (with_compare false true (plain_syncer ONE_WAY)) world_b
           info_src_new ["src"; "a.txt"] ["dst"; "a.txt"]) info_dst_old))
        eq_refl eq_refl)).
    vm_compute. repeat split; discriminate.
Defined.

(** The margin is a sum of floats.  The floats [2.1] and [0.1] lie more
    than two apart, but [0.1 + 2] is rounded to [2.1]: the comparator
    answers Skip, and the detector of TwoWay mode, whose difference
    [2.1 - 0.1] is rounded to [2.0], finds no conflict. *)
Example margin_is_a_float_sum :
  (mtime info_at_0_1 + 2 < mtime info_at_2_1)%Q /\
  is_binary64 (mtime info_at_2_1) = true /\
  is_binary64 (mtime info_at_0_1) = true /\
  (round64 (mtime info_at_0_1 + 2) == mtime info_at_2_1)%Q /\
  _compare_files sample_digest (with_compare true false (plain_syncer ONE_WAY))
    world_b info_at_2_1 (Some info_at_0_1) ["src"; "a.txt"] ["dst"; "a.txt"] = SKIP /\
  in_conflict sample_digest (plain_syncer TWO_WAY) world_b
    [(["a.txt"], info_at_0_1)] (["a.txt"], info_at_2_1) = false.
Proof. repeat split; vm_compute; reflexivity. Qed.

Lemma compare_files_size_only_witness :
  _compare_files sample_digest (plain_syncer ONE_WAY)
    world_b info_src_new (Some info_dst_old) ["src"; "a.txt"] ["dst"; "a.txt"] = SKIP.
Proof.
  apply (proj1 (compare_files_size_only sample_digest (plain_syncer ONE_WAY)
                  world_b info_src_new info_dst_old ["src"; "a.txt"] ["dst"; "a.txt"]));
    reflexivity.
Defined.

Lemma resolve_conflict_verdict_witness :
  _resolve_conflict (with_force true (plain_syncer TWO_WAY)) ["shared.txt"]
    info_src_old info_dst_new = UPDATE
  /\
  _resolve_conflict (plain_syncer TWO_WAY) ["shared.txt"]
    info_src_old info_dst_new = SKIP
  /\
  to_update
    (plan_entry sample_digest (plain_syncer TWO_WAY) world_b [["shared.txt"]]
       [(["shared.txt"], info_dst_new)] empty_plan
       (["shared.txt"], info_src_old)) = [].
Proof.
  split; [|split].
  - apply (proj1 (resolve_conflict_verdict sample_digest
                    (with_force true (plain_syncer TWO_WAY)) world_b
                    ["shared.txt"] info_src_old info_dst_new)).
    reflexivity.
  - apply (proj2 (proj1 (proj2 (resolve_conflict_verdict sample_digest
                    (plain_syncer TWO_WAY) world_b
                    ["shared.txt"] info_src_old info_dst_new)) eq_refl)).
    vm_compute. discriminate.
  - apply (proj1 (proj2 (proj2 (resolve_conflict_verdict sample_digest
                    (plain_syncer TWO_WAY) world_b
                    ["shared.txt"] info_src_old info_dst_new))
                    [["shared.txt"]] [(["shared.txt"], info_dst_new)] empty_plan
                    eq_refl
                    ltac:(vm_compute; discriminate)
                    eq_refl eq_refl eq_refl)).
Defined.

(* ================================================================= *)
(** ** The executor: what the three mutators do to the statistics *)

Section Executor.

Variable md5_hexdigest : string -> string.
Variable self : FileSyncer.

Lemma create_directory_stats (dirpath : Path) (t : PathType) (s : State) :
  (fst (_create_directory self dirpath t s) = true /\
   stats (snd (_create_directory self dirpath t s)) = stats s)
  \/
  (fst (_create_directory self dirpath t s) = false /\
   stats (snd (_create_directory self dirpath t s)) = add_error (stats s)).
Proof.
  unfold _create_directory.
  destruct (dry_run self); [left; auto|].
  destruct t; simpl.
  - destruct (os_makedirs _ _ _); simpl; auto.
  - destruct (sftp_mkdir_parts _ _ _ _); simpl; auto.
Qed.

Lemma copy_file_stats (src dst : Path) (ts td : PathType) (s : State) :
  (fst (_copy_file self src dst ts td s) = true /\
   exists n, stats (snd (_copy_file self src dst ts td s)) = add_bytes n (stats s))
  \/
  (fst (_copy_file self src dst ts td s) = false /\
   stats (snd (_copy_file self src dst ts td s)) = add_error (stats s)).
Proof.
  unfold _copy_file.
  destruct (dry_run self).
  { left. split; [reflexivity|]. exists 0%Z. simpl. destruct (stats s).
    unfold add_bytes. simpl. f_equal. lia. }
  set (made :=
         match os_path_dirname dst with
         | [] => (true, s)
         | _ :: _ =>
             if negb (_path_exists self (world s) (os_path_dirname dst) td)
             then _create_directory self (os_path_dirname dst) td s
             else (true, s)
         end).
  assert (Hmade : (fst made = true /\ stats (snd made) = stats s) \/
                  (fst made = false /\ stats (snd made) = add_error (stats s))).
  { subst made. destruct (os_path_dirname dst); [left; auto|].
    destruct (negb _); [apply create_directory_stats | left; auto]. }
  destruct made as [ok s1]. simpl in Hmade.
  destruct Hmade as [[-> Hs]|[-> Hs]]; simpl.
  - destruct (transfer _ _ _ _ _ _) as [[w3 n]|]; simpl.
    + left. split; [reflexivity|]. exists n. now rewrite Hs.
    + right. now rewrite Hs.
  - right. auto.
Qed.

Lemma delete_path_stats (p : Path) (t : PathType) (d : bool) (s : State) :
  (fst (_delete_path self p t d s) = true /\
   stats (snd (_delete_path self p t d s)) = stats s)
  \/
  (fst (_delete_path self p t d s) = false /\
   stats (snd (_delete_path self p t d s)) = add_error (stats s)).
Proof.
  unfold _delete_path.
  destruct (dry_run self); [left; auto|].
  destruct (remove_path _ _ _ _); simpl; auto.
Qed.

(** In a dry run the three mutators return [True] and change nothing. *)
Lemma create_directory_dry (dirpath : Path) (t : PathType) (s : State) :
  dry_run self = true -> _create_directory self dirpath t s = (true, s).
Proof. unfold _create_directory. now intros ->. Qed.

Lemma copy_file_dry (src dst : Path) (ts td : PathType) (s : State) :
  dry_run self = true -> _copy_file self src dst ts td s = (true, s).
Proof. unfold _copy_file. now intros ->. Qed.

Lemma delete_path_dry (p : Path) (t : PathType) (d : bool) (s : State) :
  dry_run self = true -> _delete_path self p t d s = (true, s).
Proof. unfold _delete_path. now intros ->. Qed.

Lemma advanced_refl (a : Stats) : advanced 0 0 0 a a.
Proof. unfold advanced. repeat split; lia. Qed.

Lemma advanced_trans (dc du dd dc' du' dd' : Z) (a b c : Stats) :
  advanced dc du dd a b -> advanced dc' du' dd' b c ->
  advanced (dc + dc') (du + du') (dd + dd') a c.
Proof.
  unfold advanced.
  intros (He & Hs & Hc & Hco & Hup & Hde & Heq)
         (He' & Hs' & Hc' & Hco' & Hup' & Hde' & Heq').
  repeat split; try lia; try congruence.
  all: intros E; assert (E1 : errors b = errors a) by lia;
    assert (E2 : errors c = errors b) by lia;
    destruct (Heq E1) as (? & ? & ?); destruct (Heq' E2) as (? & ? & ?); lia.
Qed.

Lemma advanced_step (dc du dd dc' du' dd' x y z : Z) (a b c : Stats) :
  advanced dc du dd a b -> advanced dc' du' dd' b c ->
  x = (dc + dc')%Z -> y = (du + du')%Z -> z = (dd + dd')%Z ->
  advanced x y z a c.
Proof. intros H1 H2 -> -> ->. eapply advanced_trans; eauto. Qed.

Lemma exec_dirs_advanced (l : list CopyItem) (s : State) :
  advanced (count_dirs l) 0 0 (stats s) (stats (exec_dirs self l s)).
Proof.
  unfold exec_dirs, count_dirs. revert s.
  induction l as [|[[sp dp] d] l IH]; intros s; simpl.
  - apply advanced_refl.
  - destruct d; simpl.
    + pose proof (create_directory_stats dp (dest_type self) s) as H.
      destruct (_create_directory self dp (dest_type self) s) as [ok s'].
      simpl in H.
      eapply (advanced_step 1 0 0);
        [|apply IH|lia|lia|lia].
      destruct H as [[-> Hs]|[-> Hs]]; simpl; rewrite ?Hs;
        unfold advanced, add_copied, add_error; simpl; repeat split; lia.
    + apply IH.
Qed.

Lemma exec_files_copied_advanced (l : list CopyItem) (s : State) :
  advanced (count_files l) 0 0 (stats s) (stats (exec_files self add_copied l s)).
Proof.
  unfold exec_files, count_files. revert s.
  induction l as [|[[sp dp] d] l IH]; intros s; simpl.
  - apply advanced_refl.
  - destruct d; simpl.
    + apply IH.
    + pose proof (copy_file_stats sp dp (source_type self) (dest_type self) s) as H.
      destruct (_copy_file self sp dp (source_type self) (dest_type self) s) as [ok s'].
      simpl in H.
      eapply (advanced_step 1 0 0);
        [|apply IH|lia|lia|lia].
      destruct H as [[-> [n Hs]]|[-> Hs]]; simpl; rewrite ?Hs;
        unfold advanced, add_copied, add_error, add_bytes; simpl; repeat split; lia.
Qed.

Lemma exec_files_updated_advanced (l : list CopyItem) (s : State) :
  advanced 0 (count_files l) 0 (stats s) (stats (exec_files self add_updated l s)).
Proof.
  unfold exec_files, count_files. revert s.
  induction l as [|[[sp dp] d] l IH]; intros s; simpl.
  - apply advanced_refl.
  - destruct d; simpl.
    + apply IH.
    + pose proof (copy_file_stats sp dp (source_type self) (dest_type self) s) as H.
      destruct (_copy_file self sp dp (source_type self) (dest_type self) s) as [ok s'].
      simpl in H.
      eapply (advanced_step 0 1 0);
        [|apply IH|lia|lia|lia].
      destruct H as [[-> [n Hs]]|[-> Hs]]; simpl; rewrite ?Hs;
        unfold advanced, add_updated, add_error, add_bytes; simpl; repeat split; lia.
Qed.

Lemma exec_deletes_advanced (l : list DeleteItem) (s : State) :
  advanced 0 0 (Z.of_nat (List.length l)) (stats s) (stats (exec_deletes self l s)).
Proof.
  unfold exec_deletes. revert s.
  induction l as [|[dp d] l IH]; intros s.
  - apply advanced_refl.
  - cbn [fold_left List.length].
    pose proof (delete_path_stats dp (dest_type self) d s) as H.
    destruct (_delete_path self dp (dest_type self) d s) as [ok s'].
    simpl in H.
    eapply (advanced_step 0 0 1);
      [|apply IH|lia|lia|lia].
    destruct H as [[-> Hs]|[-> Hs]]; simpl; rewrite ?Hs;
      unfold advanced, add_deleted, add_error; simpl; repeat split; lia.
Qed.

Lemma count_dirs_files (l : list CopyItem) :
  (count_dirs l + count_files l)%Z = Z.of_nat (List.length l).
Proof.
  unfold count_dirs, count_files.
  induction l as [|[[sp dp] d] l IH]; [reflexivity|].
  destruct d; cbn [filter snd negb List.length] in *; lia.
Qed.

(** The whole executor on a list of actions. *)
Lemma execute_advanced (p : Plan) (s : State) :
  exists st : Stats,
    stats (execute self p s) =
      set_skipped (Z.of_nat (List.length (skipped_paths p))) st /\
    advanced (Z.of_nat (List.length (to_copy p))) (count_files (to_update p))
      (Z.of_nat (List.length (to_delete p))) (stats s) st.
Proof.
  unfold execute.
  eexists. split; [reflexivity|].
  eapply advanced_step;
    [ eapply advanced_step;
      [ eapply advanced_step;
        [ apply exec_dirs_advanced | apply exec_files_copied_advanced
        | reflexivity | reflexivity | reflexivity ]
      | apply exec_files_updated_advanced | reflexivity | reflexivity | reflexivity ]
    | apply exec_deletes_advanced | | | ].
  - rewrite <- count_dirs_files. lia.
  - lia.
  - lia.
Qed.

(** A dry run leaves the world alone and adds no error. *)
Lemma exec_dirs_dry (l : list CopyItem) (s : State) :
  dry_run self = true ->
  world (exec_dirs self l s) = world s /\
  errors (stats (exec_dirs self l s)) = errors (stats s).
Proof.
  intros Hdry. unfold exec_dirs. revert s.
  induction l as [|[[sp dp] d] l IH]; intros s; simpl; [auto|].
  destruct d; [|apply IH].
  rewrite (create_directory_dry dp (dest_type self) s Hdry).
  destruct (IH (with_stats add_copied s)) as [Hw He].
  rewrite Hw, He. auto.
Qed.

Lemma exec_files_dry (bump : Stats -> Stats) (l : list CopyItem) (s : State) :
  dry_run self = true ->
  (forall st, errors (bump st) = errors st) ->
  world (exec_files self bump l s) = world s /\
  errors (stats (exec_files self bump l s)) = errors (stats s).
Proof.
  intros Hdry Hbump. unfold exec_files. revert s.
  induction l as [|[[sp dp] d] l IH]; intros s; simpl; [auto|].
  destruct d; [apply IH|]. simpl.
  rewrite (copy_file_dry sp dp (source_type self) (dest_type self) s Hdry).
  destruct (IH (with_stats bump s)) as [Hw He].
  rewrite Hw, He. simpl. auto.
Qed.

Lemma exec_deletes_dry (l : list DeleteItem) (s : State) :
  dry_run self = true ->
  world (exec_deletes self l s) = world s /\
  errors (stats (exec_deletes self l s)) = errors (stats s).
Proof.
  intros Hdry. unfold exec_deletes. revert s.
  induction l as [|[dp d] l IH]; intros s; [auto|].
  cbn [fold_left].
  rewrite (delete_path_dry dp (dest_type self) d s Hdry).
  destruct (IH (with_stats add_deleted s)) as [Hw He].
  rewrite Hw, He. auto.
Qed.

Lemma execute_dry (p : Plan) (s : State) :
  dry_run self = true ->
  world (execute self p s) = world s /\
  errors (stats (execute self p s)) = errors (stats s).
Proof.
  intros Hdry. unfold execute. simpl.
  destruct (exec_deletes_dry (to_delete p)
              (exec_files self add_updated (to_update p)
                 (exec_files self add_copied (to_copy p)
                    (exec_dirs self (to_copy p) s))) Hdry) as [W4 E4].
  destruct (exec_files_dry add_updated (to_update p)
              (exec_files self add_copied (to_copy p)
                 (exec_dirs self (to_copy p) s)) Hdry (fun st => eq_refl)) as [W3 E3].
  destruct (exec_files_dry add_copied (to_copy p)
              (exec_dirs self (to_copy p) s) Hdry (fun st => eq_refl)) as [W2 E2].
  destruct (exec_dirs_dry (to_copy p) s Hdry) as [W1 E1].
  split; congruence.
Qed.

Lemma check_paths_dry (s : State) :
  dry_run self = true -> fst (check_paths self s) = s.
Proof.
  intros Hdry. unfold check_paths.
  destruct (negb (_path_exists self (world s) (source self) (source_type self)));
    [reflexivity|].
  destruct (_ && _); [|reflexivity].
  now rewrite (create_directory_dry _ _ s Hdry).
Qed.

Lemma synchronize_dry_world (s : State) :
  dry_run self = true ->
  world (final (synchronize md5_hexdigest self s)) = world s.
Proof.
  intros Hdry. unfold synchronize.
  pose proof (check_paths_dry s Hdry) as Hc.
  destruct (check_paths self s) as [s1 ok]. simpl in Hc. subst s1.
  destruct ok; [|reflexivity].
  destruct (execute_dry (build_plan md5_hexdigest self (world s))
              (with_stats (add_conflicts
                 (conflicts_counted (build_plan md5_hexdigest self (world s)))) s)
              Hdry) as [Hw _].
  exact Hw.
Qed.

End Executor.

(* ================================================================= *)
(** ** Dry runs *)

Lemma execute_error_free_tallies (self : FileSyncer) (p : Plan) (s : State) :
  errors (stats (execute self p s)) = errors (stats s) ->
  copied (stats (execute self p s)) =
    (copied (stats s) + Z.of_nat (List.length (to_copy p)))%Z /\
  updated (stats (execute self p s)) =
    (updated (stats s) + count_files (to_update p))%Z /\
  deleted (stats (execute self p s)) =
    (deleted (stats s) + Z.of_nat (List.length (to_delete p)))%Z /\
  skipped (stats (execute self p s)) = Z.of_nat (List.length (skipped_paths p)).
Proof.
  destruct (execute_advanced self p s) as (st & Hst & Hadv).
  rewrite Hst. unfold set_skipped. simpl. intros He.
  destruct Hadv as (_ & _ & _ & _ & _ & _ & Heq).
  destruct (Heq He) as (? & ? & ?). auto.
Qed.

(** C3.  For any plan: carried out with [dry_run] set, it leaves the world
    (the local file system and both hosts) exactly as it was, and it ends
    with the same copied, updated, deleted and skipped tallies as the same
    plan carried out for real without an error.  A whole dry run of
    [synchronize] leaves the world as it was too; and when the destination
    is there before the run, or the mode is Mirror, the dry run and the
    real run build the same plan, so an error-free real run ends with the
    tallies of the dry run. *)
Theorem dry_run_same_tallies_no_change (md5_hexdigest : string -> string)
  (self : FileSyncer) (p : Plan) (s : State) :
  let dry := execute (set_dry_run true self) p s in
  let real := execute (set_dry_run false self) p s in
  let dry_sync := synchronize md5_hexdigest (set_dry_run true self) s in
  let real_sync := synchronize md5_hexdigest (set_dry_run false self) s in
  world dry = world s
  /\
  (errors (stats real) = errors (stats s) ->
   copied (stats dry) = copied (stats real) /\
   updated (stats dry) = updated (stats real) /\
   deleted (stats dry) = deleted (stats real) /\
   skipped (stats dry) = skipped (stats real))
  /\
  world (final dry_sync) = world s
  /\
  (_path_exists self (world s) (destination self) (dest_type self) = true \/
   sync_mode self = MIRROR ->
   planned dry_sync = planned real_sync /\
   (errors (stats (final real_sync)) = errors (stats s) ->
    copied (stats (final dry_sync)) = copied (stats (final real_sync)) /\
    updated (stats (final dry_sync)) = updated (stats (final real_sync)) /\
    deleted (stats (final dry_sync)) = deleted (stats (final real_sync)) /\
    skipped (stats (final dry_sync)) = skipped (stats (final real_sync)))).
Proof.
  intros dry real dry_sync real_sync.
  assert (Hdry : dry_run (set_dry_run true self) = true) by reflexivity.
  assert (Tallies : forall (q : Plan) (t : State),
            errors (stats (execute (set_dry_run false self) q t)) = errors (stats t) ->
            copied (stats (execute (set_dry_run true self) q t)) =
              copied (stats (execute (set_dry_run false self) q t)) /\
            updated (stats (execute (set_dry_run true self) q t)) =
              updated (stats (execute (set_dry_run false self) q t)) /\
            deleted (stats (execute (set_dry_run true self) q t)) =
              deleted (stats (execute (set_dry_run false self) q t)) /\
            skipped (stats (execute (set_dry_run true self) q t)) =
              skipped (stats (execute (set_dry_run false self) q t))).
  { intros q t He.
    destruct (@execute_dry (set_dry_run true self) q t Hdry) as [_ Hed].
    destruct (@execute_error_free_tallies _ q t Hed) as (A1 & A2 & A3 & A4).
    destruct (@execute_error_free_tallies _ q t He) as (B1 & B2 & B3 & B4).
    repeat split; congruence. }
  split; [|split; [|split]].
  - apply (@execute_dry (set_dry_run true self) p s Hdry).
  - apply Tallies.
  - apply synchronize_dry_world. reflexivity.
  - intros Hthere. subst dry_sync real_sync. unfold synchronize.
    assert (Hcp : check_paths (set_dry_run true self) s =
                  check_paths (set_dry_run false self) s).
    { unfold check_paths.
      change (_path_exists (set_dry_run true self)) with (_path_exists self).
      change (_path_exists (set_dry_run false self)) with (_path_exists self).
      cbn [source destination source_type dest_type sync_mode set_dry_run].
      destruct (negb (_path_exists self (world s) (source self) (source_type self)));
        [reflexivity|].
      destruct Hthere as [-> | ->]; [reflexivity|].
      now rewrite andb_false_r. }
    assert (Hs1 : forall b, fst (check_paths (set_dry_run b self) s) = s).
    { intros b. destruct b; [apply (@check_paths_dry (set_dry_run true self)); reflexivity|].
      rewrite <- Hcp. apply (@check_paths_dry (set_dry_run true self)); reflexivity. }
    pose proof (Hs1 false) as Hs1f. rewrite Hcp.
    destruct (check_paths (set_dry_run false self) s) as [s1 ok].
    simpl in Hs1f. subst s1.
    destruct ok; cbn [negb planned final]; [|auto].
    change (build_plan md5_hexdigest (set_dry_run true self))
      with (build_plan md5_hexdigest (set_dry_run false self)).
    split; [reflexivity|].
    intros He. apply Tallies. exact He.
Qed.

Lemma dry_run_same_tallies_no_change_witness :
  let p := build_plan sample_digest (plain_syncer ONE_WAY) world_a in
  let s := {| stats := fresh_stats; world := world_a |} in
  copied (stats (execute (set_dry_run true (plain_syncer ONE_WAY)) p s)) =
  copied (stats (execute (set_dry_run false (plain_syncer ONE_WAY)) p s))
  /\
  copied (stats (final (synchronize sample_digest
                          (set_dry_run true (plain_syncer ONE_WAY)) s))) =
  copied (stats (final (synchronize sample_digest
                          (set_dry_run false (plain_syncer ONE_WAY)) s))).
Proof.
  intros p s. split.
  - apply (proj1 (proj2 (dry_run_same_tallies_no_change sample_digest
                           (plain_syncer ONE_WAY) p s))).
    reflexivity.
  - apply (proj2 (proj2 (proj2 (proj2 (dry_run_same_tallies_no_change sample_digest
                           (plain_syncer ONE_WAY) p s)))
                   (or_introl eq_refl))).
    reflexivity.
Defined.

(* ================================================================= *)
(** ** The value [synchronize] returns *)

Lemma errors_nonneg_after_execute (self : FileSyncer) (p : Plan) (s : State) :
  (errors (stats s) <= errors (stats (execute self p s)))%Z.
Proof.
  destruct (execute_advanced self p s) as (st & Hst & Hadv).
  rewrite Hst. unfold set_skipped. simpl. apply Hadv.
Qed.

(** C4 (as the code has it).  A run of a fresh [FileSyncer] returns true
    exactly when the source path exists and the error counter is zero at
    the end.  A run that returns false either found no source path, and
    then it has counted no error and has changed nothing, or it ends with
    a positive error counter. *)
Theorem synchronize_success_rule (md5_hexdigest : string -> string)
  (self : FileSyncer) (w : World) :
  let o := run md5_hexdigest self w in
  (result o = true <->
     _path_exists self w (source self) (source_type self) = true /\
     errors (stats (final o)) = 0%Z)
  /\
  (result o = false ->
     (_path_exists self w (source self) (source_type self) = false /\
      errors (stats (final o)) = 0%Z /\ world (final o) = w)
     \/ (0 < errors (stats (final o)))%Z).
Proof.
  unfold run, synchronize, check_paths. cbn [world stats].
  destruct (_path_exists self w (source self) (source_type self)) eqn:Hsrc;
    cbn [negb].
  2:{ cbn. split; [split; [discriminate | intros [? _]; discriminate] | auto]. }
  set (s0 := {| stats := fresh_stats; world := w |}).
  destruct (negb (_path_exists self w (destination self) (dest_type self))
            && negb (SyncMode_eqb (sync_mode self) MIRROR)).
  - pose proof (create_directory_stats self (destination self) (dest_type self) s0) as H.
    destruct (_create_directory self (destination self) (dest_type self) s0) as [ok s1].
    simpl in H. destruct H as [[-> Hs]|[-> Hs]]; cbn [negb result final].
    + pose proof (errors_nonneg_after_execute self
                    (build_plan md5_hexdigest self (world s1))
                    (with_stats (add_conflicts (conflicts_counted
                       (build_plan md5_hexdigest self (world s1)))) s1)) as Hle.
      cbn [with_stats stats add_conflicts errors] in Hle. rewrite Hs in Hle.
      cbn [fresh_stats errors] in Hle.
      rewrite Z.eqb_eq. split; [tauto|].
      intros Hne. right. apply Z.eqb_neq in Hne. lia.
    + rewrite Hs. cbn. split; [split; [discriminate | intros [_ ?]; discriminate]|].
      intros _. right. lia.
  - cbn [negb result final].
    pose proof (errors_nonneg_after_execute self
                  (build_plan md5_hexdigest self (world s0))
                  (with_stats (add_conflicts (conflicts_counted
                     (build_plan md5_hexdigest self (world s0)))) s0)) as Hle.
    cbn [with_stats stats add_conflicts errors s0 fresh_stats] in Hle.
    rewrite Z.eqb_eq. split; [tauto|].
    intros Hne. right. apply Z.eqb_neq in Hne. subst s0. lia.
Qed.

Lemma synchronize_success_rule_witness :
  result (run sample_digest (plain_syncer ONE_WAY) world_a) = true
  /\
  ((_path_exists (plain_syncer ONE_WAY) world_no_source ["src"] LOCAL = false /\
    errors (stats (final (run sample_digest (plain_syncer ONE_WAY) world_no_source))) = 0%Z /\
    world (final (run sample_digest (plain_syncer ONE_WAY) world_no_source)) = world_no_source)
   \/ (0 < errors (stats (final (run sample_digest (plain_syncer ONE_WAY)
                                   world_no_source))))%Z).
Proof.
  split.
  - apply (proj1 (synchronize_success_rule sample_digest (plain_syncer ONE_WAY) world_a)).
    split; reflexivity.
  - apply (proj2 (synchronize_success_rule sample_digest (plain_syncer ONE_WAY)
                    world_no_source)).
    reflexivity.
Defined.

(** C4, the counterexample: without a source path the run returns false
    although its error counter is zero. *)
Lemma success_iff_no_error_fails :
  ~ success_iff_no_error sample_digest (plain_syncer ONE_WAY) world_no_source.
Proof.
  unfold success_iff_no_error. intros [_ H].
  specialize (H eq_refl). vm_compute in H. discriminate.
Qed.

(* ================================================================= *)
(** ** The shape of a run *)

(** A run of a fresh [FileSyncer] either stops at the two checks, having
    counted at most the one error of the destination it could not create,
    or builds its plan in the world the checks leave and carries it out. *)
Lemma run_outcome (md5_hexdigest : string -> string) (self : FileSyncer) (w : World) :
  let o := run md5_hexdigest self w in
  (planned o = None /\ result o = false /\
   (stats (final o) = fresh_stats \/ stats (final o) = add_error fresh_stats))
  \/
  (exists s1 : State,
     stats s1 = fresh_stats /\
     planned o = Some (build_plan md5_hexdigest self (world s1)) /\
     final o =
       execute self (build_plan md5_hexdigest self (world s1))
         (with_stats
            (add_conflicts (conflicts_counted (build_plan md5_hexdigest self (world s1))))
            s1)).
Proof.
  unfold run, synchronize, check_paths. cbn [world stats].
  set (s0 := {| stats := fresh_stats; world := w |}).
  destruct (negb (_path_exists self w (source self) (source_type self))).
  { left. cbn. auto. }
  destruct (negb (_path_exists self w (destination self) (dest_type self))
            && negb (SyncMode_eqb (sync_mode self) MIRROR)).
  - pose proof (create_directory_stats self (destination self) (dest_type self) s0) as H.
    destruct (_create_directory self (destination self) (dest_type self) s0) as [ok s1].
    simpl in H. destruct H as [[-> Hs]|[-> Hs]]; cbn [negb result final planned].
    + right. exists s1. auto.
    + left. auto.
  - right. exists s0. cbn. auto.
Qed.

(* ================================================================= *)
(** ** Deletions *)

(** C2 (as the code has it).  An entry is planned for deletion exactly when
    the mode is Mirror and it is an entry of the destination index whose
    relative path is absent from the filtered source index and passes the
    filter itself.  In the other two modes the plan holds no deletion, and
    the run ends with [deleted] at zero. *)
Theorem deletions_planned (md5_hexdigest : string -> string)
  (self : FileSyncer) (w : World) :
  (forall it : DeleteItem,
     In it (to_delete (build_plan md5_hexdigest self w)) <->
     sync_mode self = MIRROR /\
     exists (rel : Path) (d : FileInfo),
       In (rel, d) (dest_index self w) /\
       it = (full_path d, is_dir d) /\
       dict_contains rel (source_index self w) = false /\
       _should_include_file self (path_str rel) = true)
  /\
  (sync_mode self <> MIRROR ->
   to_delete (build_plan md5_hexdigest self w) = [] /\
   (forall p, planned (run md5_hexdigest self w) = Some p -> to_delete p = []) /\
   deleted (stats (final (run md5_hexdigest self w))) = 0%Z).
Proof.
  assert (Hnil : forall w', sync_mode self <> MIRROR ->
            to_delete (build_plan md5_hexdigest self w') = []).
  { intros w' Hm. unfold build_plan, set_to_delete, mirror_deletions. cbn.
    destruct (sync_mode self); congruence. }
  split.
  - intros it. unfold build_plan, set_to_delete, mirror_deletions.
    cbn [to_delete].
    destruct (sync_mode self) eqn:Hm.
    1,2: split; [intros [] | intros [? _]; discriminate].
    rewrite in_map_iff. split.
    + intros [[rel d] [Hit Hin]]. apply filter_In in Hin as [Hin Hf].
      apply andb_true_iff in Hf as [Ha Hi]. apply negb_true_iff in Ha.
      split; [reflexivity|]. exists rel, d. simpl in *. auto.
    + intros [_ (rel & d & Hin & -> & Ha & Hi)].
      exists (rel, d). split; [reflexivity|].
      apply filter_In. split; [assumption|]. simpl. now rewrite Ha, Hi.
  - intros Hm. split; [now apply Hnil|].
    destruct (run_outcome md5_hexdigest self w)
      as [(Hp & _ & Hs)|(s1 & Hs1 & Hp & Hf)].
    + split; [intros p; rewrite Hp; discriminate|].
      destruct Hs as [-> | ->]; reflexivity.
    + split.
      * intros p. rewrite Hp. intros [= <-]. now apply Hnil.
      * rewrite Hf.
        destruct (execute_advanced self (build_plan md5_hexdigest self (world s1))
                    (with_stats (add_conflicts (conflicts_counted
                       (build_plan md5_hexdigest self (world s1)))) s1))
          as (st & -> & Hadv).
        destruct Hadv as (_ & _ & _ & _ & _ & Hd & _).
        rewrite (Hnil (world s1) Hm) in Hd.
        cbn [with_stats stats add_conflicts deleted] in Hd.
        rewrite Hs1 in Hd. cbn in Hd. cbn. lia.
Qed.

Lemma deletions_planned_witness :
  In (["dst"; "old.txt"], false)
     (to_delete (build_plan sample_digest (plain_syncer MIRROR) world_old_in_dest))
  /\
  deleted (stats (final (run sample_digest (plain_syncer ONE_WAY) world_old_in_dest))) = 0%Z.
Proof.
  split.
  - apply (proj1 (deletions_planned sample_digest (plain_syncer MIRROR) world_old_in_dest)).
    split; [reflexivity|].
    exists ["old.txt"], (mk_info ["old.txt"] ["dst"; "old.txt"] (file_node "stale" 100)).
    repeat split. vm_compute. auto.
  - apply (proj2 (deletions_planned sample_digest (plain_syncer ONE_WAY) world_old_in_dest)).
    discriminate.
Defined.

(** C2, the counterexample: in Mirror mode with [*.tmp] excluded, the
    destination entry [cache.tmp] is absent from the filtered source index
    and yet no deletion is planned for it. *)
Lemma delete_iff_absent_fails :
  ~ delete_iff_absent sample_digest mirror_syncer_no_tmp world_tmp_in_dest.
Proof.
  unfold delete_iff_absent. intros H.
  specialize (H ["cache.tmp"]
                (mk_info ["cache.tmp"] ["dst"; "cache.tmp"] (file_node "scratch" 100))).
  assert (Hin : In (["cache.tmp"],
                    mk_info ["cache.tmp"] ["dst"; "cache.tmp"] (file_node "scratch" 100))
                   (dest_index mirror_syncer_no_tmp world_tmp_in_dest)).
  { vm_compute. auto. }
  destruct (H Hin) as [_ Hback].
  assert (Habs : In (["dst"; "cache.tmp"], false)
                    (to_delete (build_plan sample_digest mirror_syncer_no_tmp
                                  world_tmp_in_dest))).
  { apply Hback. split; reflexivity. }
  vm_compute in Habs. exact Habs.
Qed.

(* ================================================================= *)
(** ** Dictionaries *)

Lemma dict_set_keys (k : Path) (v : FileInfo) (d : Dict) :
  map fst (dict_set k v d) =
  if path_in k (map fst d) then map fst d else map fst d ++ [k].
Proof.
  unfold path_in.
  induction d as [|[q u] d IH]; simpl; [reflexivity|].
  rewrite (path_eqb_sym k q).
  destruct (path_eqb q k) eqn:E; simpl; [reflexivity|].
  rewrite IH. destruct (existsb (path_eqb k) (map fst d)); reflexivity.
Qed.

Lemma path_in_true (k : Path) (l : list Path) : path_in k l = true <-> In k l.
Proof.
  unfold path_in. rewrite existsb_exists. split.
  - intros [x [Hin He]]. apply path_eqb_eq in He. now subst.
  - intros Hin. exists k. split; [assumption | apply path_eqb_refl].
Qed.

Lemma path_in_false (k : Path) (l : list Path) : path_in k l = false <-> ~ In k l.
Proof.
  rewrite <- path_in_true. destruct (path_in k l); split; congruence.
Qed.

Lemma dict_set_NoDup (k : Path) (v : FileInfo) (d : Dict) :
  NoDup (map fst d) -> NoDup (map fst (dict_set k v d)).
Proof.
  intros Hnd. rewrite dict_set_keys.
  destruct (path_in k (map fst d)) eqn:E; [assumption|].
  apply path_in_false in E.
  apply NoDup_app; [assumption | constructor; [intros [] | constructor] |].
  intros x Hx [<-|[]]. contradiction.
Qed.

Lemma dict_fold_NoDup (files : list FileInfo) (d : Dict) :
  NoDup (map fst d) ->
  NoDup (map fst (fold_left (fun d f => dict_set (path f) f d) files d)).
Proof.
  revert d. induction files as [|f files IH]; intros d Hnd; simpl; [assumption|].
  apply IH. now apply dict_set_NoDup.
Qed.

(** The keys of a dictionary are pairwise different. *)
Lemma dict_of_list_NoDup (files : list FileInfo) :
  NoDup (map fst (dict_of_list files)).
Proof. apply dict_fold_NoDup. constructor. Qed.

Lemma dict_get_Some_In (k : Path) (v : FileInfo) (d : Dict) :
  dict_get k d = Some v -> In (k, v) d.
Proof.
  induction d as [|[q u] d IH]; simpl; [discriminate|].
  destruct (path_eqb q k) eqn:E.
  - intros [= ->]. apply path_eqb_eq in E. subst. now left.
  - intros H. right. now apply IH.
Qed.

Lemma dict_get_In (k : Path) (v : FileInfo) (d : Dict) :
  NoDup (map fst d) -> In (k, v) d -> dict_get k d = Some v.
Proof.
  induction d as [|[q u] d IH]; simpl; [intros _ []|].
  intros Hnd [Heq|Hin].
  - injection Heq as -> ->. now rewrite path_eqb_refl.
  - inversion Hnd as [|x l Hnotin Hnd']; subst.
    destruct (path_eqb q k) eqn:E.
    + apply path_eqb_eq in E. subst. exfalso. apply Hnotin.
      apply in_map_iff. now exists (k, v).
    + now apply IH.
Qed.

Lemma NoDup_keys_filter (f : Path * FileInfo -> bool) (d : Dict) :
  NoDup (map fst d) -> NoDup (map fst (filter f d)).
Proof.
  induction d as [|e d IH]; simpl; [auto|].
  intros Hnd. inversion Hnd as [|x l Hnotin Hnd']; subst.
  destruct (f e); simpl; [|auto].
  constructor; [|auto].
  intros Hin. apply Hnotin. apply in_map_iff in Hin as [e' [He' Hin']].
  apply filter_In in Hin' as [Hin' _]. apply in_map_iff. now exists e'.
Qed.

Lemma filter_andb_length (A : Type) (f g : A -> bool) (l : list A) :
  List.length (filter (fun x => f x && g x) l) = List.length (filter g (filter f l)).
Proof.
  induction l as [|x l IH]; simpl; [reflexivity|].
  destruct (f x); simpl; [|assumption].
  destruct (g x); simpl; congruence.
Qed.

Lemma filter_map_length (A B : Type) (g : A -> B) (f : B -> bool) (l : list A) :
  List.length (filter f (map g l)) = List.length (filter (fun x => f (g x)) l).
Proof.
  induction l as [|x l IH]; simpl; [reflexivity|].
  destruct (f (g x)); simpl; congruence.
Qed.

(* ================================================================= *)
(** ** Conflicts and the [conflicts] statistic *)

Section Conflicts.

Variable md5_hexdigest : string -> string.
Variable self : FileSyncer.
Variable w : World.

Lemma route_conflicts_counted (acc : Plan) (a : FileAction) (it : CopyItem)
  (rel : Path) :
  conflicts_counted (route acc a it rel) = conflicts_counted acc.
Proof. destruct a; reflexivity. Qed.

Lemma plan_entry_conflicts_counted (conflict_list : list Path) (dest_files : Dict)
  (acc : Plan) (item : Path * FileInfo) :
  conflicts_counted (plan_entry md5_hexdigest self w conflict_list dest_files acc item) =
  (conflicts_counted acc +
   (if counts_conflict self conflict_list dest_files item then 1 else 0))%Z.
Proof.
  destruct item as [rel sf]. unfold plan_entry, counts_conflict. cbn [fst snd].
  destruct (is_dir sf); cbn [negb andb].
  { destruct (dict_get rel dest_files); cbn; lia. }
  destruct (path_in rel conflict_list); cbn [andb].
  - destruct (dict_get rel dest_files) as [d|]; [|lia].
    destruct (_resolve_conflict self rel sf d) eqn:E; cbn [is_SKIP];
      rewrite ?route_conflicts_counted; cbn; lia.
  - rewrite route_conflicts_counted. lia.
Qed.

Lemma plan_fold_conflicts_counted (conflict_list : list Path) (dest_files : Dict)
  (items : Dict) (acc : Plan) :
  conflicts_counted
    (fold_left (plan_entry md5_hexdigest self w conflict_list dest_files) items acc) =
  (conflicts_counted acc +
   Z.of_nat (List.length (filter (counts_conflict self conflict_list dest_files) items)))%Z.
Proof.
  revert acc. induction items as [|item items IH]; intros acc.
  - cbn. lia.
  - cbn [fold_left filter]. rewrite IH, plan_entry_conflicts_counted.
    destruct (counts_conflict self conflict_list dest_files item); cbn [List.length]; lia.
Qed.

Lemma in_conflict_is_file (dest_files : Dict) (item : Path * FileInfo) :
  in_conflict md5_hexdigest self w dest_files item = true ->
  is_dir (snd item) = false /\ exists d, dict_get (fst item) dest_files = Some d.
Proof.
  destruct item as [rel sf]. unfold in_conflict. cbn [fst snd].
  destruct (dict_get rel dest_files) as [d|]; [|discriminate].
  destruct (is_dir sf); [discriminate|]. intros _. split; [reflexivity|eauto].
Qed.

Lemma NoDup_keys_functional (d : Dict) (k : Path) (v v' : FileInfo) :
  NoDup (map fst d) -> In (k, v) d -> In (k, v') d -> v = v'.
Proof.
  intros Hnd H1 H2.
  apply (@dict_get_In _ _ _ Hnd) in H1. apply (@dict_get_In _ _ _ Hnd) in H2. congruence.
Qed.

(** For an item of the source index, being in the list of conflicts is the
    same as passing the detector's test. *)
Lemma path_in_detected (source_files dest_files : Dict) (item : Path * FileInfo) :
  NoDup (map fst source_files) -> In item source_files ->
  path_in (fst item)
    (map fst (filter (in_conflict md5_hexdigest self w dest_files) source_files)) =
  in_conflict md5_hexdigest self w dest_files item.
Proof.
  intros Hnd Hin. destruct item as [rel sf]. cbn [fst].
  destruct (in_conflict md5_hexdigest self w dest_files (rel, sf)) eqn:E.
  - apply path_in_true. apply in_map_iff. exists (rel, sf). split; [reflexivity|].
    apply filter_In. auto.
  - apply path_in_false. intros H. apply in_map_iff in H as [[rel' sf'] [Hk Hf]].
    cbn in Hk. subst rel'. apply filter_In in Hf as [Hin' E'].
    rewrite (@NoDup_keys_functional _ _ _ _ Hnd Hin Hin') in E. congruence.
Qed.

(** The number the planning loop adds to [stats["conflicts"]]: the
    detected conflicts that the resolver settles with Skip. *)
Lemma build_plan_conflicts_counted :
  conflicts_counted (build_plan md5_hexdigest self w) =
  Z.of_nat
    (List.length
       (filter (resolves_to_skip self (source_index self w) (dest_index self w))
          (_detect_conflicts md5_hexdigest self w
             (source_index self w) (dest_index self w)))).
Proof.
  unfold build_plan. cbn [set_to_delete conflicts_counted].
  rewrite plan_fold_conflicts_counted. cbn [empty_plan conflicts_counted].
  rewrite Z.add_0_l. f_equal.
  set (sf := source_index self w). set (df := dest_index self w).
  assert (Hnd : NoDup (map fst sf)) by apply dict_of_list_NoDup.
  unfold _detect_conflicts.
  destruct (negb (SyncMode_eqb (sync_mode self) TWO_WAY)).
  - cbn [filter List.length].
    rewrite (filter_ext_in (counts_conflict self [] df) (fun _ => false)).
    + clear. induction sf; cbn; auto.
    + intros item _. unfold counts_conflict. cbn. now rewrite andb_false_r.
  - rewrite filter_map_length.
    rewrite (filter_ext_in (counts_conflict self (map fst (filter (in_conflict md5_hexdigest self w df) sf)) df)
               (fun item => in_conflict md5_hexdigest self w df item &&
                            resolves_to_skip self sf df (fst item))).
    + rewrite filter_andb_length. reflexivity.
    + intros [rel s] Hin. unfold counts_conflict.
      rewrite (@path_in_detected sf df (rel, s) Hnd Hin). cbn [fst snd].
      unfold resolves_to_skip. rewrite (@dict_get_In _ _ _ Hnd Hin).
      destruct (in_conflict md5_hexdigest self w df (rel, s)) eqn:E.
      * destruct (@in_conflict_is_file _ _ E) as [Hd _]. cbn in Hd. rewrite Hd.
        reflexivity.
      * now rewrite andb_false_r.
Qed.

Lemma detected_conflicts_NoDup :
  NoDup (_detect_conflicts md5_hexdigest self w
           (source_index self w) (dest_index self w)).
Proof.
  unfold _detect_conflicts.
  destruct (negb _); [constructor|].
  apply NoDup_keys_filter. apply dict_of_list_NoDup.
Qed.

(** A path in conflict is a key of the destination index: the branch of
    [plan_entry] without a destination entry is never taken. *)
Lemma detected_conflict_has_dest (rel : Path) :
  In rel (_detect_conflicts md5_hexdigest self w
            (source_index self w) (dest_index self w)) ->
  exists d, dict_get rel (dest_index self w) = Some d.
Proof.
  unfold _detect_conflicts. destruct (negb _); [intros []|].
  intros H. apply in_map_iff in H as [[rel' s] [<- Hf]].
  apply filter_In in Hf as [_ E].
  now destruct (@in_conflict_is_file _ _ E).
Qed.

End Conflicts.

Lemma check_paths_stats (self : FileSyncer) (s : State) :
  (snd (check_paths self s) = true /\ stats (fst (check_paths self s)) = stats s)
  \/
  (snd (check_paths self s) = false /\
   (stats (fst (check_paths self s)) = stats s \/
    stats (fst (check_paths self s)) = add_error (stats s))).
Proof.
  unfold check_paths.
  destruct (negb (_path_exists self (world s) (source self) (source_type self)));
    [right; auto|].
  destruct (_ && _); [|left; auto].
  pose proof (create_directory_stats self (destination self) (dest_type self) s) as H.
  destruct (_create_directory self (destination self) (dest_type self) s) as [ok s1].
  simpl in *. destruct H as [[-> Hs]|[-> Hs]]; auto.
Qed.

Lemma execute_keeps_conflicts (self : FileSyncer) (p : Plan) (s : State) :
  conflicts (stats (execute self p s)) = conflicts (stats s).
Proof.
  destruct (execute_advanced self p s) as (st & -> & Hadv).
  unfold set_skipped. cbn. apply Hadv.
Qed.

(** C6 (as the code has it).  The detector lists every path once.  At the
    end of a run that got as far as planning, the conflicts statistic is
    the number of detected conflicts that the resolver settled with Skip;
    a conflict settled with Update goes to the updates and is not counted.
    A run that stops at the checks leaves the statistic at zero. *)
Theorem conflicts_statistic (md5_hexdigest : string -> string)
  (self : FileSyncer) (w : World) :
  let o := run md5_hexdigest self w in
  let w' := planning_world self w in
  let detected :=
    _detect_conflicts md5_hexdigest self w' (source_index self w') (dest_index self w') in
  NoDup detected
  /\
  (planned o = None -> conflicts (stats (final o)) = 0%Z)
  /\
  (forall p : Plan, planned o = Some p ->
     p = build_plan md5_hexdigest self w' /\
     conflicts (stats (final o)) =
       Z.of_nat
         (List.length
            (filter (resolves_to_skip self (source_index self w') (dest_index self w'))
               detected))).
Proof.
  intros o w' detected. split; [apply detected_conflicts_NoDup|].
  subst o w' detected. unfold run, synchronize, planning_world.
  set (s0 := {| stats := fresh_stats; world := w |}).
  pose proof (check_paths_stats self s0) as Hcp.
  destruct (check_paths self s0) as [s1 ok]. cbn [fst snd] in *.
  destruct Hcp as [[-> Hs]|[-> Hs]]; cbn [negb planned final].
  - split; [discriminate|].
    intros p [= <-]. split; [reflexivity|].
    rewrite execute_keeps_conflicts. cbn [with_stats stats add_conflicts conflicts].
    rewrite Hs. cbn [s0 stats fresh_stats conflicts]. rewrite Z.add_0_l.
    apply build_plan_conflicts_counted.
  - split; [|discriminate].
    intros _. destruct Hs as [-> | ->]; reflexivity.
Qed.

Lemma conflicts_statistic_witness :
  conflicts (stats (final (run sample_digest (plain_syncer TWO_WAY) world_d))) = 1%Z
  /\
  conflicts (stats (final (run sample_digest (plain_syncer ONE_WAY) world_no_source))) = 0%Z.
Proof.
  split.
  - destruct (proj2 (proj2 (conflicts_statistic sample_digest (plain_syncer TWO_WAY) world_d))
                _ eq_refl) as [_ H].
    rewrite H. reflexivity.
  - apply (proj1 (proj2 (conflicts_statistic sample_digest (plain_syncer ONE_WAY)
                           world_no_source))).
    reflexivity.
Defined.

(** C6, the counterexample: with [force] set the conflict on [shared.txt]
    is detected and settled with Update, and the statistic stays at zero. *)
Lemma conflicts_all_counted_fails :
  ~ conflicts_all_counted sample_digest (with_force true (plain_syncer TWO_WAY)) world_d.
Proof.
  unfold conflicts_all_counted. vm_compute. discriminate.
Qed.

(* ================================================================= *)
(** ** The scanner *)

Lemma walk_from_prefix (all : Store) (directory : Path) (st : Store) :
  walk_from all directory st =
  (map info_of
     (take_while stat_ok
        (filter (fun e : Path * Path * Node => walk_reaches all directory (fst (fst e)))
           (entries_below directory st))),
   negb (forallb stat_ok
           (filter (fun e : Path * Path * Node => walk_reaches all directory (fst (fst e)))
              (entries_below directory st)))).
Proof.
  induction st as [|[p n] st IH]; [reflexivity|].
  cbn [walk_from entries_below flat_map fst snd].
  destruct (os_path_relpath p directory) as [[|seg rel]|]; cbn [app]; try exact IH.
  fold (entries_below directory st). cbn [filter fst snd].
  destruct (walk_reaches all directory (seg :: rel)); cbn [negb]; [|exact IH].
  cbn [take_while forallb].
  change (stat_ok (seg :: rel, p, n)) with (negb (is_KDangling (n_kind n))).
  destruct (is_KDangling (n_kind n)); cbn [negb map andb]; [reflexivity|].
  rewrite IH. reflexivity.
Qed.

Lemma walk_entries_prefix (directory : Path) (st : Store) :
  walk_entries directory st =
  (map info_of (take_while stat_ok (visited_below directory st)),
   negb (forallb stat_ok (visited_below directory st))).
Proof. apply walk_from_prefix. Qed.

Lemma visited_below_In (directory : Path) (st : Store) (e : Path * Path * Node) :
  In e (visited_below directory st) -> In e (entries_below directory st).
Proof. unfold visited_below. intro H. now apply filter_In in H. Qed.

(** When the scan reads every entry, the walk comes to all of them and
    [os.stat] succeeds on each. *)
Lemma scan_reads_all (directory : Path) (st : Store) :
  forallb (scan_reads st directory) (entries_below directory st) = true ->
  visited_below directory st = entries_below directory st /\
  forallb stat_ok (entries_below directory st) = true.
Proof.
  unfold visited_below. generalize (entries_below directory st) as l.
  induction l as [|e l IH]; [now split|].
  cbn [forallb filter]. intro H. apply andb_true_iff in H. destruct H as [He Hl].
  unfold scan_reads in He. apply andb_true_iff in He. destruct He as [Hr Hs].
  destruct (IH Hl) as [E1 E2]. rewrite Hr, Hs, E1, E2. now split.
Qed.

(** The remote scan never yields an entry: on the first item of a listing
    the evaluation of [stat.S_ISDIR] raises, the handler logs the error
    and returns the empty list. *)
Lemma list_remote_dir_yields_nothing (fuel : nat) (st : Store)
  (remote_dir base_dir : Path) :
  fst (list_remote_dir fuel st remote_dir base_dir) = [].
Proof.
  destruct fuel as [|fuel]; [reflexivity|]. cbn [list_remote_dir].
  destruct (sftp_listdir_attr st remote_dir) as [items|]; [|reflexivity].
  destruct items as [|item items]; [reflexivity|]. cbn [fold_left].
  assert (Hnone : forall l : Store,
            fold_left
              (fun (acc : option (list FileInfo * list Path)) (item0 : Path * Node) =>
                 match acc with
                 | None => None
                 | Some (res, logged) =>
                     match os_path_relpath (fst item0) base_dir,
                           S_ISDIR_in_closure (snd item0) with
                     | Some rel_path, Some true =>
                         let '(sub, sublogged) :=
                           list_remote_dir fuel st (fst item0) base_dir in
                         Some (res ++ mk_info rel_path (fst item0)
                                        (new_dir (n_mtime (snd item0))) :: sub,
                               logged ++ sublogged)
                     | Some rel_path, Some false =>
                         Some (res ++ [mk_info rel_path (fst item0) (snd item0)], logged)
                     | _, _ => None
                     end
                 end) l None = None).
  { induction l; cbn; auto. }
  unfold S_ISDIR_in_closure at 1.
  destruct (os_path_relpath (fst item) base_dir); rewrite Hnone; reflexivity.
Qed.

Lemma remote_scan_yields_nothing (self : FileSyncer) (w : World) (directory : Path) :
  _list_files self w directory REMOTE = [].
Proof. unfold _list_files, list_files_logged. apply list_remote_dir_yields_nothing. Qed.

Lemma dry_run_counts_no_error (md5_hexdigest : string -> string)
  (self : FileSyncer) (w : World) :
  dry_run self = true ->
  errors (stats (final (run md5_hexdigest self w))) = 0%Z.
Proof.
  intros Hdry. unfold run, synchronize.
  set (s0 := {| stats := fresh_stats; world := w |}).
  pose proof (@check_paths_dry self s0 Hdry) as Hc.
  destruct (check_paths self s0) as [s1 ok]. cbn in Hc. subst s1.
  destruct ok; cbn [negb final]; [|reflexivity].
  destruct (@execute_dry self (build_plan md5_hexdigest self (world s0))
              (with_stats (add_conflicts (conflicts_counted
                 (build_plan md5_hexdigest self (world s0)))) s0) Hdry) as [_ He].
  rewrite He. reflexivity.
Qed.

Lemma visited_below_unlistable (directory : Path) (st : Store) :
  listable st directory = false -> visited_below directory st = [].
Proof.
  intro H. unfold visited_below. generalize st at 2 as l.
  induction l as [|[p n] l IH]; [reflexivity|].
  cbn [entries_below flat_map fst snd].
  destruct (os_path_relpath p directory) as [[|seg rel]|]; cbn [app]; try exact IH.
  fold (entries_below directory l). cbn [filter fst snd walk_reaches].
  rewrite H. cbn [andb]. exact IH.
Qed.

(** C8 (as the code has it).  A scan of a local directory raises nothing
    to its caller.  The walk passes over a directory that cannot be
    listed, in silence: the entries below it are left out and nothing is
    logged for them; when the scanned directory itself cannot be listed,
    the scan returns nothing and logs nothing.  Of the entries the walk
    comes to, the scan returns those met before the first one on which
    [os.stat] fails, in walk order; that entry and every entry after it
    are left out.  It logs one error when there is such an entry and none
    otherwise.  What it returns is the list alone: no count of failures
    comes with it, and none reaches the error counter, which a dry run
    leaves at zero whatever its scans met. *)
Theorem local_scan_partial_result (md5_hexdigest : string -> string)
  (self : FileSyncer) (w : World) (directory : Path) :
  os_path_isdir (local_fs w) directory = true ->
  let entries := visited_below directory (local_fs w) in
  _list_files self w directory LOCAL = map info_of (take_while stat_ok entries)
  /\
  snd (list_files_logged self w directory LOCAL) =
    (if forallb stat_ok entries then [] else [directory])
  /\
  (forallb stat_ok entries = true ->
   _list_files self w directory LOCAL = map info_of entries)
  /\
  (forall e : Path * Path * Node,
     In e entries <->
     In e (entries_below directory (local_fs w)) /\
     walk_reaches (local_fs w) directory (fst (fst e)) = true)
  /\
  (listable (local_fs w) directory = false ->
   list_files_logged self w directory LOCAL = ([], []))
  /\
  (dry_run self = true ->
   errors (stats (final (run md5_hexdigest self w))) = 0%Z).
Proof.
  intros Hdir entries. unfold _list_files, list_files_logged. rewrite Hdir.
  rewrite walk_entries_prefix. fold entries. cbn [fst snd].
  split; [reflexivity|]. split; [|split; [|split; [|split]]].
  - destruct (forallb stat_ok entries); reflexivity.
  - intros Hall. f_equal. clear - Hall.
    induction entries as [|e l IH]; [reflexivity|].
    cbn in *. apply andb_true_iff in Hall as [-> Hl]. now rewrite IH.
  - intro e. unfold entries, visited_below. apply filter_In.
  - intro Hl. unfold entries. rewrite (visited_below_unlistable _ _ Hl). reflexivity.
  - apply dry_run_counts_no_error.
Qed.

Lemma local_scan_partial_result_witness :
  _list_files (plain_syncer ONE_WAY) world_broken_link ["src"] LOCAL =
    [mk_info ["a.txt"] ["src"; "a.txt"] (file_node "first" 100)]
  /\
  snd (list_files_logged (plain_syncer ONE_WAY) world_broken_link ["src"] LOCAL) = [["src"]]
  /\
  list_files_logged (plain_syncer ONE_WAY) world_locked_dir ["src"] LOCAL =
    ([mk_info ["a.txt"] ["src"; "a.txt"] (file_node "first" 100);
      mk_info ["locked"] ["src"; "locked"] locked_dir_node], [])
  /\
  errors (stats (final (run sample_digest (set_dry_run true (plain_syncer ONE_WAY))
                          world_broken_link))) = 0%Z.
Proof.
  pose proof (local_scan_partial_result sample_digest (plain_syncer ONE_WAY)
                world_broken_link ["src"] eq_refl) as (H1 & H2 & _).
  pose proof (local_scan_partial_result sample_digest (plain_syncer ONE_WAY)
                world_locked_dir ["src"] eq_refl) as (L1 & L2 & _).
  pose proof (local_scan_partial_result sample_digest
                (set_dry_run true (plain_syncer ONE_WAY))
                world_broken_link ["src"] eq_refl) as (_ & _ & _ & _ & _ & H4).
  split; [|split; [|split]].
  - rewrite H1. reflexivity.
  - rewrite H2. reflexivity.
  - rewrite (surjective_pairing (list_files_logged _ _ _ _)).
    unfold _list_files in L1. rewrite L1, L2. reflexivity.
  - apply H4. reflexivity.
Defined.

(** C8, the counterexample: [c.txt] can be read, but it comes after the
    dangling link in the walk and the scan does not return it. *)
Lemma scan_omits_only_failures_fails :
  ~ scan_omits_only_failures (plain_syncer ONE_WAY) world_broken_link ["src"].
Proof.
  unfold scan_omits_only_failures. intros H.
  specialize (H (["c.txt"], ["src"; "c.txt"], file_node "third" 100)).
  assert (Hin : In (["c.txt"], ["src"; "c.txt"], file_node "third" 100)
                   (entries_below ["src"] (local_fs world_broken_link))).
  { vm_compute. auto. }
  specialize (H Hin eq_refl). vm_compute in H.
  destruct H as [H|[]]. discriminate.
Qed.

(* ================================================================= *)
(** ** Paths and stores *)

Lemma relpath_app (d r : Path) : os_path_relpath (d ++ r) d = Some r.
Proof.
  induction d as [|x d IH]; simpl; [reflexivity|].
  now rewrite String.eqb_refl.
Qed.

Lemma relpath_Some (p d r : Path) : os_path_relpath p d = Some r -> p = d ++ r.
Proof.
  revert p. induction d as [|x d IH]; intros p; simpl.
  - now intros [= ->].
  - destruct p as [|y p]; [discriminate|].
    destruct (String.eqb x y) eqn:E; [|discriminate].
    apply String.eqb_eq in E. subst. intros H. f_equal. now apply IH.
Qed.

Lemma prefixb_true (a b : Path) : prefixb a b = true <-> exists r, b = a ++ r.
Proof.
  unfold prefixb. split.
  - destruct (os_path_relpath b a) as [r|] eqn:E; [|discriminate].
    intros _. exists r. now apply relpath_Some.
  - intros [r ->]. now rewrite relpath_app.
Qed.

Lemma prefixb_refl (a : Path) : prefixb a a = true.
Proof. apply prefixb_true. exists []. now rewrite app_nil_r. Qed.

Lemma prefixb_app (a r : Path) : prefixb a (a ++ r) = true.
Proof. apply prefixb_true. now exists r. Qed.

Lemma prefixb_trans (a b c : Path) :
  prefixb a b = true -> prefixb b c = true -> prefixb a c = true.
Proof.
  rewrite !prefixb_true. intros [r ->] [r' ->]. exists (r ++ r').
  now rewrite app_assoc.
Qed.

(** Two ancestors of one path are comparable. *)
Lemma prefixes_comparable (a b c : Path) :
  prefixb a c = true -> prefixb b c = true ->
  prefixb a b = true \/ prefixb b a = true.
Proof.
  rewrite !prefixb_true. intros [r Ha] [r' Hb]. subst c.
  revert b r r' Hb. induction a as [|x a IH]; intros b r r' Hb.
  - left. now exists b.
  - destruct b as [|y b].
    + right. now exists (x :: a).
    + simpl in Hb. injection Hb as -> Hb.
      destruct (IH _ _ _ Hb) as [[t ->]|[t ->]].
      * left. now exists t.
      * right. now exists t.
Qed.

Lemma is_under_true (d p : Path) :
  is_under d p = true <-> exists seg r, p = d ++ seg :: r.
Proof.
  unfold is_under. split.
  - destruct (os_path_relpath p d) as [[|seg r]|] eqn:E; try discriminate.
    intros _. exists seg, r. now apply relpath_Some.
  - intros (seg & r & ->). now rewrite relpath_app.
Qed.

Lemma fs_lookup_None (q : Path) (st : Store) :
  fs_lookup q st = None <-> ~ In q (map fst st).
Proof.
  induction st as [|[p n] st IH]; simpl; [tauto|].
  destruct (path_eqb p q) eqn:E.
  - apply path_eqb_eq in E. subst. split; [discriminate | tauto].
  - apply path_eqb_neq in E. rewrite IH. tauto.
Qed.

Lemma fs_lookup_In (q : Path) (n : Node) (st : Store) :
  fs_lookup q st = Some n -> In (q, n) st.
Proof.
  induction st as [|[p m] st IH]; simpl; [discriminate|].
  destruct (path_eqb p q) eqn:E.
  - apply path_eqb_eq in E. subst. intros [= ->]. now left.
  - intros H. right. now apply IH.
Qed.

Lemma In_fs_lookup (q : Path) (n : Node) (st : Store) :
  NoDup (map fst st) -> In (q, n) st -> fs_lookup q st = Some n.
Proof.
  induction st as [|[p m] st IH]; simpl; [intros _ []|].
  intros Hnd [Heq|Hin].
  - injection Heq as -> ->. now rewrite path_eqb_refl.
  - inversion Hnd as [|x l Hnotin Hnd']; subst.
    destruct (path_eqb p q) eqn:E.
    + apply path_eqb_eq in E. subst. exfalso. apply Hnotin.
      apply in_map_iff. now exists (q, n).
    + now apply IH.
Qed.

Lemma fs_lookup_app (q : Path) (st added : Store) :
  fs_lookup q (st ++ added) =
  match fs_lookup q st with Some n => Some n | None => fs_lookup q added end.
Proof.
  induction st as [|[p m] st IH]; simpl; [reflexivity|].
  destruct (path_eqb p q); [reflexivity | exact IH].
Qed.

Lemma fs_put_absent (p : Path) (n : Node) (st : Store) :
  fs_lookup p st = None -> fs_put p n st = st ++ [(p, n)].
Proof.
  induction st as [|[q m] st IH]; simpl; [reflexivity|].
  destruct (path_eqb q p); [discriminate|]. intros H. now rewrite IH.
Qed.

Lemma fs_lookup_put_same (p : Path) (n : Node) (st : Store) :
  fs_lookup p (fs_put p n st) = Some n.
Proof.
  induction st as [|[q m] st IH]; simpl.
  - now rewrite path_eqb_refl.
  - destruct (path_eqb q p) eqn:E; simpl; rewrite E; [reflexivity | exact IH].
Qed.

Lemma fs_lookup_put_other (p q : Path) (n : Node) (st : Store) :
  p <> q -> fs_lookup q (fs_put p n st) = fs_lookup q st.
Proof.
  intros Hne. induction st as [|[x m] st IH]; simpl.
  - apply path_eqb_neq in Hne. now rewrite Hne.
  - destruct (path_eqb x p) eqn:E; simpl.
    + apply path_eqb_eq in E. subst x.
      apply path_eqb_neq in Hne. now rewrite Hne.
    + destruct (path_eqb x q); [reflexivity | exact IH].
Qed.

Lemma fs_put_keys (p : Path) (n : Node) (st : Store) :
  map fst (fs_put p n st) =
  match fs_lookup p st with Some _ => map fst st | None => map fst st ++ [p] end.
Proof.
  induction st as [|[q m] st IH]; simpl; [reflexivity|].
  destruct (path_eqb q p) eqn:E; simpl; [reflexivity|].
  rewrite IH. destruct (fs_lookup p st); reflexivity.
Qed.

Lemma fs_put_NoDup (p : Path) (n : Node) (st : Store) :
  NoDup (map fst st) -> NoDup (map fst (fs_put p n st)).
Proof.
  intros Hnd. rewrite fs_put_keys.
  destruct (fs_lookup p st) eqn:E; [assumption|].
  apply fs_lookup_None in E.
  apply NoDup_app; [assumption | constructor; [intros [] | constructor] |].
  intros x Hx [<-|[]]. contradiction.
Qed.

(** A filter on keys does not see a write to a key it rejects. *)
Lemma filter_fs_put (g : Path -> bool) (p : Path) (n : Node) (st : Store) :
  g p = false ->
  filter (fun e => g (fst e)) (fs_put p n st) = filter (fun e => g (fst e)) st.
Proof.
  intros Hg. induction st as [|[q m] st IH]; simpl.
  - now rewrite Hg.
  - destruct (path_eqb q p) eqn:E; simpl.
    + apply path_eqb_eq in E. subst q. now rewrite Hg.
    + rewrite IH. reflexivity.
Qed.

(** *** What [os.makedirs] does to a store *)

Lemma adds_dirs_refl (p : Path) (st : Store) : adds_dirs p st st.
Proof.
  exists []. rewrite app_nil_r.
  split; [reflexivity|]. split; [constructor|]. intros e [].
Qed.

Lemma makedirs_from_adds (now : Q) (rest pre : Path) (st st' : Store) :
  makedirs_from now pre rest st = Some st' ->
  exists added : Store,
    st' = st ++ added /\ NoDup (map fst added) /\
    forall e, In e added ->
      fs_lookup (fst e) st = None /\ is_KDir (n_kind (snd e)) = true /\
      exists x y, x <> [] /\ rest = x ++ y /\ fst e = pre ++ x.
Proof.
  revert pre st. induction rest as [|seg rest IH]; intros pre st; simpl.
  - intros [= <-]. exists []. rewrite app_nil_r.
    split; [reflexivity|]. split; [constructor|]. intros e [].
  - destruct (fs_lookup (pre ++ [seg]) st) as [n|] eqn:E.
    + destruct (is_KDir (n_kind n)); [|discriminate].
      intros H. destruct (IH _ _ H) as (added & -> & Hnd & Hall).
      exists added. split; [reflexivity|]. split; [assumption|].
      intros e He. destruct (Hall e He) as (A & B & x & y & Hx & -> & Hk).
      split; [assumption|]. split; [assumption|].
      exists (seg :: x), y. split; [discriminate|]. split; [reflexivity|].
      rewrite Hk, <- app_assoc. reflexivity.
    + intros H. destruct (IH _ _ H) as (added & -> & Hnd & Hall).
      rewrite (@fs_put_absent _ (new_dir now) _ E), <- app_assoc. cbn [app].
      exists ((pre ++ [seg], new_dir now) :: added).
      split; [reflexivity|]. split.
      * cbn [map fst]. constructor; [|assumption].
        intros Hin. apply in_map_iff in Hin as [e [Hk He]].
        destruct (Hall e He) as (A & _). rewrite Hk in A.
        rewrite (@fs_put_absent _ (new_dir now) _ E), fs_lookup_app, E in A. cbn in A.
        now rewrite path_eqb_refl in A.
      * intros e [<-|He].
        -- cbn [fst snd]. split; [assumption|]. split; [reflexivity|].
           exists [seg], rest. split; [discriminate|]. split; reflexivity.
        -- destruct (Hall e He) as (A & B & x & y & Hx & -> & Hk).
           rewrite (@fs_put_absent _ (new_dir now) _ E), fs_lookup_app in A.
           destruct (fs_lookup (fst e) st); [discriminate|].
           split; [reflexivity|]. split; [assumption|].
           exists (seg :: x), y. split; [discriminate|]. split; [reflexivity|].
           rewrite Hk, <- app_assoc. reflexivity.
Qed.

Lemma makedirs_from_isdir (now : Q) (rest pre : Path) (st st' : Store) :
  rest <> [] ->
  makedirs_from now pre rest st = Some st' ->
  os_path_isdir st' (pre ++ rest) = true.
Proof.
  revert pre st. induction rest as [|seg rest IH]; intros pre st Hne; [congruence|].
  simpl. destruct (fs_lookup (pre ++ [seg]) st) as [n|] eqn:E.
  - destruct (is_KDir (n_kind n)) eqn:K; [|discriminate].
    destruct rest as [|seg' rest].
    + simpl. intros [= <-]. unfold os_path_isdir. now rewrite E.
    + intros H. apply IH in H; [|discriminate]. now rewrite <- app_assoc in H.
  - destruct rest as [|seg' rest].
    + simpl. intros [= <-]. unfold os_path_isdir.
      now rewrite fs_lookup_put_same.
    + intros H. apply IH in H; [|discriminate]. now rewrite <- app_assoc in H.
Qed.

Lemma os_makedirs_adds (now : Q) (p : Path) (st st' : Store) :
  os_makedirs now p st = Some st' ->
  adds_dirs p st st' /\ os_path_isdir st' p = true.
Proof.
  unfold os_makedirs. destruct p as [|seg p]; [discriminate|].
  intros H. split.
  - destruct (makedirs_from_adds _ _ _ _ _ H) as (added & -> & Hnd & Hall).
    exists added. split; [reflexivity|]. split; [assumption|].
    intros e He. destruct (Hall e He) as (A & B & x & y & Hx & Hr & Hk).
    split; [assumption|]. split; [assumption|]. split.
    + rewrite Hk. cbn. assumption.
    + apply prefixb_true. exists y. rewrite Hk, Hr. reflexivity.
  - apply (makedirs_from_isdir now (seg :: p) [] st st'); [discriminate | exact H].
Qed.

Lemma adds_dirs_lookup (p q : Path) (m : Node) (st st' : Store) :
  adds_dirs p st st' -> fs_lookup q st = Some m -> fs_lookup q st' = Some m.
Proof.
  intros (added & -> & _) H. now rewrite fs_lookup_app, H.
Qed.

Lemma adds_dirs_new (p q : Path) (m : Node) (st st' : Store) :
  adds_dirs p st st' -> fs_lookup q st = None -> fs_lookup q st' = Some m ->
  is_KDir (n_kind m) = true /\ q <> [] /\ prefixb q p = true.
Proof.
  intros (added & -> & _ & Hall) Hn H. rewrite fs_lookup_app, Hn in H.
  apply fs_lookup_In in H. apply Hall in H. cbn in H. tauto.
Qed.

Lemma adds_dirs_NoDup (p : Path) (st st' : Store) :
  adds_dirs p st st' -> NoDup (map fst st) -> NoDup (map fst st').
Proof.
  intros (added & -> & Hnd & Hall) Hst. rewrite map_app.
  apply NoDup_app; auto.
  intros x Hx Hx'. apply in_map_iff in Hx' as [e [<- He]].
  destruct (Hall e He) as (A & _). apply fs_lookup_None in A. contradiction.
Qed.

Lemma adds_dirs_filter (g : Path -> bool) (p : Path) (st st' : Store) :
  adds_dirs p st st' ->
  (forall q, q <> [] -> prefixb q p = true -> g q = false) ->
  filter (fun e => g (fst e)) st' = filter (fun e => g (fst e)) st.
Proof.
  intros (added & -> & _ & Hall) Hg. rewrite filter_app.
  replace (filter (fun e => g (fst e)) added) with (@nil (Path * Node));
    [now rewrite app_nil_r|].
  symmetry. clear - Hall Hg.
  induction added as [|e added IH]; [reflexivity|]. cbn.
  destruct (Hall e (or_introl eq_refl)) as (_ & _ & Hne & Hp).
  rewrite (Hg _ Hne Hp). apply IH. intros e' He'. apply Hall. now right.
Qed.

Lemma adds_dirs_weaken (p p' : Path) (st st' : Store) :
  adds_dirs p st st' -> prefixb p p' = true -> adds_dirs p' st st'.
Proof.
  intros (added & -> & Hnd & Hall) Hp. exists added.
  split; [reflexivity|]. split; [assumption|].
  intros e He. destruct (Hall e He) as (A & B & C & D).
  repeat (split; [assumption|]). eapply prefixb_trans; eauto.
Qed.

Lemma prefixb_removelast (p : Path) : prefixb (removelast p) p = true.
Proof.
  apply prefixb_true.
  destruct p as [|x p]; [now exists []|].
  exists [last (x :: p) EmptyString].
  apply app_removelast_last. discriminate.
Qed.

(* ================================================================= *)
(** ** A real run between two local trees, without backups *)

Section LocalRun.

Variable md5_hexdigest : string -> string.
Variable self : FileSyncer.

Hypothesis Hdry : dry_run self = false.
Hypothesis Hbackup : backup self = false.
Hypothesis Hsrc : source_type self = LOCAL.
Hypothesis Hdst : dest_type self = LOCAL.

Lemma create_directory_local_ok (d : Path) (s s' : State) :
  _create_directory self d LOCAL s = (true, s') ->
  adds_dirs d (local_fs (world s)) (local_fs (world s')) /\
  os_path_isdir (local_fs (world s')) d = true /\
  clock (world s') = clock (world s) /\ stats s' = stats s.
Proof.
  unfold _create_directory. rewrite Hdry.
  destruct (os_makedirs (clock (world s)) d (local_fs (world s))) as [st'|] eqn:E;
    cbn [option_map]; [|discriminate].
  intros [= <-]. cbn [world stats set_local local_fs clock].
  destruct (os_makedirs_adds _ _ _ _ E). auto.
Qed.

Lemma fs_write_ok (p : Path) (content : string) (stamp : Q) (st st' : Store) :
  fs_write p content stamp st = Some st' ->
  os_path_isdir st p = false /\ st' = fs_put p (new_file content stamp) st.
Proof.
  unfold fs_write. destruct (os_path_isdir st p); [discriminate|].
  destruct (parent_ok st p); [|discriminate]. intros [= <-]. auto.
Qed.

Lemma copy_file_local_ok (sp dp : Path) (s s' : State) :
  _copy_file self sp dp LOCAL LOCAL s = (true, s') ->
  exists (Lm : Store) (n : Node) (target : Path),
    adds_dirs dp (local_fs (world s)) Lm /\
    fs_read Lm sp = Some n /\
    os_path_isdir Lm target = false /\
    (target = dp \/
     (rich_console self = false /\ os_path_isdir Lm dp = true /\
      target = dp ++ [last sp EmptyString])) /\
    local_fs (world s') =
      fs_put target (new_file (n_data n) (copy_stamp self (clock (world s)) n)) Lm /\
    clock (world s') = clock (world s) /\
    errors (stats s') = errors (stats s).
Proof.
  unfold _copy_file. rewrite Hdry, Hbackup. cbn [andb].
  set (made :=
         match os_path_dirname dp with
         | [] => (true, s)
         | _ :: _ =>
             if negb (_path_exists self (world s) (os_path_dirname dp) LOCAL)
             then _create_directory self (os_path_dirname dp) LOCAL s
             else (true, s)
         end).
  assert (Hmade : fst made = true ->
            adds_dirs dp (local_fs (world s)) (local_fs (world (snd made))) /\
            clock (world (snd made)) = clock (world s) /\
            stats (snd made) = stats s).
  { subst made. destruct (os_path_dirname dp) as [|x l] eqn:Edd.
    - intros _. cbn. split; [apply adds_dirs_refl | auto].
    - destruct (negb _).
      + destruct (_create_directory self (x :: l) LOCAL s) as [ok s1] eqn:Ecd.
        cbn. intros ->. apply create_directory_local_ok in Ecd.
        destruct Ecd as (A & _ & C & D). split; [|auto].
        apply (adds_dirs_weaken (x :: l)); [assumption|].
        rewrite <- Edd. apply prefixb_removelast.
      + intros _. cbn. split; [apply adds_dirs_refl | auto]. }
  destruct made as [ok s1]. cbn [fst snd] in Hmade.
  destruct ok; cbn [negb]; [|discriminate].
  destruct (Hmade eq_refl) as (Hadd & Hclk & Hst).
  unfold transfer.
  destruct (fs_read (local_fs (world s1)) sp) as [n|] eqn:Er; [|discriminate].
  destruct (rich_console self) eqn:Ec.
  - cbn [andb PathType_eqb].
    destruct (fs_write dp (n_data n) (clock (world s1)) (local_fs (world s1)))
      as [st'|] eqn:Ew; cbn [option_map]; [|discriminate].
    intros [= <-]. cbn [world stats set_local local_fs clock].
    apply fs_write_ok in Ew as [Hnd ->].
    exists (local_fs (world s1)), n, dp.
    unfold copy_stamp. rewrite Ec, Hst, Hclk. cbn [add_bytes errors]. auto 10.
  - cbn [andb].
    unfold shutil_copy2. rewrite Er.
    destruct (fs_write _ (n_data n) (n_mtime n) (local_fs (world s1)))
      as [st'|] eqn:Ew; cbn [option_map]; [|discriminate].
    intros [= <-]. cbn [world stats set_local local_fs clock].
    apply fs_write_ok in Ew as [Hnd ->].
    exists (local_fs (world s1)), n,
      (if os_path_isdir (local_fs (world s1)) dp
       then dp ++ [last sp EmptyString] else dp).
    unfold copy_stamp. rewrite Ec, Hst, Hclk. cbn [add_bytes errors].
    repeat (split; [solve [auto]|]).
    split; [|auto].
    destruct (os_path_isdir (local_fs (world s1)) dp); auto.
Qed.

Hypothesis Hapart1 : prefixb (source self) (destination self) = false.
Hypothesis Hapart2 : prefixb (destination self) (source self) = false.

(** Nothing at or above a destination path lies in the source tree. *)
Lemma not_in_source_tree (t q : Path) :
  prefixb (destination self) t = true -> prefixb q t = true ->
  prefixb (source self) q = false.
Proof.
  intros Ht Hq. destruct (prefixb (source self) q) eqn:E; [|reflexivity].
  pose proof (prefixb_trans _ _ _ E Hq) as Hs.
  destruct (prefixes_comparable _ _ _ Hs Ht); congruence.
Qed.

Lemma adds_dirs_read_back (p sp : Path) (n : Node) (st st' : Store) :
  adds_dirs p st st' -> fs_read st' sp = Some n -> fs_read st sp = Some n.
Proof.
  intros Hadd. unfold fs_read.
  destruct (fs_lookup sp st) as [m|] eqn:E.
  - now rewrite (adds_dirs_lookup _ _ _ _ _ Hadd E).
  - destruct (fs_lookup sp st') as [m|] eqn:E'; [|discriminate].
    destruct (adds_dirs_new _ _ _ _ _ Hadd E E') as (K & _).
    destruct (n_kind m); discriminate.
Qed.

Lemma exec_files_errors_mono (bump : Stats -> Stats) (l : list CopyItem) (s : State) :
  (forall st, errors (bump st) = errors st) ->
  (errors (stats s) <= errors (stats (exec_files self bump l s)))%Z.
Proof.
  intros Hb. unfold exec_files. revert s.
  induction l as [|[[sp dp] d] l IH]; intros s; cbn [fold_left]; [lia|].
  destruct d; cbn [negb]; [apply IH|].
  pose proof (copy_file_stats self sp dp (source_type self) (dest_type self) s) as H.
  destruct (_copy_file self sp dp (source_type self) (dest_type self) s) as [ok s1].
  cbn [fst snd] in H.
  destruct H as [[-> [n Hs]]|[-> Hs]].
  - etransitivity; [|apply IH]. cbn [with_stats stats]. rewrite Hb, Hs. cbn. lia.
  - etransitivity; [|apply IH]. rewrite Hs. cbn. lia.
Qed.

(** What an error-free pass of the copy loop leaves in the local store. *)
Lemma exec_files_effect (bump : Stats -> Stats) (l : list CopyItem) :
  (forall st, errors (bump st) = errors st) ->
  forall s : State,
  errors (stats (exec_files self bump l s)) = errors (stats s) ->
  (forall it : CopyItem, In it l ->
     prefixb (destination self) (snd (fst it)) = true /\
     prefixb (source self) (fst (fst it)) = true) ->
  NoDup (file_dests l) ->
  (rich_console self = false ->
   forall it : CopyItem, In it l -> snd it = false ->
     os_path_isdir (local_fs (world (exec_files self bump l s))) (snd (fst it)) = false) ->
  let L := local_fs (world s) in
  let L' := local_fs (world (exec_files self bump l s)) in
  clock (world (exec_files self bump l s)) = clock (world s) /\
  at_or_below (source self) L' = at_or_below (source self) L /\
  (NoDup (map fst L) -> NoDup (map fst L')) /\
  (forall q m, fs_lookup q L = Some m -> ~ In q (file_dests l) ->
               fs_lookup q L' = Some m) /\
  (forall sp dp, In (sp, dp, false) l ->
     exists n, fs_read L sp = Some n /\
       fs_lookup dp L' =
         Some (new_file (n_data n) (copy_stamp self (clock (world s)) n))) /\
  (forall q m, fs_lookup q L = Some m -> is_KDir (n_kind m) = true ->
               fs_lookup q L' = Some m).
Proof.
  intros Hb. induction l as [|[[sp dp] d] l IH]; intros s He Hpre Hnd Hclash.
  { cbn. repeat split; auto. intros sp dp []. }
  destruct d.
  { (* a directory entry: the loop passes it by *)
    change (exec_files self bump ((sp, dp, true) :: l) s)
      with (exec_files self bump l s) in *.
    change (file_dests ((sp, dp, true) :: l)) with (file_dests l) in *.
    destruct (IH s He (fun it H => Hpre it (or_intror H)) Hnd
                (fun Hc it H => Hclash Hc it (or_intror H)))
      as (C1 & C2 & C3 & C4 & C5 & C6).
    repeat split; auto.
    intros sp' dp' [[=]|Hin]. now apply C5. }
  change (exec_files self bump ((sp, dp, false) :: l) s)
    with (exec_files self bump l
            (let '(ok, s1) :=
               _copy_file self sp dp (source_type self) (dest_type self) s in
             if ok then with_stats bump s1 else s1)) in *.
  pose proof (copy_file_stats self sp dp (source_type self) (dest_type self) s) as Hstat.
  destruct (_copy_file self sp dp (source_type self) (dest_type self) s)
    as [ok s1] eqn:Ecf.
  cbn [fst snd] in Hstat.
  pose proof (exec_files_errors_mono bump l (if ok then with_stats bump s1 else s1) Hb)
    as Hmono.
  destruct Hstat as [[-> [k Hs]]|[-> Hs]].
  2:{ exfalso. rewrite Hs in Hmono. cbn in Hmono. lia. }
  rewrite Hsrc, Hdst in Ecf. apply copy_file_local_ok in Ecf.
  destruct Ecf as (Lm & n & target & Hadd & Hread & Hnodir & Htarget & HL1 & Hclk & Herr).
  set (sm := with_stats bump s1) in *.
  assert (Hsm : world sm = world s1) by reflexivity.
  assert (Hesm : errors (stats sm) = errors (stats s)).
  { subst sm. cbn [with_stats stats]. now rewrite Hb. }
  change (file_dests ((sp, dp, false) :: l)) with (dp :: file_dests l) in *.
  apply NoDup_cons_iff in Hnd as [Hnotin Hnd].
  destruct (IH sm (eq_trans He (eq_sym Hesm)) (fun it H => Hpre it (or_intror H)) Hnd
              (fun Hc it H => Hclash Hc it (or_intror H)))
    as (C1 & C2 & C3 & C4 & C5 & C6).
  rewrite Hsm in *.
  destruct (Hpre _ (or_introl eq_refl)) as [HDdp HSsp]. cbn [fst snd] in HDdp, HSsp.
  (* the copy went to [dp] itself, not into a directory standing there *)
  assert (Ht : target = dp).
  { destruct Htarget as [->|(Hc & Hisdir & ->)]; [reflexivity|]. exfalso.
    unfold os_path_isdir in Hisdir.
    destruct (fs_lookup dp Lm) as [m|] eqn:Em; [|discriminate].
    assert (Hm1 : fs_lookup dp (local_fs (world s1)) = Some m).
    { rewrite HL1, fs_lookup_put_other; [assumption|].
      intros Heq. apply (f_equal (@List.length string)) in Heq.
      rewrite length_app in Heq. cbn in Heq. lia. }
    pose proof (C6 _ _ Hm1 Hisdir) as Hfin.
    specialize (Hclash Hc _ (or_introl eq_refl) eq_refl). cbn [fst snd] in Hclash.
    unfold os_path_isdir in Hclash. rewrite Hfin in Hclash. congruence. }
  subst target.
  assert (HSdp : prefixb (source self) dp = false).
  { apply (not_in_source_tree dp dp HDdp (prefixb_refl dp)). }
  split; [congruence|]. split; [|split; [|split; [|split]]].
  - rewrite C2, HL1. unfold at_or_below.
    rewrite (filter_fs_put (prefixb (source self)) dp _ Lm HSdp).
    apply (adds_dirs_filter (prefixb (source self)) dp _ _ Hadd).
    intros q _ Hq. apply (not_in_source_tree dp q HDdp Hq).
  - intros HL. apply C3. rewrite HL1. apply fs_put_NoDup.
    apply (adds_dirs_NoDup _ _ _ Hadd HL).
  - intros q m Hq Hnot. apply C4; [|intros H; apply Hnot; now right].
    rewrite HL1, fs_lookup_put_other; [|intros ->; apply Hnot; now left].
    apply (adds_dirs_lookup _ _ _ _ _ Hadd Hq).
  - intros sp' dp' [[= -> ->]|Hin].
    + exists n. split; [apply (adds_dirs_read_back _ _ _ _ _ Hadd Hread)|].
      apply C4; [|assumption].
      rewrite HL1. apply fs_lookup_put_same.
    + destruct (C5 _ _ Hin) as (n' & Hr' & Hl'). exists n'.
      rewrite Hclk in Hl'. split; [|assumption].
      destruct (Hpre _ (or_intror Hin)) as [_ HSsp']. cbn [fst snd] in HSsp'.
      apply (adds_dirs_read_back _ _ _ _ _ Hadd).
      unfold fs_read in *. rewrite HL1, fs_lookup_put_other in Hr'; [assumption|].
      intros ->. congruence.
  - intros q m Hq Hdir. apply C6; [|assumption].
    pose proof (adds_dirs_lookup _ _ _ _ _ Hadd Hq) as Hqm.
    rewrite HL1, fs_lookup_put_other; [assumption|].
    intros ->. unfold os_path_isdir in Hnodir. rewrite Hqm in Hnodir. congruence.
Qed.

(** What an error-free pass of the directory loop leaves. *)
Lemma exec_dirs_effect (l : list CopyItem) :
  forall s : State,
  errors (stats (exec_dirs self l s)) = errors (stats s) ->
  (forall it : CopyItem, In it l -> snd it = true ->
     prefixb (destination self) (snd (fst it)) = true) ->
  let L := local_fs (world s) in
  let L' := local_fs (world (exec_dirs self l s)) in
  clock (world (exec_dirs self l s)) = clock (world s) /\
  at_or_below (source self) L' = at_or_below (source self) L /\
  (NoDup (map fst L) -> NoDup (map fst L')) /\
  (forall q m, fs_lookup q L = Some m -> fs_lookup q L' = Some m) /\
  (forall sp dp, In (sp, dp, true) l -> os_path_isdir L' dp = true).
Proof.
  induction l as [|[[sp dp] d] l IH]; intros s He Hpre.
  { cbn. repeat split; auto; try (intros sp' dp' []). }
  destruct d.
  2:{ change (exec_dirs self ((sp, dp, false) :: l) s) with (exec_dirs self l s) in *.
      destruct (IH s He (fun it H => Hpre it (or_intror H))) as (C1 & C2 & C3 & C4 & C5).
      repeat split; auto. intros sp' dp' [[=]|Hin]. now apply (C5 sp'). }
  change (exec_dirs self ((sp, dp, true) :: l) s)
    with (exec_dirs self l
            (let '(ok, s1) := _create_directory self dp (dest_type self) s in
             if ok then with_stats add_copied s1 else s1)) in *.
  pose proof (create_directory_stats self dp (dest_type self) s) as Hstat.
  destruct (_create_directory self dp (dest_type self) s) as [ok s1] eqn:Ecd.
  cbn [fst snd] in Hstat.
  pose proof (exec_dirs_advanced self l (if ok then with_stats add_copied s1 else s1))
    as (Hmono & _).
  destruct Hstat as [[-> Hs]|[-> Hs]].
  2:{ exfalso. rewrite Hs in Hmono. cbn in Hmono. lia. }
  rewrite Hdst in Ecd. apply create_directory_local_ok in Ecd.
  destruct Ecd as (Hadd & Hisdir & Hclk & _).
  set (sm := with_stats add_copied s1) in *.
  assert (Hesm : errors (stats sm) = errors (stats s)).
  { subst sm. cbn [with_stats stats add_copied errors]. now rewrite Hs. }
  destruct (IH sm (eq_trans He (eq_sym Hesm)) (fun it H => Hpre it (or_intror H)))
    as (C1 & C2 & C3 & C4 & C5).
  change (world sm) with (world s1) in *.
  pose proof (Hpre _ (or_introl eq_refl) eq_refl) as HDdp. cbn [fst snd] in HDdp.
  split; [congruence|]. split; [|split; [|split]].
  - rewrite C2. unfold at_or_below.
    apply (adds_dirs_filter (prefixb (source self)) dp _ _ Hadd).
    intros q _ Hq. apply (not_in_source_tree dp q HDdp Hq).
  - intros HL. apply C3. apply (adds_dirs_NoDup _ _ _ Hadd HL).
  - intros q m Hq. apply C4. apply (adds_dirs_lookup _ _ _ _ _ Hadd Hq).
  - intros sp' dp' [[= _ <-]|Hin]; [|now apply (C5 sp')].
    unfold os_path_isdir in *.
    destruct (fs_lookup dp (local_fs (world s1))) as [m|] eqn:Em; [|discriminate].
    now rewrite (C4 _ _ Em).
Qed.

Lemma lookup_at_or_below (root q : Path) (st : Store) :
  prefixb root q = true -> fs_lookup q (at_or_below root st) = fs_lookup q st.
Proof.
  intros Hq. unfold at_or_below.
  induction st as [|[p m] st IH]; [reflexivity|]. cbn [filter fst].
  destruct (path_eqb p q) eqn:E.
  - apply path_eqb_eq in E. subst p. rewrite Hq. cbn. now rewrite path_eqb_refl.
  - destruct (prefixb root p); cbn; rewrite ?E; exact IH.
Qed.

Lemma same_source_lookup (q : Path) (st st' : Store) :
  at_or_below (source self) st' = at_or_below (source self) st ->
  prefixb (source self) q = true ->
  fs_lookup q st' = fs_lookup q st.
Proof.
  intros Hsame Hq.
  rewrite <- (lookup_at_or_below _ _ st' Hq), <- (lookup_at_or_below _ _ st Hq).
  now rewrite Hsame.
Qed.

Lemma file_dests_app (l1 l2 : list CopyItem) :
  file_dests (l1 ++ l2) = file_dests l1 ++ file_dests l2.
Proof. unfold file_dests. now rewrite filter_app, map_app. Qed.

Lemma in_file_dests (sp dp : Path) (l : list CopyItem) :
  In (sp, dp, false) l -> In dp (file_dests l).
Proof.
  intros H. unfold file_dests. apply in_map_iff. exists (sp, dp, false).
  split; [reflexivity|]. apply filter_In. auto.
Qed.

(** What an error-free execution of a plan without deletions leaves. *)
Lemma execute_effect (p : Plan) (s : State) :
  to_delete p = [] ->
  errors (stats (execute self p s)) = errors (stats s) ->
  (forall it : CopyItem, In it (to_copy p ++ to_update p) ->
     prefixb (destination self) (snd (fst it)) = true /\
     prefixb (source self) (fst (fst it)) = true) ->
  NoDup (file_dests (to_copy p ++ to_update p)) ->
  (rich_console self = false ->
   forall it : CopyItem, In it (to_copy p ++ to_update p) -> snd it = false ->
     os_path_isdir (local_fs (world (execute self p s))) (snd (fst it)) = false) ->
  let L := local_fs (world s) in
  let L' := local_fs (world (execute self p s)) in
  clock (world (execute self p s)) = clock (world s) /\
  at_or_below (source self) L' = at_or_below (source self) L /\
  (NoDup (map fst L) -> NoDup (map fst L')) /\
  (forall q m, fs_lookup q L = Some m ->
               ~ In q (file_dests (to_copy p ++ to_update p)) ->
               fs_lookup q L' = Some m) /\
  (forall sp dp, In (sp, dp, false) (to_copy p ++ to_update p) ->
     exists n, fs_read L sp = Some n /\
       fs_lookup dp L' =
         Some (new_file (n_data n) (copy_stamp self (clock (world s)) n))) /\
  (forall sp dp, In (sp, dp, true) (to_copy p) -> os_path_isdir L' dp = true).
Proof.
  intros Hdel He Hpre Hnd Hclash.
  unfold execute in *. rewrite Hdel in *.
  set (sa := exec_dirs self (to_copy p) s) in *.
  set (sb := exec_files self add_copied (to_copy p) sa) in *.
  set (sc := exec_files self add_updated (to_update p) sb) in *.
  change (exec_deletes self [] sc) with sc in *.
  cbn [with_stats world stats set_skipped errors] in *.
  pose proof (exec_dirs_advanced self (to_copy p) s) as (Ma & _). fold sa in Ma.
  pose proof (exec_files_errors_mono add_copied (to_copy p) sa (fun st => eq_refl)) as Mb.
  fold sb in Mb.
  pose proof (exec_files_errors_mono add_updated (to_update p) sb (fun st => eq_refl)) as Mc.
  fold sc in Mc.
  assert (Ea : errors (stats sa) = errors (stats s)) by lia.
  assert (Eb : errors (stats sb) = errors (stats sa)) by lia.
  assert (Ec : errors (stats sc) = errors (stats sb)) by lia.
  rewrite file_dests_app in *. apply NoDup_app_remove_l in Hnd as Hnd2.
  pose proof (NoDup_app_remove_r _ _ Hnd) as Hnd1.
  (* the directories *)
  destruct (exec_dirs_effect (to_copy p) s Ea
              (fun it H _ => proj1 (Hpre it (in_or_app _ _ _ (or_introl H)))))
    as (A1 & A2 & A3 & A4 & A5). fold sa in A1, A2, A3, A4, A5.
  (* the updates, from the state the copies leave *)
  destruct (exec_files_effect add_updated (to_update p) (fun st => eq_refl) sb Ec
              (fun it H => Hpre it (in_or_app _ _ _ (or_intror H))) Hnd2
              (fun Hc it H => Hclash Hc it (in_or_app _ _ _ (or_intror H))))
    as (U1 & U2 & U3 & U4 & U5 & U6). fold sc in U1, U2, U3, U4, U5, U6.
  (* the copies *)
  assert (Hclash1 : rich_console self = false ->
            forall it : CopyItem, In it (to_copy p) -> snd it = false ->
              os_path_isdir (local_fs (world sb)) (snd (fst it)) = false).
  { intros Hc it Hin Hf.
    destruct (os_path_isdir (local_fs (world sb)) (snd (fst it))) eqn:E; [|reflexivity].
    unfold os_path_isdir in E.
    destruct (fs_lookup (snd (fst it)) (local_fs (world sb))) as [m|] eqn:Em;
      [|discriminate].
    pose proof (U6 _ _ Em E) as Hfin.
    pose proof (Hclash Hc it (in_or_app _ _ _ (or_introl Hin)) Hf) as Hno.
    unfold os_path_isdir in Hno. rewrite Hfin in Hno. congruence. }
  destruct (exec_files_effect add_copied (to_copy p) (fun st => eq_refl) sa Eb
              (fun it H => Hpre it (in_or_app _ _ _ (or_introl H))) Hnd1 Hclash1)
    as (B1 & B2 & B3 & B4 & B5 & B6). fold sb in B1, B2, B3, B4, B5, B6.
  split; [congruence|]. split; [congruence|]. split; [auto|].
  split; [|split].
  - intros q m Hq Hnot. apply U4; [|intros H; apply Hnot; apply in_or_app; now right].
    apply B4; [|intros H; apply Hnot; apply in_or_app; now left].
    now apply A4.
  - intros sp dp Hin. apply in_app_or in Hin as [Hin|Hin].
    + destruct (B5 _ _ Hin) as (n & Hr & Hl). exists n. split.
      * destruct (Hpre _ (in_or_app _ _ _ (or_introl Hin))) as [_ HS]. cbn in HS.
        unfold fs_read in *. now rewrite <- (same_source_lookup sp _ _ A2 HS).
      * rewrite A1 in Hl. apply U4; [assumption|].
        intros H. apply in_file_dests in Hin.
        clear - Hnd Hin H. revert Hnd Hin H.
        generalize (file_dests (to_copy p)) (file_dests (to_update p)).
        intros l1 l2 Hnd H1 H2.
        induction l1 as [|x l1 IH]; [contradiction|].
        inversion Hnd as [|? ? Hx Hnd']; subst.
        destruct H1 as [->|H1]; [apply Hx; apply in_or_app; now right | auto].
    + destruct (U5 _ _ Hin) as (n & Hr & Hl). exists n. split.
      * destruct (Hpre _ (in_or_app _ _ _ (or_intror Hin))) as [_ HS]. cbn in HS.
        unfold fs_read in *.
        rewrite <- (same_source_lookup sp _ _ A2 HS),
                <- (same_source_lookup sp _ _ B2 HS). assumption.
      * rewrite B1, A1 in Hl. assumption.
  - intros sp dp Hin. pose proof (A5 _ _ Hin) as Hd.
    unfold os_path_isdir in *.
    destruct (fs_lookup dp (local_fs (world sa))) as [m|] eqn:Em; [|discriminate].
    now rewrite (U6 _ _ (B6 _ _ Em Hd) Hd).
Qed.

(** *** The lists of a one-way plan *)

Lemma plan_fold_routes (w : World) (dest_files : Dict) (items : Dict) (acc : Plan) :
  fold_left (plan_entry md5_hexdigest self w [] dest_files) items acc =
  {| to_copy :=
       to_copy acc ++
       map (copy_item self) (filter (goes_copy md5_hexdigest self w dest_files) items);
     to_update :=
       to_update acc ++
       map (copy_item self) (filter (goes_update md5_hexdigest self w dest_files) items);
     to_delete := to_delete acc;
     skipped_paths :=
       skipped_paths acc ++
       map fst (filter (goes_skipped md5_hexdigest self w dest_files) items);
     conflicts_counted := conflicts_counted acc |}.
Proof.
  revert acc. induction items as [|[rel sf] items IH]; intros acc.
  - cbn. rewrite !app_nil_r. now destruct acc.
  - cbn [fold_left]. rewrite IH. clear IH.
    unfold plan_entry, goes_copy, goes_update, goes_skipped, copy_item.
    cbn [filter fst snd path_in existsb].
    destruct (is_dir sf) eqn:Ed.
    + destruct (dict_get rel dest_files); cbn [map push_copy to_copy to_update
        to_delete skipped_paths conflicts_counted fst snd];
        rewrite <- ?app_assoc; cbn [app]; rewrite ?Ed; reflexivity.
    + destruct (_compare_files md5_hexdigest self w sf (dict_get rel dest_files)
                  (full_path sf) (dest_path_of self rel));
        cbn [route map push_copy push_update push_skipped to_copy to_update
             to_delete skipped_paths conflicts_counted fst snd];
        rewrite <- ?app_assoc; cbn [app]; rewrite ?Ed; reflexivity.
Qed.

Hypothesis Hmode : sync_mode self = ONE_WAY.

Lemma build_plan_one_way (w : World) :
  build_plan md5_hexdigest self w =
  {| to_copy :=
       map (copy_item self)
         (filter (goes_copy md5_hexdigest self w (dest_index self w))
            (source_index self w));
     to_update :=
       map (copy_item self)
         (filter (goes_update md5_hexdigest self w (dest_index self w))
            (source_index self w));
     to_delete := [];
     skipped_paths :=
       map fst
         (filter (goes_skipped md5_hexdigest self w (dest_index self w))
            (source_index self w));
     conflicts_counted := 0 |}.
Proof.
  unfold build_plan, _detect_conflicts, mirror_deletions.
  rewrite Hmode. cbn [SyncMode_eqb negb].
  rewrite plan_fold_routes. reflexivity.
Qed.

(** *** Scans and indices of local trees *)

Lemma dict_fold_In (files : list FileInfo) (d : Dict) (k : Path) (v : FileInfo) :
  (forall k' v', In (k', v') d -> path v' = k') ->
  In (k, v) (fold_left (fun d f => dict_set (path f) f d) files d) ->
  path v = k /\ (In v files \/ In (k, v) d).
Proof.
  revert d. induction files as [|f files IH]; intros d Hd; cbn [fold_left].
  - intros H. split; [now apply Hd | now right].
  - intros H. apply IH in H.
    + destruct H as [Hp [H|H]]; [split; [assumption | left; now right]|].
      split; [assumption|].
      clear - H. induction d as [|[q u] d IHd]; cbn in H.
      * destruct H as [[= <- <-]|[]]. left. now left.
      * destruct (path_eqb q (path f)).
        -- destruct H as [[= <- <-]|H]; [left; now left | right; now right].
        -- destruct H as [H|H]; [right; now left|].
           destruct (IHd H) as [?|?]; [now left | right; now right].
    + clear - Hd. intros k' v' H.
      induction d as [|[q u] d IHd]; cbn in H.
      * now destruct H as [[= <- <-]|[]].
      * destruct (path_eqb q (path f)) eqn:E.
        -- destruct H as [[= <- <-]|H].
           ++ now apply path_eqb_eq in E.
           ++ apply Hd. now right.
        -- destruct H as [[= <- <-]|H].
           ++ apply Hd. now left.
           ++ apply IHd; [|assumption]. intros k'' v'' H'. apply Hd. now right.
Qed.

Lemma dict_of_list_In (files : list FileInfo) (k : Path) (v : FileInfo) :
  In (k, v) (dict_of_list files) -> path v = k /\ In v files.
Proof.
  intros H. apply dict_fold_In in H; [|intros ? ? []].
  destruct H as [Hp [H|[]]]. auto.
Qed.

Lemma entries_below_In (d : Path) (st : Store) (e : Path * Path * Node) :
  In e (entries_below d st) <->
  exists seg rel, fst (fst e) = seg :: rel /\ snd (fst e) = d ++ seg :: rel /\
                  In (snd (fst e), snd e) st.
Proof.
  unfold entries_below. rewrite in_flat_map. split.
  - intros [[p n] [Hin He]]. cbn [fst snd] in He.
    destruct (os_path_relpath p d) as [[|seg rel]|] eqn:E; try contradiction.
    destruct He as [<-|[]]. cbn. exists seg, rel.
    repeat split; [now apply relpath_Some | assumption].
  - intros (seg & rel & H1 & H2 & H3). destruct e as [[r p] n]. cbn in *. subst.
    exists (d ++ seg :: rel, n). split; [assumption|]. cbn.
    rewrite relpath_app. now left.
Qed.

Lemma take_while_In (A : Type) (f : A -> bool) (l : list A) (x : A) :
  In x (take_while f l) -> In x l /\ f x = true.
Proof.
  induction l as [|y l IH]; cbn; [intros []|].
  destruct (f y) eqn:E; [|intros []].
  intros [<-|H]; [auto|]. destruct (IH H). auto.
Qed.

Lemma take_while_all (A : Type) (f : A -> bool) (l : list A) :
  forallb f l = true -> take_while f l = l.
Proof.
  induction l as [|y l IH]; cbn; [reflexivity|].
  intros H. apply andb_true_iff in H as [-> H]. now rewrite IH.
Qed.

(** Every entry a local scan returns describes an entry of the store. *)
Lemma list_files_local_In (w : World) (d : Path) (f : FileInfo) :
  In f (_list_files self w d LOCAL) ->
  exists seg rel n,
    path f = seg :: rel /\ In (d ++ seg :: rel, n) (local_fs w) /\
    f = mk_info (seg :: rel) (d ++ seg :: rel) n.
Proof.
  unfold _list_files, list_files_logged.
  destruct (os_path_isdir (local_fs w) d); [|intros []].
  rewrite walk_entries_prefix. cbn [fst].
  intros H. apply in_map_iff in H as [[[r p] n] [<- H]].
  apply take_while_In in H as [H _]. apply visited_below_In in H.
  apply entries_below_In in H as (seg & rel & H1 & H2 & H3). cbn in *. subst.
  exists seg, rel, n. auto.
Qed.

Lemma dict_get_set_same (k : Path) (v : FileInfo) (d : Dict) :
  dict_get k (dict_set k v d) = Some v.
Proof.
  induction d as [|[q u] d IH]; cbn.
  - now rewrite path_eqb_refl.
  - destruct (path_eqb q k) eqn:E; cbn; rewrite E; [reflexivity | exact IH].
Qed.

Lemma dict_get_set_other (k k' : Path) (v : FileInfo) (d : Dict) :
  k <> k' -> dict_get k' (dict_set k v d) = dict_get k' d.
Proof.
  intros Hne. induction d as [|[q u] d IH]; cbn.
  - apply path_eqb_neq in Hne. now rewrite Hne.
  - destruct (path_eqb q k) eqn:E; cbn.
    + apply path_eqb_eq in E. subst q. apply path_eqb_neq in Hne. now rewrite Hne.
    + destruct (path_eqb q k'); [reflexivity | exact IH].
Qed.

Lemma dict_fold_keeps_key (files : list FileInfo) (d : Dict) (k : Path) :
  dict_get k d <> None ->
  dict_get k (fold_left (fun d f => dict_set (path f) f d) files d) <> None.
Proof.
  revert d. induction files as [|f files IH]; intros d H; cbn [fold_left]; [assumption|].
  apply IH. destruct (path_eqb (path f) k) eqn:E.
  - apply path_eqb_eq in E. subst k. now rewrite dict_get_set_same.
  - apply path_eqb_neq in E. now rewrite dict_get_set_other.
Qed.

Lemma dict_of_list_has_key (files : list FileInfo) (f : FileInfo) :
  In f files -> dict_get (path f) (dict_of_list files) <> None.
Proof.
  unfold dict_of_list. generalize (@nil (Path * FileInfo)).
  induction files as [|g files IH]; intros d; [intros []|].
  intros [->|H]; cbn [fold_left].
  - apply dict_fold_keeps_key. now rewrite dict_get_set_same.
  - now apply IH.
Qed.

(** An entry of a local index describes the entry of the store at its path. *)
Lemma local_index_sound (w : World) (d rel : Path) (f : FileInfo) :
  NoDup (map fst (local_fs w)) ->
  dict_get rel (dict_of_list (_list_files self w d LOCAL)) = Some f ->
  exists n, rel <> [] /\ fs_lookup (d ++ rel) (local_fs w) = Some n /\
            f = mk_info rel (d ++ rel) n.
Proof.
  intros Hnd H. apply dict_get_Some_In in H. apply dict_of_list_In in H as [Hp H].
  apply list_files_local_In in H as (seg & r & n & Hpath & Hin & ->).
  cbn in Hp. subst rel. exists n. split; [discriminate|].
  split; [now apply In_fs_lookup | reflexivity].
Qed.

(** When the scan reads every entry below a directory, the index has
    every entry of the store below it. *)
Lemma local_index_complete (w : World) (d rel : Path) (n : Node) :
  NoDup (map fst (local_fs w)) ->
  os_path_isdir (local_fs w) d = true ->
  forallb (scan_reads (local_fs w) d) (entries_below d (local_fs w)) = true ->
  rel <> [] ->
  fs_lookup (d ++ rel) (local_fs w) = Some n ->
  dict_get rel (dict_of_list (_list_files self w d LOCAL)) =
    Some (mk_info rel (d ++ rel) n).
Proof.
  intros Hnd Hdir Hall Hrel Hl.
  assert (Hin : In (mk_info rel (d ++ rel) n) (_list_files self w d LOCAL)).
  { unfold _list_files, list_files_logged. rewrite Hdir, walk_entries_prefix.
    destruct (scan_reads_all _ _ Hall) as [Hvis Hok].
    cbn [fst]. rewrite Hvis, (take_while_all _ _ _ Hok).
    apply in_map_iff. exists (rel, d ++ rel, n). split; [reflexivity|].
    apply entries_below_In. destruct rel as [|seg r]; [congruence|].
    exists seg, r. cbn. repeat split. now apply fs_lookup_In. }
  apply dict_of_list_has_key in Hin. cbn [path mk_info] in Hin.
  destruct (dict_get rel (dict_of_list (_list_files self w d LOCAL))) as [f|] eqn:E;
    [|congruence].
  destruct (local_index_sound w d rel f Hnd E) as (n' & _ & Hl' & ->).
  congruence.
Qed.

Lemma walk_reaches_at_or_below (d : Path) (st : Store) (rel pre : Path) :
  walk_reaches (at_or_below d st) (d ++ pre) rel = walk_reaches st (d ++ pre) rel.
Proof.
  revert pre. induction rel as [|seg rel IH]; intro pre; [reflexivity|].
  cbn [walk_reaches]. unfold listable.
  rewrite (lookup_at_or_below d (d ++ pre) st (prefixb_app d pre)).
  rewrite <- app_assoc. now rewrite IH.
Qed.

Lemma walk_from_ext (all all' : Store) (d : Path) (st : Store) :
  (forall rel, walk_reaches all d rel = walk_reaches all' d rel) ->
  walk_from all d st = walk_from all' d st.
Proof.
  intro H. induction st as [|[p n] st IH]; [reflexivity|].
  cbn [walk_from]. destruct (os_path_relpath p d) as [[|seg rel]|]; try exact IH.
  now rewrite H, IH.
Qed.

Lemma walk_entries_at_or_below (d : Path) (st : Store) :
  walk_entries d (at_or_below d st) = walk_entries d st.
Proof.
  unfold walk_entries.
  rewrite (walk_from_ext (at_or_below d st) st d).
  2:{ intro rel. pose proof (walk_reaches_at_or_below d st rel []) as H.
      now rewrite app_nil_r in H. }
  unfold at_or_below. generalize st at 1 3 as all.
  intro all. induction st as [|[p n] st IH]; [reflexivity|].
  cbn [filter fst]. unfold prefixb at 1.
  destruct (os_path_relpath p d) as [r|] eqn:E.
  - cbn [walk_from]. rewrite E, IH. reflexivity.
  - cbn [walk_from]. rewrite E. exact IH.
Qed.

(** The scan of the source sees only the part of the store at and below
    the source. *)
Lemma list_files_source_same (w w' : World) :
  at_or_below (source self) (local_fs w') = at_or_below (source self) (local_fs w) ->
  _list_files self w' (source self) LOCAL = _list_files self w (source self) LOCAL.
Proof.
  intros Hsame. unfold _list_files, list_files_logged, os_path_isdir.
  rewrite (same_source_lookup (source self) _ _ Hsame (prefixb_refl _)).
  rewrite <- (walk_entries_at_or_below _ (local_fs w')),
          <- (walk_entries_at_or_below _ (local_fs w)), Hsame.
  reflexivity.
Qed.

Lemma source_index_same (w w' : World) :
  at_or_below (source self) (local_fs w') = at_or_below (source self) (local_fs w) ->
  source_index self w' = source_index self w.
Proof.
  intros Hsame. unfold source_index. rewrite Hsrc.
  now rewrite (list_files_source_same w w' Hsame).
Qed.

(** *** The comparator between the two runs *)

Lemma compare_files_same_reads (w w' : World) (sf : FileInfo) (df : option FileInfo)
  (sp dp : Path) :
  fs_lookup sp (local_fs w') = fs_lookup sp (local_fs w) ->
  fs_lookup dp (local_fs w') = fs_lookup dp (local_fs w) ->
  _compare_files md5_hexdigest self w' sf df sp dp =
  _compare_files md5_hexdigest self w sf df sp dp.
Proof.
  intros H1 H2. unfold _compare_files, _calculate_checksum, fs_read.
  rewrite Hsrc, Hdst. cbn [side_type]. now rewrite H1, H2.
Qed.

(** A file that has just been copied compares as identical. *)
Lemma compare_files_after_copy (w1 : World) (rel sp dp : Path) (n : Node) (stamp : Q) :
  fs_read (local_fs w1) sp = Some n ->
  fs_lookup dp (local_fs w1) = Some (new_file (n_data n) stamp) ->
  (n_mtime n <= stamp + 2)%Q ->
  _compare_files md5_hexdigest self w1 (mk_info rel sp n)
    (Some (mk_info rel dp (new_file (n_data n) stamp))) sp dp = SKIP.
Proof.
  intros Hread Hdest Hle.
  assert (Hk : n_kind n = KFile).
  { unfold fs_read in Hread. destruct (fs_lookup sp (local_fs w1)) as [m|]; [|discriminate].
    destruct (n_kind m) eqn:K; try discriminate.
    destruct (n_readable m); [|discriminate]. now injection Hread as <-. }
  unfold _compare_files, _calculate_checksum. rewrite Hsrc, Hdst. cbn [side_type].
  rewrite Hread. unfold fs_read. rewrite Hdest.
  cbn [mk_info size mtime new_file n_kind n_readable n_data n_mtime].
  unfold node_size. rewrite Hk.
  cbn [new_file n_kind n_data]. rewrite Z.eqb_refl. cbn [negb].
  apply float_gt_sum_false in Hle. rewrite Hle, andb_false_r, String.eqb_refl.
  cbn [negb]. rewrite andb_false_r. now destruct (use_checksum self).
Qed.

(** *** The head of [synchronize] *)

Lemma check_paths_local_ok (s s1 : State) :
  check_paths self s = (s1, true) ->
  stats s1 = stats s /\ clock (world s1) = clock (world s) /\
  at_or_below (source self) (local_fs (world s1)) =
    at_or_below (source self) (local_fs (world s)) /\
  (NoDup (map fst (local_fs (world s))) -> NoDup (map fst (local_fs (world s1)))) /\
  os_path_exists (local_fs (world s)) (source self) = true.
Proof.
  unfold check_paths, _path_exists. rewrite Hsrc, Hdst, Hmode.
  destruct (os_path_exists (local_fs (world s)) (source self)) eqn:Es;
    cbn [negb]; [|discriminate].
  destruct (os_path_exists (local_fs (world s)) (destination self));
    cbn [negb andb SyncMode_eqb].
  - intros [= <-]. auto.
  - destruct (_create_directory self (destination self) LOCAL s) as [ok s'] eqn:Ecd.
    intros [= <- ->]. apply create_directory_local_ok in Ecd.
    destruct Ecd as (Hadd & _ & Hclk & Hst).
    repeat split; auto.
    + unfold at_or_below.
      apply (adds_dirs_filter (prefixb (source self)) (destination self) _ _ Hadd).
      intros q _ Hq.
      apply (not_in_source_tree (destination self) q (prefixb_refl _) Hq).
    + apply (adds_dirs_NoDup _ _ _ Hadd).
Qed.

(** *** The destinations of a plan are pairwise different *)

Lemma NoDup_map_app_head (d : Path) (l : list Path) :
  NoDup l -> NoDup (map (app d) l).
Proof.
  induction l as [|x l IH]; cbn; [constructor|].
  intros H. inversion H as [|? ? Hx Hl]; subst. constructor; [|auto].
  intros Hin. apply in_map_iff in Hin as [y [Hy Hin]].
  apply app_inv_head in Hy. now subst.
Qed.

Lemma file_dests_of_items (items : Dict) :
  file_dests (map (copy_item self) items) =
  map (app (destination self))
    (map fst (filter (fun it : Path * FileInfo => negb (is_dir (snd it))) items)).
Proof.
  unfold file_dests. induction items as [|[rel sf] items IH]; [reflexivity|].
  cbn [map filter copy_item fst snd]. destruct (is_dir sf); cbn [negb map fst snd].
  - exact IH.
  - rewrite IH. unfold copy_item at 1. cbn [fst snd].
    now rewrite (dest_path_of_local self rel Hdst).
Qed.

Lemma in_copy_items (g : Path * FileInfo -> bool) (items : Dict) (it : CopyItem) :
  In it (map (copy_item self) (filter g items)) <->
  exists item, it = copy_item self item /\ In item items /\ g item = true.
Proof.
  rewrite in_map_iff. split.
  - intros [item [<- H]]. apply filter_In in H. eauto.
  - intros [item (-> & H1 & H2)]. exists item. split; [reflexivity|].
    now apply filter_In.
Qed.

Lemma source_item_facts (w : World) (rel : Path) (sf : FileInfo) :
  In (rel, sf) (source_index self w) ->
  exists n, rel <> [] /\ In (source self ++ rel, n) (local_fs w) /\
            sf = mk_info rel (source self ++ rel) n.
Proof.
  unfold source_index. rewrite Hsrc. intros H.
  apply dict_of_list_In in H as [Hp H]. apply filter_In in H as [H _].
  apply list_files_local_In in H as (seg & r & n & Hpath & Hin & ->).
  cbn in Hp. subst rel. exists n. split; [discriminate|]. auto.
Qed.

Lemma dest_index_sound (w : World) (rel : Path) (f : FileInfo) :
  NoDup (map fst (local_fs w)) ->
  dict_get rel (dest_index self w) = Some f ->
  exists n, rel <> [] /\ fs_lookup (destination self ++ rel) (local_fs w) = Some n /\
            f = mk_info rel (destination self ++ rel) n.
Proof.
  unfold dest_index. rewrite Hdst.
  destruct (_path_exists self w (destination self) LOCAL); [|discriminate].
  apply local_index_sound.
Qed.

Lemma isdir_exists (st : Store) (p : Path) :
  os_path_isdir st p = true -> os_path_exists st p = true.
Proof.
  unfold os_path_isdir, os_path_exists.
  destruct (fs_lookup p st) as [n|]; [|discriminate].
  now destruct (n_kind n).
Qed.

Lemma in_plan_file_dests (w : World) (rel : Path) :
  In (destination self ++ rel)
     (file_dests (to_copy (build_plan md5_hexdigest self w) ++
                  to_update (build_plan md5_hexdigest self w))) ->
  exists sf, In (rel, sf) (source_index self w) /\ is_dir sf = false /\
    (goes_copy md5_hexdigest self w (dest_index self w) (rel, sf) = true \/
     goes_update md5_hexdigest self w (dest_index self w) (rel, sf) = true).
Proof.
  rewrite build_plan_one_way. cbn [to_copy to_update].
  rewrite <- map_app, file_dests_of_items.
  intros H. apply in_map_iff in H as [rel' [Heq H]].
  apply app_inv_head in Heq. subst rel'.
  apply in_map_iff in H as [[rel' sf] [Heq H]]. cbn in Heq. subst rel'.
  apply filter_In in H as [H Hfile]. cbn in Hfile. apply negb_true_iff in Hfile.
  exists sf. apply in_app_or in H.
  destruct H as [H|H]; apply filter_In in H as [H Hg]; auto.
Qed.

Lemma plan_dests_NoDup (w : World) :
  NoDup (file_dests (to_copy (build_plan md5_hexdigest self w) ++
                     to_update (build_plan md5_hexdigest self w))).
Proof.
  rewrite build_plan_one_way. cbn [to_copy to_update].
  rewrite <- map_app, file_dests_of_items. apply NoDup_map_app_head.
  rewrite filter_app, map_app.
  pose proof (dict_of_list_NoDup
                (filter (fun f => _should_include_file self (path_str (path f)))
                   (_list_files self w (source self) (source_type self)))) as Hnd.
  fold (source_index self w) in Hnd.
  apply NoDup_app.
  - apply NoDup_keys_filter, NoDup_keys_filter, Hnd.
  - apply NoDup_keys_filter, NoDup_keys_filter, Hnd.
  - intros k H1 H2.
    apply in_map_iff in H1 as [[k1 v1] [E1 H1]]. cbn in E1. subst k1.
    apply in_map_iff in H2 as [[k2 v2] [E2 H2]]. cbn in E2. subst k2.
    apply filter_In in H1 as [H1 F1]. apply filter_In in H1 as [H1 G1].
    apply filter_In in H2 as [H2 F2]. apply filter_In in H2 as [H2 G2].
    pose proof (NoDup_keys_functional _ _ _ _ Hnd H1 H2) as <-.
    cbn in F1. apply negb_true_iff in F1.
    unfold goes_copy, goes_update in G1, G2. cbn [fst snd] in G1, G2.
    rewrite F1 in G1, G2.
    destruct (_compare_files md5_hexdigest self w v1 _ _ _); discriminate.
Qed.

(** *** After an error-free execution, nothing is left to do *)

Lemma second_plan_idle (s : State) :
  let wp := world s in
  let s' := execute self (build_plan md5_hexdigest self wp) s in
  let w1 := world s' in
  NoDup (map fst (local_fs wp)) ->
  errors (stats s') = errors (stats s) ->
  os_path_isdir (local_fs w1) (destination self) = true ->
  forallb (scan_reads (local_fs w1) (destination self))
    (entries_below (destination self) (local_fs w1)) = true ->
  (rich_console self = false ->
   forall rel f, In (rel, f) (source_index self wp) -> is_dir f = false ->
     os_path_isdir (local_fs w1) (destination self ++ rel) = false) ->
  (rich_console self = true ->
   forall rel f, In (rel, f) (source_index self wp) -> is_dir f = false ->
     (mtime f <= clock wp + 2)%Q) ->
  clock w1 = clock wp /\
  at_or_below (source self) (local_fs w1) = at_or_below (source self) (local_fs wp) /\
  forall item, In item (source_index self wp) ->
    goes_copy md5_hexdigest self w1 (dest_index self w1) item = false /\
    goes_update md5_hexdigest self w1 (dest_index self w1) item = false.
Proof.
  intros wp s' w1 Hnd He Hdir Hall Hclash Hclock.
  set (p1 := build_plan md5_hexdigest self wp) in *.
  assert (Hp1 := build_plan_one_way wp). fold p1 in Hp1.
  assert (Hcopy : to_copy p1 =
            map (copy_item self)
              (filter (goes_copy md5_hexdigest self wp (dest_index self wp))
                 (source_index self wp))) by now rewrite Hp1.
  assert (Hupd : to_update p1 =
            map (copy_item self)
              (filter (goes_update md5_hexdigest self wp (dest_index self wp))
                 (source_index self wp))) by now rewrite Hp1.
  assert (Hdel : to_delete p1 = []) by now rewrite Hp1.
  assert (Hitems : forall it, In it (to_copy p1 ++ to_update p1) ->
            exists rel sf, it = copy_item self (rel, sf) /\
                           In (rel, sf) (source_index self wp)).
  { intros it H. rewrite Hcopy, Hupd in H.
    apply in_app_or in H as [H|H]; apply in_copy_items in H as [[rel sf] (-> & H & _)];
      eauto. }
  assert (Hpre : forall it : CopyItem, In it (to_copy p1 ++ to_update p1) ->
            prefixb (destination self) (snd (fst it)) = true /\
            prefixb (source self) (fst (fst it)) = true).
  { intros it H. destruct (Hitems it H) as (rel & sf & -> & Hin).
    destruct (source_item_facts wp rel sf Hin) as (n & _ & _ & ->).
    unfold copy_item. cbn [fst snd full_path mk_info].
    rewrite (dest_path_of_local self rel Hdst).
    unfold os_path_join. split; apply prefixb_app. }
  assert (Hcl : rich_console self = false ->
            forall it : CopyItem, In it (to_copy p1 ++ to_update p1) -> snd it = false ->
              os_path_isdir (local_fs (world (execute self p1 s))) (snd (fst it)) = false).
  { intros Hc it H Hf. destruct (Hitems it H) as (rel & sf & -> & Hin).
    unfold copy_item in Hf |- *. cbn [fst snd] in Hf |- *.
    rewrite (dest_path_of_local self rel Hdst). apply (Hclash Hc rel sf Hin Hf). }
  destruct (execute_effect p1 s Hdel He Hpre (plan_dests_NoDup wp) Hcl)
    as (E1 & E2 & E3 & E4 & E5 & E6).
  fold s' in E1, E2, E3, E4, E5, E6. fold w1 in E1, E2, E3, E4, E5, E6.
  fold wp in E1, E2, E3, E4, E5, E6.
  split; [exact E1|]. split; [exact E2|].
  assert (Hnd1 : NoDup (map fst (local_fs w1))) by auto.
  assert (Hdf2 : dest_index self w1 =
                 dict_of_list (_list_files self w1 (destination self) LOCAL)).
  { unfold dest_index, _path_exists. rewrite Hdst.
    now rewrite (isdir_exists _ _ Hdir). }
  assert (Hkeys : NoDup (map fst (source_index self wp))) by apply dict_of_list_NoDup.
  intros [rel sf] Hin.
  destruct (source_item_facts wp rel sf Hin) as (n & Hrel & HinL & Hsf).
  pose proof (In_fs_lookup _ _ _ Hnd HinL) as Hlp.
  assert (Hl1 : fs_lookup (source self ++ rel) (local_fs w1) = Some n).
  { rewrite (same_source_lookup _ _ _ E2 (prefixb_app _ _)). exact Hlp. }
  (* a destination entry the first run did not write is what it was *)
  assert (Hkept : forall m,
            goes_copy md5_hexdigest self wp (dest_index self wp) (rel, sf) = false \/
              is_dir sf = true ->
            goes_update md5_hexdigest self wp (dest_index self wp) (rel, sf) = false ->
            fs_lookup (destination self ++ rel) (local_fs wp) = Some m ->
            fs_lookup (destination self ++ rel) (local_fs w1) = Some m).
  { intros m Hgc Hgu Hm. apply E4; [assumption|]. intros Hd.
    apply in_plan_file_dests in Hd as (sf' & Hin' & Hfile & Hg).
    pose proof (NoDup_keys_functional _ _ _ _ Hkeys Hin Hin') as <-.
    destruct Hgc as [Hgc|Hgc]; [|congruence].
    destruct Hg; congruence. }
  unfold goes_copy at 1, goes_update at 1. cbn [fst snd].
  rewrite (dest_path_of_local self rel Hdst).
  destruct (is_dir sf) eqn:Ed.
  - (* a directory *)
    split; [|reflexivity].
    assert (Hex : exists m, fs_lookup (destination self ++ rel) (local_fs w1) = Some m).
    { destruct (dict_get rel (dest_index self wp)) as [d0|] eqn:Eg.
      - destruct (dest_index_sound wp rel d0 Hnd Eg) as (n0 & _ & Hn0 & _).
        exists n0. apply Hkept; auto.
        unfold goes_update. cbn [fst snd]. now rewrite Ed.
      - assert (Hto : In (full_path sf, os_path_join (destination self) rel, true)
                         (to_copy p1)).
        { rewrite Hcopy. apply in_copy_items. exists (rel, sf).
          unfold copy_item. cbn [fst snd].
          rewrite Ed, (dest_path_of_local self rel Hdst). split; [reflexivity|].
          split; [assumption|]. unfold goes_copy. cbn [fst snd]. now rewrite Ed, Eg. }
        apply E6 in Hto. unfold os_path_isdir, os_path_join in Hto.
        destruct (fs_lookup (destination self ++ rel) (local_fs w1)) as [m|];
          [eauto | discriminate]. }
    destruct Hex as [m Hm].
    rewrite Hdf2, (local_index_complete w1 _ rel m Hnd1 Hdir Hall Hrel Hm).
    reflexivity.
  - (* a file *)
    assert (Hskip :
      _compare_files md5_hexdigest self w1 sf (dict_get rel (dest_index self w1))
        (full_path sf) (os_path_join (destination self) rel) <> COPY /\
      _compare_files md5_hexdigest self w1 sf (dict_get rel (dest_index self w1))
        (full_path sf) (os_path_join (destination self) rel) <> UPDATE).
    { destruct (goes_copy md5_hexdigest self wp (dest_index self wp) (rel, sf)
                || goes_update md5_hexdigest self wp (dest_index self wp) (rel, sf))
        eqn:Eg.
      - (* copied or updated by the first run *)
        assert (Hto : In (source self ++ rel, destination self ++ rel, false)
                         (to_copy p1 ++ to_update p1)).
        { rewrite Hcopy, Hupd. apply orb_true_iff in Eg.
          apply in_or_app. destruct Eg as [Eg|Eg]; [left|right];
            apply in_copy_items; exists (rel, sf); unfold copy_item; cbn [fst snd];
            rewrite Ed, (dest_path_of_local self rel Hdst); unfold os_path_join;
            subst sf; cbn [full_path mk_info]; auto. }
        destruct (E5 _ _ Hto) as (n' & Hr' & Hw).
        assert (n' = n).
        { unfold fs_read in Hr'. rewrite Hlp in Hr'.
          destruct (n_kind n); try discriminate.
          destruct (n_readable n); [|discriminate]. now injection Hr'. }
        subst n'.
        assert (Hr1 : fs_read (local_fs w1) (source self ++ rel) = Some n).
        { unfold fs_read in *. rewrite Hl1. rewrite Hlp in Hr'. exact Hr'. }
        rewrite Hdf2, (local_index_complete w1 _ rel _ Hnd1 Hdir Hall Hrel Hw).
        rewrite Hsf. cbn [full_path mk_info]. unfold os_path_join.
        rewrite (compare_files_after_copy w1 rel _ _ n _ Hr1 Hw);
          [split; discriminate|].
        unfold copy_stamp. destruct (rich_console self) eqn:Ec.
        + pose proof (Hclock eq_refl rel sf Hin Ed) as Hle.
          rewrite Hsf in Hle. cbn [mtime mk_info] in Hle. exact Hle.
        + lra.
      - (* left alone by the first run *)
        apply orb_false_iff in Eg as [Egc Egu].
        destruct (dict_get rel (dest_index self wp)) as [d0|] eqn:Eg0.
        2:{ exfalso. unfold goes_copy in Egc. cbn [fst snd] in Egc.
            rewrite Ed, Eg0 in Egc. cbn in Egc. discriminate. }
        destruct (dest_index_sound wp rel d0 Hnd Eg0) as (n0 & _ & Hn0 & Hd0).
        pose proof (Hkept n0 (or_introl Egc) Egu Hn0) as Hn1.
        rewrite Hdf2, (local_index_complete w1 _ rel n0 Hnd1 Hdir Hall Hrel Hn1).
        rewrite <- Hd0.
        rewrite (compare_files_same_reads wp w1 sf (Some d0) (full_path sf)
                   (os_path_join (destination self) rel)).
        + unfold goes_copy in Egc. unfold goes_update in Egu.
          cbn [fst snd] in Egc, Egu.
          rewrite Ed, Eg0, (dest_path_of_local self rel Hdst) in Egc, Egu.
          destruct (_compare_files md5_hexdigest self wp sf (Some d0) (full_path sf)
                      (os_path_join (destination self) rel));
            split; discriminate.
        + rewrite Hsf. cbn [full_path mk_info]. congruence.
        + unfold os_path_join. congruence. }
    destruct Hskip as [Hc Hu].
    destruct (_compare_files md5_hexdigest self w1 sf (dict_get rel (dest_index self w1))
                (full_path sf) (os_path_join (destination self) rel));
      split; congruence.
Qed.

Lemma filter_none (A : Type) (f : A -> bool) (l : list A) :
  (forall x, In x l -> f x = false) -> filter f l = [].
Proof.
  induction l as [|x l IH]; [reflexivity|]. intros H. cbn.
  rewrite (H x (or_introl eq_refl)). apply IH. intros y Hy. apply H. now right.
Qed.

(** C9 (as the code has it).  Take a one-way run between two local trees
    that lie apart, with [dry_run] and [backup] off, on a store whose paths
    are pairwise different, and let it end without an error.  Run
    [synchronize] again in the world the first run leaves, the source
    untouched in between.  Suppose the second scan of the destination reads
    every entry of an existing directory (the walk comes to each, none lies
    below a directory that cannot be listed, and [os.stat] succeeds on
    each); that, when the copies keep the
    source's times ([shutil.copy2]), no file of the source index meets a
    directory at its destination path; and that, when the copies are
    stamped by the clock (the progress-bar loop), no file of the source
    index is more than two seconds ahead of the clock.  Then the second run
    plans whenever the first did, its plan holds no copy, no update and no
    deletion, every file of the source index is in its skipped list, and it
    ends with [copied], [updated] and [deleted] at zero. *)
Theorem one_way_second_run_idle (w : World) :
  NoDup (map fst (local_fs w)) ->
  let first := run md5_hexdigest self w in
  let w1 := world (final first) in
  let second := run md5_hexdigest self w1 in
  errors (stats (final first)) = 0%Z ->
  os_path_isdir (local_fs w1) (destination self) = true ->
  forallb (scan_reads (local_fs w1) (destination self))
    (entries_below (destination self) (local_fs w1)) = true ->
  (rich_console self = false ->
   forall rel f, In (rel, f) (source_index self w) -> is_dir f = false ->
     os_path_isdir (local_fs w1) (destination self ++ rel) = false) ->
  (rich_console self = true ->
   forall rel f, In (rel, f) (source_index self w) -> is_dir f = false ->
     (mtime f <= clock w + 2)%Q) ->
  (planned first <> None -> planned second <> None)
  /\
  (forall p, planned second = Some p ->
     to_copy p = [] /\ to_update p = [] /\ to_delete p = [] /\
     skipped_paths p =
       map fst (filter (fun it : Path * FileInfo => negb (is_dir (snd it)))
                  (source_index self w1)))
  /\
  copied (stats (final second)) = 0%Z /\
  updated (stats (final second)) = 0%Z /\
  deleted (stats (final second)) = 0%Z.
Proof.
  intros Hnd first w1 second Herr Hdir Hall Hclash Hclock.
  (* the tallies follow from the plan *)
  assert (Htallies :
    (forall p, planned second = Some p -> to_copy p = [] /\ to_update p = [] /\
               to_delete p = []) ->
    copied (stats (final second)) = 0%Z /\ updated (stats (final second)) = 0%Z /\
    deleted (stats (final second)) = 0%Z).
  { intros Hp. subst second.
    destruct (run_outcome md5_hexdigest self w1) as [(_ & _ & Hs)|(s1 & Hs1 & Hpl & Hf)].
    - destruct Hs as [-> | ->]; auto.
    - destruct (Hp _ Hpl) as (Hc & Hu & Hd). rewrite Hf.
      destruct (execute_advanced self (build_plan md5_hexdigest self (world s1))
                  (with_stats (add_conflicts (conflicts_counted
                     (build_plan md5_hexdigest self (world s1)))) s1))
        as (st & -> & Hadv).
      destruct Hadv as (_ & _ & _ & A & B & C & _).
      rewrite Hc, Hu, Hd in *. cbn [with_stats stats] in *. rewrite Hs1 in *.
      cbn in *. lia. }
  subst first second w1. unfold run, synchronize in *.
  set (s0 := {| stats := fresh_stats; world := w |}) in *.
  destruct (check_paths self s0) as [s1 ok] eqn:Ecp. destruct ok.
  - (* the first run planned and executed *)
    cbn [negb final planned] in *.
    destruct (check_paths_local_ok s0 s1 Ecp) as (Hst & Hclk & Hsame & HndP & HexS).
    set (p1 := build_plan md5_hexdigest self (world s1)) in *.
    set (s2 := with_stats (add_conflicts (conflicts_counted p1)) s1) in *.
    set (w1 := world (execute self p1 s2)) in *.
    assert (He : errors (stats (execute self p1 s2)) = errors (stats s2)).
    { rewrite Herr. subst s2. cbn [with_stats stats add_conflicts errors].
      now rewrite Hst. }
    assert (Hidx : source_index self (world s1) = source_index self w).
    { apply source_index_same. exact Hsame. }
    destruct (second_plan_idle s2 (HndP Hnd) He Hdir Hall)
      as (E1 & E2 & Hidle).
    { intros Hc rel f Hin. apply (Hclash Hc). change (world s2) with (world s1) in Hin.
      now rewrite Hidx in Hin. }
    { intros Hc rel f Hin Hf. change (world s2) with (world s1) in *.
      rewrite Hclk. apply (Hclock Hc rel f); [now rewrite <- Hidx | assumption]. }
    change (world s2) with (world s1) in *. fold p1 in E1, E2, Hidle.
    fold w1 in E1, E2, Hidle.
    assert (Hcp2 : check_paths self {| stats := fresh_stats; world := w1 |} =
                   ({| stats := fresh_stats; world := w1 |}, true)).
    { unfold check_paths, _path_exists. rewrite Hsrc, Hdst. cbn [world].
      rewrite (isdir_exists _ _ Hdir). cbn [negb andb].
      replace (os_path_exists (local_fs w1) (source self)) with true; [reflexivity|].
      symmetry. unfold os_path_exists in *.
      rewrite (same_source_lookup _ _ _ E2 (prefixb_refl _)).
      rewrite (same_source_lookup _ _ _ Hsame (prefixb_refl _)). exact HexS. }
    rewrite Hcp2 in *. cbn [negb final planned world] in *.
    assert (Hidx1 : source_index self w1 = source_index self (world s1)).
    { apply source_index_same. exact E2. }
    assert (Hplan : forall p, Some (build_plan md5_hexdigest self w1) = Some p ->
              to_copy p = [] /\ to_update p = [] /\ to_delete p = [] /\
              skipped_paths p =
                map fst (filter (fun it : Path * FileInfo => negb (is_dir (snd it)))
                           (source_index self w1))).
    { intros p [= <-]. rewrite build_plan_one_way.
      cbn [to_copy to_update to_delete skipped_paths]. rewrite Hidx1.
      rewrite (filter_none _ _ _ (fun x H => proj1 (Hidle x H))).
      rewrite (filter_none _ _ _ (fun x H => proj2 (Hidle x H))).
      repeat split. f_equal. apply filter_ext_in.
      intros item Hin. destruct (Hidle item Hin) as [Hc Hu].
      unfold goes_copy, goes_update, goes_skipped in *.
      destruct (is_dir (snd item)); [reflexivity|].
      destruct (_compare_files md5_hexdigest self w1 (snd item) _ _ _);
        try reflexivity; discriminate. }
    split; [intros _; discriminate|]. split; [exact Hplan|].
    apply Htallies. intros p Hp. destruct (Hplan p Hp) as (? & ? & ? & _). auto.
  - (* the first run stopped at the checks *)
    cbn [negb final planned] in *.
    assert (Hs1 : s1 = s0).
    { unfold check_paths in Ecp.
      destruct (negb (_path_exists self (world s0) (source self) (source_type self)));
        [now injection Ecp|].
      destruct (_ && _); [|discriminate].
      pose proof (create_directory_stats self (destination self) (dest_type self) s0) as H.
      destruct (_create_directory self (destination self) (dest_type self) s0)
        as [ok s1'].
      injection Ecp as -> ->. cbn [fst snd] in H.
      destruct H as [[H _]|[_ H]]; [discriminate|].
      rewrite H in Herr. cbn in Herr. discriminate. }
    subst s1. cbn [world s0] in *. fold s0 in Htallies |- *. rewrite Ecp in *.
    cbn [negb final planned] in *.
    split; [intros H; now elim H|]. split; [intros p; discriminate|].
    apply Htallies. intros p; discriminate.
Qed.

End LocalRun.

Lemma one_way_second_run_idle_witness :
  let w1 := world (final (run sample_digest timestamp_syncer world_b)) in
  planned (run sample_digest timestamp_syncer w1) <> None
  /\
  copied (stats (final (run sample_digest timestamp_syncer w1))) = 0%Z /\
  updated (stats (final (run sample_digest timestamp_syncer w1))) = 0%Z /\
  deleted (stats (final (run sample_digest timestamp_syncer w1))) = 0%Z.
Proof.
  intros w1.
  assert (Hnd : NoDup (map fst (local_fs world_b))).
  { cbn. repeat constructor; cbn; intuition discriminate. }
  assert (Hclash : rich_console timestamp_syncer = false ->
            forall rel f, In (rel, f) (source_index timestamp_syncer world_b) ->
              is_dir f = false ->
              os_path_isdir
                (local_fs (world (final (run sample_digest timestamp_syncer world_b))))
                (destination timestamp_syncer ++ rel) = false).
  { intros _ rel f Hin _. vm_compute in Hin.
    destruct Hin as [Hin|[]]. injection Hin as <- _. reflexivity. }
  destruct (one_way_second_run_idle sample_digest timestamp_syncer
              eq_refl eq_refl eq_refl eq_refl eq_refl eq_refl eq_refl
              world_b Hnd eq_refl eq_refl eq_refl Hclash
              (fun H : rich_console timestamp_syncer = true =>
                 False_ind _ (Bool.diff_false_true H)))
    as (Hplanned & _ & Htallies).
  split; [apply Hplanned; discriminate | exact Htallies].
Defined.

(** C9, the counterexample: a dry first run ends without an error and
    leaves the destination empty, so the second run plans the copy of
    [a.txt] again. *)
Lemma second_run_idle_fails :
  ~ second_run_idle sample_digest (set_dry_run true (plain_syncer ONE_WAY)) world_a.
Proof.
  unfold second_run_idle. intros H.
  destruct (H eq_refl eq_refl _ eq_refl) as [Hcopy _].
  vm_compute in Hcopy. discriminate.
Qed.

(* ================================================================= *)
(** * Further properties of the methods *)

(* ================================================================= *)
(** ** More on the filter *)

Lemma list_ascii_app (a b : string) :
  list_ascii_of_string (a ++ b) = list_ascii_of_string a ++ list_ascii_of_string b.
Proof. induction a as [|c a IH]; simpl; [reflexivity|now rewrite IH]. Qed.

Lemma list_ascii_inj (a b : string) :
  list_ascii_of_string a = list_ascii_of_string b -> a = b.
Proof.
  intro H. rewrite <- (string_of_list_ascii_of_string a), H.
  apply string_of_list_ascii_of_string.
Qed.

Lemma translate_plain (p rest : list ascii) (fuel : nat) :
  forallb plain_char p = true ->
  Fnmatch.translate (List.length p + fuel) (p ++ rest) =
  map Fnmatch.TLit p ++ Fnmatch.translate fuel rest.
Proof.
  induction p as [|c p IH]; intro H; [reflexivity|].
  cbn [forallb] in H. apply andb_true_iff in H. destruct H as [Hc Hp].
  cbn [List.length Nat.add app Fnmatch.translate map].
  unfold plain_char in Hc. apply negb_true_iff in Hc.
  apply orb_false_iff in Hc. destruct Hc as [Hc H3].
  apply orb_false_iff in Hc. destruct Hc as [H1 H2].
  rewrite H1, H2, H3, (IH Hp). reflexivity.
Qed.

Lemma match_plain_prefix (p : list ascii) (ts : list Fnmatch.Tok) (s : list ascii) :
  Fnmatch.match_toks (map Fnmatch.TLit p ++ ts) (p ++ s) = Fnmatch.match_toks ts s.
Proof.
  induction p as [|c p IH]; [reflexivity|].
  cbn [map app Fnmatch.match_toks Fnmatch.tok_accepts].
  now rewrite Ascii.eqb_refl, IH.
Qed.

Lemma match_plain (p s : list ascii) :
  Fnmatch.match_toks (map Fnmatch.TLit p) s = true <-> s = p.
Proof.
  revert s. induction p as [|c p IH]; intro s.
  - destruct s; simpl; split; congruence.
  - destruct s as [|d s]; cbn [map Fnmatch.match_toks Fnmatch.tok_accepts].
    + split; discriminate.
    + rewrite andb_true_iff, Ascii.eqb_eq, IH. split.
      * now intros [-> ->].
      * intros [= -> ->]. auto.
Qed.

Lemma match_star_unfold (ts : list Fnmatch.Tok) (s : list ascii) :
  Fnmatch.match_toks (Fnmatch.TStar :: ts) s =
  Fnmatch.match_toks ts s ||
  match s with
  | [] => false
  | _ :: s' => Fnmatch.match_toks (Fnmatch.TStar :: ts) s'
  end.
Proof. destruct s; reflexivity. Qed.

Lemma match_star_skip (ts : list Fnmatch.Tok) (mid s : list ascii) :
  Fnmatch.match_toks ts s = true ->
  Fnmatch.match_toks (Fnmatch.TStar :: ts) (mid ++ s) = true.
Proof.
  intro H. induction mid as [|c mid IH].
  - rewrite match_star_unfold. cbn [app]. now rewrite H.
  - rewrite match_star_unfold. cbn [app]. rewrite IH. apply orb_true_r.
Qed.

Lemma fnmatch_literal (name pat : string) :
  literal_pattern pat = true -> (fnmatch name pat = true <-> name = pat).
Proof.
  intro H. unfold fnmatch, Fnmatch.fnmatch. cbv zeta.
  pose proof (translate_plain (list_ascii_of_string pat) [] 0 H) as T.
  rewrite Nat.add_0_r, app_nil_r in T. rewrite T.
  cbn [Fnmatch.translate]. rewrite app_nil_r, match_plain. split.
  - apply list_ascii_inj.
  - now intros ->.
Qed.

Lemma fnmatch_star_between (a b mid : string) :
  literal_pattern a = true -> literal_pattern b = true ->
  fnmatch (a ++ mid ++ b) (a ++ "*" ++ b) = true.
Proof.
  intros Ha Hb. unfold fnmatch, Fnmatch.fnmatch. cbv zeta.
  rewrite !list_ascii_app. cbn [list_ascii_of_string].
  set (la := list_ascii_of_string a). set (lb := list_ascii_of_string b).
  set (lm := list_ascii_of_string mid).
  rewrite length_app. cbn [app List.length].
  rewrite (translate_plain la ("*"%char :: lb) (S (List.length lb)) Ha).
  cbn [Fnmatch.translate]. cbn [Ascii.eqb Bool.eqb].
  pose proof (translate_plain lb [] 0 Hb) as T.
  rewrite Nat.add_0_r, app_nil_r in T. rewrite T. cbn [Fnmatch.translate].
  rewrite app_nil_r, match_plain_prefix.
  apply match_star_skip. now apply match_plain.
Qed.

Lemma has_slash_app (a b : string) :
  has_slash (a ++ "/" ++ b) = true.
Proof.
  induction a as [|c a IH]; [reflexivity|].
  cbn [append has_slash]. cbn [append] in IH. rewrite IH. apply orb_true_r.
Qed.

Lemma basename_join (d x : string) :
  has_slash x = false -> os_path_basename (d ++ "/" ++ x) = x.
Proof.
  intro Hx. induction d as [|c d IH].
  - cbn [append os_path_basename]. rewrite Hx. reflexivity.
  - change ((String c d ++ "/" ++ x)%string) with (String c (d ++ "/" ++ x)).
    cbn [os_path_basename]. rewrite has_slash_app. exact IH.
Qed.

Lemma matches_any_literal (p : string) (patterns : list string) :
  forallb literal_pattern patterns = true ->
  (matches_any p patterns = true <->
   In p patterns \/ In (os_path_basename p) patterns).
Proof.
  intro Hlit. rewrite matches_any_true. rewrite forallb_forall in Hlit. split.
  - intros [pat [Hin [H|H]]]; apply (fnmatch_literal _ pat (Hlit pat Hin)) in H;
      subst pat; auto.
  - intros [H|H]; eexists; (split; [exact H|]).
    + left. now apply fnmatch_literal; [apply Hlit|].
    + right. now apply fnmatch_literal; [apply Hlit|].
Qed.

(** Exclude patterns without wildcard characters name entries, not
    subtrees: with no include pattern, a path is filtered out exactly when
    the whole path or its last component is one of the patterns.  What lies
    below a directory of an excluded name is kept, unless its own name is
    excluded too. *)
Theorem literal_excludes_name_entries_only (self : FileSyncer) (p : string) :
  forallb literal_pattern (exclude_patterns self) = true ->
  include_patterns self = [] ->
  (_should_include_file self p = false <->
   In p (exclude_patterns self) \/ In (os_path_basename p) (exclude_patterns self))
  /\
  (forall dir x : string,
     has_slash x = false ->
     ~ In x (exclude_patterns self) ->
     ~ In (dir ++ "/" ++ x)%string (exclude_patterns self) ->
     _should_include_file self (dir ++ "/" ++ x) = true).
Proof.
  intros Hlit Hinc.
  assert (Hiff : forall q, _should_include_file self q = false <->
                 In q (exclude_patterns self) \/
                 In (os_path_basename q) (exclude_patterns self)).
  { intro q. rewrite <- (matches_any_literal q _ Hlit).
    unfold _should_include_file. rewrite Hinc.
    destruct (matches_any q (exclude_patterns self)); split; congruence. }
  split; [apply Hiff|].
  intros dir x Hx H1 H2.
  destruct (_should_include_file self (dir ++ "/" ++ x)) eqn:E; [reflexivity|].
  apply Hiff in E. rewrite (basename_join dir x Hx) in E. tauto.
Qed.

Lemma literal_excludes_name_entries_only_witness :
  let self := with_patterns ["build"] [] (plain_syncer ONE_WAY) in
  _should_include_file self "build" = false /\
  _should_include_file self "build/x.o" = true.
Proof.
  intro self.
  destruct (literal_excludes_name_entries_only self "build" eq_refl eq_refl)
    as [Hiff Hbelow].
  split.
  - apply Hiff. left. left. reflexivity.
  - apply (Hbelow "build" "x.o" eq_refl).
    + intros [H|[]]. discriminate.
    + intros [H|[]]. discriminate.
Defined.

(** The star of a pattern runs across slashes: an exclude pattern made of
    a literal head, one star and a literal tail filters out every path that
    starts with the head and ends with the tail, at any depth ([*.tmp]
    every path ending in [.tmp], [build/*] everything below [build]). *)
Theorem star_exclude_reaches_any_depth (self : FileSyncer) (a b mid : string) :
  literal_pattern a = true -> literal_pattern b = true ->
  In (a ++ "*" ++ b)%string (exclude_patterns self) ->
  _should_include_file self (a ++ mid ++ b) = false.
Proof.
  intros Ha Hb Hin. unfold _should_include_file.
  assert (H : matches_any (a ++ mid ++ b) (exclude_patterns self) = true).
  { apply matches_any_true. exists (a ++ "*" ++ b)%string. split; [exact Hin|].
    left. now apply fnmatch_star_between. }
  now rewrite H.
Qed.

Lemma star_exclude_reaches_any_depth_witness :
  _should_include_file (with_patterns ["build/*"] [] (plain_syncer ONE_WAY))
    "build/obj/deep/x.o" = false.
Proof.
  apply (star_exclude_reaches_any_depth
           (with_patterns ["build/*"] [] (plain_syncer ONE_WAY))
           "build/" "" "obj/deep/x.o" eq_refl eq_refl).
  left. reflexivity.
Defined.

Lemma matches_any_incl (p : string) (l l' : list string) :
  incl l l' -> matches_any p l = true -> matches_any p l' = true.
Proof.
  intros Hi H. apply matches_any_true in H. destruct H as [pat [Hin H]].
  apply matches_any_true. exists pat. split; [now apply Hi|exact H].
Qed.

(** The filter reads its two pattern lists as sets, and it only loosens
    when exclude patterns are dropped or include patterns are added to a
    list that is not empty: a path that passed keeps passing.  Adding the
    first include pattern is the one change of that kind that can filter a
    path out. *)
Theorem filter_monotone_in_patterns (self : FileSyncer)
  (ex1 ex2 in1 in2 : list string) (p : string) :
  incl ex2 ex1 ->
  in2 = [] \/ (in1 <> [] /\ incl in1 in2) ->
  _should_include_file (with_patterns ex1 in1 self) p = true ->
  _should_include_file (with_patterns ex2 in2 self) p = true.
Proof.
  intros Hex Hin. unfold _should_include_file, with_patterns.
  cbn [exclude_patterns include_patterns].
  destruct (matches_any p ex1) eqn:E1; [discriminate|].
  destruct (matches_any p ex2) eqn:E2.
  { rewrite (matches_any_incl p ex2 ex1 Hex E2) in E1. discriminate. }
  destruct Hin as [-> | [Hne Hsub]]; [reflexivity|].
  destruct in1 as [|x in1]; [congruence|]. intro H.
  pose proof (matches_any_incl p _ _ Hsub H) as H2.
  destruct in2; [reflexivity|exact H2].
Qed.

Lemma filter_monotone_in_patterns_witness :
  _should_include_file
    (with_patterns ["*.tmp"] ["*.py"; "*.txt"] (plain_syncer ONE_WAY)) "lib/m.py" = true.
Proof.
  apply (filter_monotone_in_patterns (plain_syncer ONE_WAY)
           ["*.tmp"; "*.bak"] ["*.tmp"] ["*.py"] ["*.py"; "*.txt"] "lib/m.py").
  - intros x [<-|[]]. left. reflexivity.
  - right. split; [discriminate|]. intros x [<-|[]]. left. reflexivity.
  - reflexivity.
Defined.

(* ================================================================= *)
(** ** The records of a scan *)

Lemma entries_below_keys_NoDup (d : Path) (st : Store) :
  NoDup (map fst st) ->
  NoDup (map (fun e : Path * Path * Node => fst (fst e)) (entries_below d st)).
Proof.
  induction st as [|[k n] st IH]; intro H; [constructor|].
  cbn [map fst] in H. inversion H as [|? ? Hk Hnd]; subst.
  unfold entries_below. cbn [flat_map fst snd]. fold (entries_below d st).
  destruct (os_path_relpath k d) as [[|seg rel]|] eqn:E; cbn [app map]; try now apply IH.
  constructor; [|now apply IH].
  intro Hin. apply in_map_iff in Hin. destruct Hin as [e [He Hin]].
  apply entries_below_In in Hin. destruct Hin as [seg' [rel' [H1 [H2 H3]]]].
  apply relpath_Some in E. apply Hk.
  apply in_map_iff. exists (snd (fst e), snd e). split; [|exact H3].
  cbn [fst]. rewrite H2, <- H1, He. now symmetry.
Qed.

Lemma NoDup_map_filter (A B : Type) (g : A -> B) (f : A -> bool) (l : list A) :
  NoDup (map g l) -> NoDup (map g (filter f l)).
Proof.
  induction l as [|x l IH]; intro H; [constructor|].
  cbn [map] in H. inversion H as [|? ? Hx Hnd]; subst.
  cbn [filter]. destruct (f x); [|now apply IH].
  cbn [map]. constructor; [|now apply IH].
  intro Hin. apply Hx. apply in_map_iff in Hin. destruct Hin as [y [Hy Hin]].
  apply filter_In in Hin. apply in_map_iff. exists y. tauto.
Qed.

Lemma take_while_prefix (A : Type) (f : A -> bool) (l : list A) :
  exists rest, l = take_while f l ++ rest.
Proof.
  induction l as [|x l [rest IH]]; [now exists []|].
  cbn [take_while]. destruct (f x).
  - exists rest. cbn [app]. now rewrite <- IH.
  - now exists (x :: l).
Qed.

Lemma NoDup_app_left (A : Type) (l l' : list A) : NoDup (l ++ l') -> NoDup l.
Proof.
  induction l as [|x l IH]; intro H; [constructor|].
  cbn [app] in H. inversion H as [|? ? Hx Hnd]; subst. constructor.
  - intro Hin. apply Hx. apply in_or_app. now left.
  - now apply IH.
Qed.

(** The records of a local scan.  Each one stands for an entry of the
    tree that [os.stat] could read: its path is relative and not empty,
    joining it to the scanned directory gives back the full path (and
    [relpath] takes it off again), a directory is reported with size 0 and
    a file with the length of its contents.  No relative path is reported
    twice, so the index built from the records loses none of them. *)
Theorem local_scan_records (self : FileSyncer) (w : World) (directory : Path) :
  (forall f : FileInfo,
     In f (_list_files self w directory LOCAL) ->
     path f <> [] /\
     full_path f = os_path_join directory (path f) /\
     os_path_relpath (full_path f) directory = Some (path f) /\
     exists n : Node,
       In (full_path f, n) (local_fs w) /\
       is_KDangling (n_kind n) = false /\
       is_dir f = is_KDir (n_kind n) /\
       mtime f = n_mtime n /\
       size f = (if is_dir f then 0%Z else Z.of_nat (String.length (n_data n)))%Z)
  /\
  (NoDup (map fst (local_fs w)) ->
   NoDup (map path (_list_files self w directory LOCAL)) /\
   List.length (dict_of_list (_list_files self w directory LOCAL)) =
   List.length (_list_files self w directory LOCAL)).
Proof.
  assert (Hscan : _list_files self w directory LOCAL = [] \/
                  _list_files self w directory LOCAL =
                  map info_of (take_while stat_ok (visited_below directory (local_fs w)))).
  { unfold _list_files, list_files_logged.
    destruct (os_path_isdir (local_fs w) directory); [|now left].
    right. rewrite walk_entries_prefix. reflexivity. }
  split.
  - intros f Hf. destruct Hscan as [E|E]; rewrite E in Hf; [destruct Hf|].
    apply in_map_iff in Hf. destruct Hf as [[[rel full] n] [<- He]].
    apply take_while_In in He. destruct He as [He Hok].
    apply visited_below_In in He.
    apply entries_below_In in He. cbn [fst snd] in He.
    destruct He as [seg [r [-> [-> Hin]]]].
    unfold info_of, mk_info. cbn [fst snd path full_path is_dir mtime size].
    split; [discriminate|]. split; [reflexivity|]. split; [apply relpath_app|].
    exists n. split; [exact Hin|].
    unfold stat_ok in Hok. cbn [snd] in Hok. apply negb_true_iff in Hok.
    split; [exact Hok|]. split; [reflexivity|]. split; [reflexivity|].
    unfold node_size. destruct (n_kind n); try reflexivity; discriminate.
  - intro Hnd.
    assert (Hpaths : NoDup (map path (_list_files self w directory LOCAL))).
    { destruct Hscan as [E|E]; rewrite E; [constructor|].
      rewrite map_map.
      destruct (take_while_prefix _ stat_ok (visited_below directory (local_fs w)))
        as [rest Hrest].
      pose proof (entries_below_keys_NoDup directory (local_fs w) Hnd) as H.
      apply (NoDup_map_filter _ _ _
               (fun e : Path * Path * Node =>
                  walk_reaches (local_fs w) directory (fst (fst e)))) in H.
      fold (visited_below directory (local_fs w)) in H.
      rewrite Hrest, map_app in H. apply NoDup_app_left in H.
      exact H. }
    split; [exact Hpaths|].
    unfold dict_of_list.
    assert (Hfold : forall (files : list FileInfo) (d : Dict),
              NoDup (map fst d ++ map path files) ->
              List.length (fold_left (fun d f => dict_set (path f) f d) files d) =
              (List.length d + List.length files)%nat).
    { induction files as [|f files IH]; intros d H; [cbn; lia|].
      cbn [fold_left List.length]. rewrite IH.
      - assert (Hlen : List.length (dict_set (path f) f d) = S (List.length d)).
        { pose proof (dict_set_keys (path f) f d) as Hk.
          assert (Hno : path_in (path f) (map fst d) = false).
          { apply path_in_false. intro Hin. cbn [map] in H.
            apply NoDup_remove_2 in H. apply H. apply in_or_app. now left. }
          rewrite Hno in Hk. apply (f_equal (@List.length Path)) in Hk.
          rewrite length_app, !length_map in Hk. cbn [List.length] in Hk. lia. }
        rewrite Hlen. lia.
      - rewrite dict_set_keys.
        assert (Hno : path_in (path f) (map fst d) = false).
        { apply path_in_false. intro Hin. cbn [map] in H.
          apply NoDup_remove_2 in H. apply H. apply in_or_app. now left. }
        rewrite Hno, <- app_assoc. exact H. }
    rewrite Hfold; [reflexivity|exact Hpaths].
Qed.

Lemma local_scan_records_witness :
  map path (_list_files (plain_syncer ONE_WAY) world_b ["dst"] LOCAL) = [["a.txt"]]
  /\
  List.length (dict_of_list (_list_files (plain_syncer ONE_WAY) world_b ["dst"] LOCAL)) = 1%nat.
Proof.
  split; [reflexivity|].
  rewrite (proj2 (proj2 (local_scan_records (plain_syncer ONE_WAY) world_b ["dst"])
                    ltac:(cbn; repeat constructor; cbn; intuition discriminate))).
  reflexivity.
Defined.

(* ================================================================= *)
(** ** The counters of a run *)

Lemma exec_dirs_settled (self : FileSyncer) (l : list CopyItem) (s : State) :
  settled (stats (exec_dirs self l s)) = (settled (stats s) + count_dirs l)%Z.
Proof.
  revert s. induction l as [|[[sp dp] d] l IH]; intro s.
  - unfold count_dirs. simpl. lia.
  - change (exec_dirs self ((sp, dp, d) :: l) s)
      with (exec_dirs self l
              (if d then
                 let '(ok, s') := _create_directory self dp (dest_type self) s in
                 if ok then with_stats add_copied s' else s'
               else s)).
    rewrite IH. unfold count_dirs. cbn [filter snd].
    destruct d; cbn [List.length].
    + destruct (create_directory_stats self dp (dest_type self) s) as [[Hok Hst]|[Hok Hst]];
        destruct (_create_directory self dp (dest_type self) s) as [ok s'];
        cbn [fst snd] in Hok, Hst; subst ok;
        unfold settled, with_stats; cbn [stats]; rewrite Hst;
        cbn [add_copied add_error copied updated deleted errors]; lia.
    + lia.
Qed.

Lemma exec_files_settled (self : FileSyncer) (bump : Stats -> Stats)
  (l : list CopyItem) (s : State) :
  (forall st, settled (bump st) = settled st + 1)%Z ->
  settled (stats (exec_files self bump l s)) = (settled (stats s) + count_files l)%Z.
Proof.
  intro Hb. revert s. induction l as [|[[sp dp] d] l IH]; intro s.
  - unfold count_files. simpl. lia.
  - change (exec_files self bump ((sp, dp, d) :: l) s)
      with (exec_files self bump l
              (if negb d then
                 let '(ok, s') :=
                   _copy_file self sp dp (source_type self) (dest_type self) s in
                 if ok then with_stats bump s' else s'
               else s)).
    rewrite IH. unfold count_files. cbn [filter snd].
    destruct d; cbn [negb List.length].
    + lia.
    + destruct (copy_file_stats self sp dp (source_type self) (dest_type self) s)
        as [[Hok [n Hst]]|[Hok Hst]];
        destruct (_copy_file self sp dp (source_type self) (dest_type self) s) as [ok s'];
        cbn [fst snd] in Hok, Hst; subst ok.
      * unfold with_stats; cbn [stats]. rewrite Hb, Hst.
        unfold settled; cbn [add_bytes copied updated deleted errors]. lia.
      * rewrite Hst. unfold settled; cbn [add_error copied updated deleted errors]. lia.
Qed.

Lemma exec_deletes_settled (self : FileSyncer) (l : list DeleteItem) (s : State) :
  settled (stats (exec_deletes self l s)) =
  (settled (stats s) + Z.of_nat (List.length l))%Z.
Proof.
  revert s. induction l as [|[dp d] l IH]; intro s.
  - simpl. lia.
  - change (exec_deletes self ((dp, d) :: l) s)
      with (exec_deletes self l
              (let '(ok, s') := _delete_path self dp (dest_type self) d s in
               if ok then with_stats add_deleted s' else s')).
    rewrite IH. cbn [List.length].
    destruct (delete_path_stats self dp (dest_type self) d s) as [[Hok Hst]|[Hok Hst]];
      destruct (_delete_path self dp (dest_type self) d s) as [ok s'];
      cbn [fst snd] in Hok, Hst; subst ok;
      unfold settled, with_stats; cbn [stats]; rewrite Hst;
      cbn [add_deleted add_error copied updated deleted errors]; lia.
Qed.

Lemma execute_settled (self : FileSyncer) (p : Plan) (s : State) :
  settled (stats (execute self p s)) =
  (settled (stats s) + Z.of_nat (List.length (to_copy p))
   + count_files (to_update p) + Z.of_nat (List.length (to_delete p)))%Z.
Proof.
  unfold execute.
  set (s1 := exec_dirs self (to_copy p) s).
  set (s2 := exec_files self add_copied (to_copy p) s1).
  set (s3 := exec_files self add_updated (to_update p) s2).
  set (s4 := exec_deletes self (to_delete p) s3).
  assert (H4 : settled (stats s4) =
               (settled (stats s3) + Z.of_nat (List.length (to_delete p)))%Z)
    by apply exec_deletes_settled.
  assert (H3 : settled (stats s3) = (settled (stats s2) + count_files (to_update p))%Z).
  { apply exec_files_settled. intro st. unfold settled.
    cbn [add_updated copied updated deleted errors]. lia. }
  assert (H2 : settled (stats s2) = (settled (stats s1) + count_files (to_copy p))%Z).
  { apply exec_files_settled. intro st. unfold settled.
    cbn [add_copied copied updated deleted errors]. lia. }
  assert (H1 : settled (stats s1) = (settled (stats s) + count_dirs (to_copy p))%Z)
    by apply exec_dirs_settled.
  pose proof (count_dirs_files (to_copy p)) as Hc.
  unfold with_stats; cbn [stats].
  change (settled (set_skipped (Z.of_nat (List.length (skipped_paths p))) (stats s4)))
    with (settled (stats s4)).
  lia.
Qed.

(** Every operation of a plan ends in exactly one of the four counters.
    Whatever the storage does, what [copied], [updated], [deleted] and
    [errors] gain together while a plan is carried out is the number of
    entries of the copy list, files of the update list and entries of the
    deletion list; a failed operation adds one error, never two.  For a run
    that got as far as planning, the four counters add up to the size of
    its plan. *)
Theorem every_operation_is_settled (md5_hexdigest : string -> string)
  (self : FileSyncer) :
  (forall (p : Plan) (s : State),
     settled (stats (execute self p s)) =
     (settled (stats s) + Z.of_nat (List.length (to_copy p))
      + count_files (to_update p) + Z.of_nat (List.length (to_delete p)))%Z)
  /\
  (forall (w : World) (p : Plan),
     planned (run md5_hexdigest self w) = Some p ->
     settled (stats (final (run md5_hexdigest self w))) =
     (Z.of_nat (List.length (to_copy p)) + count_files (to_update p)
      + Z.of_nat (List.length (to_delete p)))%Z).
Proof.
  split; [apply execute_settled|].
  intros w p Hp.
  destruct (run_outcome md5_hexdigest self w) as [[Hn _]|[s1 [Hs1 [Hpl Hfin]]]].
  - rewrite Hn in Hp. discriminate.
  - rewrite Hpl in Hp. injection Hp as <-.
    rewrite Hfin, execute_settled.
    unfold with_stats; cbn [stats]. rewrite Hs1.
    unfold settled. cbn. lia.
Qed.

Lemma every_operation_is_settled_witness :
  settled (stats (final (run sample_digest (plain_syncer ONE_WAY) world_a))) = 1%Z.
Proof.
  rewrite (proj2 (every_operation_is_settled sample_digest (plain_syncer ONE_WAY))
             world_a
             (build_plan sample_digest (plain_syncer ONE_WAY) world_a) eq_refl).
  reflexivity.
Defined.

(* ================================================================= *)
(** ** Remote trees *)

Lemma source_index_remote (self : FileSyncer) (w : World) :
  source_type self = REMOTE -> source_index self w = [].
Proof.
  intro H. unfold source_index. rewrite H, remote_scan_yields_nothing. reflexivity.
Qed.

Lemma dest_index_remote (self : FileSyncer) (w : World) :
  dest_type self = REMOTE -> dest_index self w = [].
Proof.
  intro H. unfold dest_index. rewrite H, remote_scan_yields_nothing.
  now destruct (_path_exists self w (destination self) REMOTE).
Qed.

Lemma detect_conflicts_nil_source (md5_hexdigest : string -> string)
  (self : FileSyncer) (w : World) (dest_files : Dict) :
  _detect_conflicts md5_hexdigest self w [] dest_files = [].
Proof. unfold _detect_conflicts. now destruct (negb _). Qed.

Lemma detect_conflicts_nil_dest (md5_hexdigest : string -> string)
  (self : FileSyncer) (w : World) (source_files : Dict) :
  _detect_conflicts md5_hexdigest self w source_files [] = [].
Proof.
  unfold _detect_conflicts. destruct (negb _); [reflexivity|].
  rewrite (filter_none _ (in_conflict md5_hexdigest self w []) source_files);
    [reflexivity|].
  intros [rel f] _. reflexivity.
Qed.

(** With a remote source the scan finds nothing, so a run transfers
    nothing, and in Mirror mode it plans the deletion of every entry of the
    destination that passes the filter. *)
Theorem remote_source_empties_mirror (md5_hexdigest : string -> string)
  (self : FileSyncer) (w : World) :
  source_type self = REMOTE ->
  let p := build_plan md5_hexdigest self w in
  source_index self w = [] /\
  to_copy p = [] /\ to_update p = [] /\ skipped_paths p = [] /\
  (sync_mode self = MIRROR ->
   to_delete p =
     map (fun e : Path * FileInfo => (full_path (snd e), is_dir (snd e)))
       (filter (fun e : Path * FileInfo => _should_include_file self (path_str (fst e)))
          (dest_index self w))) /\
  copied (stats (final (run md5_hexdigest self w))) = 0%Z /\
  updated (stats (final (run md5_hexdigest self w))) = 0%Z.
Proof.
  intros Hsrc p.
  assert (Hplan : forall w', to_copy (build_plan md5_hexdigest self w') = [] /\
                             to_update (build_plan md5_hexdigest self w') = [] /\
                             skipped_paths (build_plan md5_hexdigest self w') = []).
  { intro w'. unfold build_plan. rewrite (source_index_remote self w' Hsrc).
    cbn. repeat split; reflexivity. }
  split; [now apply source_index_remote|].
  destruct (Hplan w) as [Hc [Hu Hs]].
  split; [exact Hc|]. split; [exact Hu|]. split; [exact Hs|].
  split.
  - intro Hm. unfold p, build_plan, mirror_deletions.
    rewrite (source_index_remote self w Hsrc), Hm. cbn.
    reflexivity.
  - destruct (run_outcome md5_hexdigest self w) as [[_ [_ Hst]]|[s1 [Hs1 [_ Hfin]]]].
    + destruct Hst as [-> | ->]; split; reflexivity.
    + rewrite Hfin.
      destruct (execute_advanced self (build_plan md5_hexdigest self (world s1))
                  (with_stats
                     (add_conflicts
                        (conflicts_counted (build_plan md5_hexdigest self (world s1)))) s1))
        as [st [Hst Hadv]].
      rewrite Hst. destruct (Hplan (world s1)) as [Hc1 [Hu1 _]].
      rewrite Hc1, Hu1 in Hadv. unfold advanced in Hadv.
      unfold with_stats in Hadv; cbn [stats] in Hadv. rewrite Hs1 in Hadv.
      cbn in Hadv. cbn [set_skipped copied updated].
      destruct Hadv as (_ & _ & _ & Hcp & Hup & _). split; lia.
Qed.

Lemma remote_source_empties_mirror_witness :
  to_copy (build_plan sample_digest (with_types REMOTE LOCAL (plain_syncer MIRROR))
             world_remote_source) = []
  /\
  to_delete (build_plan sample_digest (with_types REMOTE LOCAL (plain_syncer MIRROR))
               world_remote_source) = [(["dst"; "old.txt"], false)].
Proof.
  destruct (remote_source_empties_mirror sample_digest
              (with_types REMOTE LOCAL (plain_syncer MIRROR)) world_remote_source eq_refl)
    as (_ & Hc & _ & _ & Hd & _).
  split; [exact Hc|]. rewrite (Hd eq_refl). reflexivity.
Defined.

Lemma filter_all (A : Type) (f : A -> bool) (l : list A) :
  (forall x, In x l -> f x = true) -> filter f l = l.
Proof.
  induction l as [|x l IH]; intro H; [reflexivity|].
  simpl. rewrite (H x (or_introl eq_refl)). f_equal. apply IH.
  intros y Hy. apply H. now right.
Qed.

(** With a remote destination the scan of the destination finds nothing:
    every entry of the source index is planned as a copy, on every run, and
    nothing is updated, skipped, deleted or in conflict. *)
Theorem remote_destination_copies_everything (md5_hexdigest : string -> string)
  (self : FileSyncer) (w : World) :
  dest_type self = REMOTE ->
  let p := build_plan md5_hexdigest self w in
  dest_index self w = [] /\
  to_copy p = map (copy_item self) (source_index self w) /\
  to_update p = [] /\ to_delete p = [] /\ skipped_paths p = [] /\
  conflicts_counted p = 0%Z.
Proof.
  intros Hdst p. split; [now apply dest_index_remote|].
  unfold p, build_plan. rewrite (dest_index_remote self w Hdst).
  rewrite detect_conflicts_nil_dest, plan_fold_routes.
  cbn [to_copy to_update to_delete skipped_paths conflicts_counted set_to_delete
       empty_plan app].
  rewrite (filter_all _ (goes_copy md5_hexdigest self w []) (source_index self w)).
  2:{ intros [rel f] _. unfold goes_copy. cbn [fst snd dict_get].
      now destruct (is_dir f). }
  rewrite (filter_none _ (goes_update md5_hexdigest self w []) (source_index self w)).
  2:{ intros [rel f] _. unfold goes_update. cbn [fst snd dict_get].
      now destruct (is_dir f). }
  rewrite (filter_none _ (goes_skipped md5_hexdigest self w []) (source_index self w)).
  2:{ intros [rel f] _. unfold goes_skipped. cbn [fst snd dict_get].
      now destruct (is_dir f). }
  repeat split; try reflexivity.
  unfold mirror_deletions. now destruct (sync_mode self).
Qed.

Lemma remote_destination_copies_everything_witness :
  to_copy (build_plan sample_digest (with_types LOCAL REMOTE (plain_syncer ONE_WAY))
             world_remote_dest) = [(["src"; "a.txt"], ["dst"; "a.txt"], false)]
  /\
  skipped_paths (build_plan sample_digest (with_types LOCAL REMOTE (plain_syncer ONE_WAY))
                   world_remote_dest) = [].
Proof.
  destruct (remote_destination_copies_everything sample_digest
              (with_types LOCAL REMOTE (plain_syncer ONE_WAY)) world_remote_dest eq_refl)
    as (_ & Hc & _ & _ & Hs & _).
  split; [rewrite Hc; reflexivity|exact Hs].
Defined.

(* ================================================================= *)
(** ** What the plan holds *)

Lemma perm_snoc_first (A : Type) (a b c : list A) (x : A) :
  Permutation ((a ++ [x]) ++ b ++ c) ((a ++ b ++ c) ++ [x]).
Proof.
  rewrite <- !app_assoc. apply Permutation_app_head.
  cbn [app]. rewrite app_assoc. apply Permutation_cons_append.
Qed.

Lemma perm_snoc_second (A : Type) (a b c : list A) (x : A) :
  Permutation (a ++ (b ++ [x]) ++ c) ((a ++ b ++ c) ++ [x]).
Proof.
  rewrite <- !app_assoc. do 2 apply Permutation_app_head.
  cbn [app]. apply Permutation_cons_append.
Qed.

Lemma route_dests (self : FileSyncer) (acc : Plan) (a : FileAction)
  (sp rel : Path) (d : bool) :
  Permutation
    (planned_dests self (route acc a (sp, dest_path_of self rel, d) rel))
    (planned_dests self acc ++ [dest_path_of self rel]).
Proof.
  unfold planned_dests.
  destruct a; cbn [route push_copy push_update push_skipped to_copy to_update
                   skipped_paths]; rewrite map_app; cbn [map fst snd].
  - apply perm_snoc_first.
  - apply perm_snoc_second.
  - rewrite <- !app_assoc. apply Permutation_refl.
  - rewrite <- !app_assoc. apply Permutation_refl.
  - rewrite <- !app_assoc. apply Permutation_refl.
Qed.

Lemma plan_entry_dests (md5_hexdigest : string -> string) (self : FileSyncer)
  (w : World) (conflict_list : list Path) (dest_files : Dict) (acc : Plan)
  (item : Path * FileInfo) :
  (path_in (fst item) conflict_list = true -> dict_get (fst item) dest_files <> None) ->
  Permutation
    (planned_dests self
       (plan_entry md5_hexdigest self w conflict_list dest_files acc item))
    (planned_dests self acc ++
     (if dir_in_place dest_files item then []
      else [dest_path_of self (fst item)])).
Proof.
  destruct item as [rel f]. cbn [fst snd]. intro Hc.
  unfold plan_entry, dir_in_place, dict_contains. cbn [fst snd].
  destruct (is_dir f) eqn:Hd; cbn [andb].
  - destruct (dict_get rel dest_files).
    + rewrite app_nil_r. apply Permutation_refl.
    + unfold planned_dests. cbn [push_copy to_copy to_update skipped_paths].
      rewrite map_app. cbn [map fst snd]. apply perm_snoc_first.
  - destruct (path_in rel conflict_list) eqn:Hin.
    + destruct (dict_get rel dest_files) as [d|]; [|now specialize (Hc eq_refl)].
      destruct (_resolve_conflict self rel f d) eqn:Hr; try apply route_dests.
      unfold planned_dests.
      cbn [count_conflict push_skipped to_copy to_update skipped_paths].
      rewrite map_app, <- !app_assoc. apply Permutation_refl.
    + apply route_dests.
Qed.

Lemma plan_fold_dests (md5_hexdigest : string -> string) (self : FileSyncer)
  (w : World) (conflict_list : list Path) (dest_files : Dict) (items : Dict) :
  (forall item, In item items -> path_in (fst item) conflict_list = true ->
                dict_get (fst item) dest_files <> None) ->
  forall acc : Plan,
  Permutation
    (planned_dests self
       (fold_left (plan_entry md5_hexdigest self w conflict_list dest_files) items acc))
    (planned_dests self acc ++
     map (fun item : Path * FileInfo => dest_path_of self (fst item))
       (filter (fun item => negb (dir_in_place dest_files item)) items)).
Proof.
  induction items as [|item items IH]; intros Hc acc.
  - cbn [fold_left filter map]. rewrite app_nil_r. apply Permutation_refl.
  - cbn [fold_left filter].
    eapply Permutation_trans.
    { apply IH. intros it Hit. apply Hc. now right. }
    eapply Permutation_trans.
    { apply Permutation_app_tail. apply plan_entry_dests. apply Hc. now left. }
    rewrite <- app_assoc. apply Permutation_app_head.
    destruct (dir_in_place dest_files item); cbn [negb map app];
      apply Permutation_refl.
Qed.

Lemma NoDup_map_join (d : Path) (l : list (Path * FileInfo)) :
  NoDup (map fst l) ->
  NoDup (map (fun item : Path * FileInfo => os_path_join d (fst item)) l).
Proof.
  intro H. rewrite <- (map_map fst (os_path_join d)).
  apply NoDup_map_app_head. exact H.
Qed.

Lemma plan_dests_permutation (md5_hexdigest : string -> string)
  (self : FileSyncer) (w : World) :
  Permutation (planned_dests self (build_plan md5_hexdigest self w))
    (map (fun item : Path * FileInfo => dest_path_of self (fst item))
       (filter (fun item => negb (dir_in_place (dest_index self w) item))
          (source_index self w))).
Proof.
  unfold build_plan.
  change (planned_dests self (set_to_delete ?a ?l)) with (planned_dests self a).
  eapply Permutation_trans.
  - apply plan_fold_dests.
    intros item _ Hin. apply path_in_true in Hin.
    destruct (detected_conflict_has_dest md5_hexdigest self w (fst item) Hin) as [d Hd].
    rewrite Hd. discriminate.
  - apply Permutation_refl.
Qed.

Lemma planned_dests_NoDup (md5_hexdigest : string -> string)
  (self : FileSyncer) (w : World) :
  dest_type self = LOCAL ->
  NoDup (planned_dests self (build_plan md5_hexdigest self w)).
Proof.
  intro Hdst.
  eapply Permutation_NoDup; [apply Permutation_sym; apply plan_dests_permutation|].
  rewrite (map_ext _ (fun item : Path * FileInfo => os_path_join (destination self) (fst item))).
  - apply NoDup_map_join. apply NoDup_keys_filter. apply dict_of_list_NoDup.
  - intro item. now apply dest_path_of_local.
Qed.

(** No entry of the source index is lost or doubled between the scan and
    the three lists: the destination paths in the copy, update and skip
    lists are, up to order, those of the entries of the source index
    without the directories that the destination already has, one for
    each entry.  With a local destination no two of them are equal.  (With
    a remote one the replacement of backslashes can make two entries meet
    at one destination path.) *)
Theorem plan_settles_each_source_entry_once (md5_hexdigest : string -> string)
  (self : FileSyncer) (w : World) :
  let p := build_plan md5_hexdigest self w in
  Permutation (planned_dests self p)
    (map (fun item : Path * FileInfo => dest_path_of self (fst item))
       (filter (fun item => negb (dir_in_place (dest_index self w) item))
          (source_index self w)))
  /\ (dest_type self = LOCAL -> NoDup (planned_dests self p)).
Proof.
  intro p. split; [apply plan_dests_permutation|apply planned_dests_NoDup].
Qed.

(** With a remote destination two entries of the source can meet at one
    destination path: the file named [a], backslash, [b] and the file [b]
    of the directory [a] are both planned to [dst/a/b].  With a local
    destination they are kept apart. *)
Example remote_destination_paths_can_meet :
  map (fun it : CopyItem => snd (fst it))
    (to_copy (build_plan sample_digest (with_types LOCAL REMOTE (plain_syncer ONE_WAY))
                world_backslash_name)) =
    [["dst"; "a"; "b"]; ["dst"; "a"]; ["dst"; "a"; "b"]]
  /\
  dest_path_of (with_types LOCAL LOCAL (plain_syncer ONE_WAY)) [name_a_backslash_b] =
    ["dst"; name_a_backslash_b].
Proof. split; reflexivity. Qed.

Lemma route_items (self : FileSyncer) (acc : Plan) (a : FileAction) (it0 : CopyItem)
  (rel : Path) (it : CopyItem) :
  In it (to_copy (route acc a it0 rel) ++ to_update (route acc a it0 rel)) ->
  In it (to_copy acc ++ to_update acc) \/ it = it0.
Proof.
  destruct a; cbn [route push_copy push_update push_skipped to_copy to_update];
    rewrite ?in_app_iff; cbn [In]; intuition (auto; congruence).
Qed.

Lemma route_updates (acc : Plan) (a : FileAction) (it0 : CopyItem)
  (rel : Path) (it : CopyItem) :
  In it (to_update (route acc a it0 rel)) -> In it (to_update acc) \/ it = it0.
Proof.
  destruct a; cbn [route push_copy push_update push_skipped to_update];
    rewrite ?in_app_iff; cbn [In]; intuition (auto; congruence).
Qed.

Lemma plan_entry_items (md5_hexdigest : string -> string) (self : FileSyncer)
  (w : World) (conflict_list : list Path) (dest_files : Dict) (acc : Plan)
  (item : Path * FileInfo) (it : CopyItem) :
  let acc' := plan_entry md5_hexdigest self w conflict_list dest_files acc item in
  (In it (to_copy acc' ++ to_update acc') ->
   In it (to_copy acc ++ to_update acc) \/ it = copy_item self item) /\
  (In it (to_update acc') ->
   In it (to_update acc) \/ (it = copy_item self item /\ is_dir (snd item) = false)).
Proof.
  destruct item as [rel f]. unfold plan_entry, copy_item. cbn [fst snd].
  destruct (is_dir f) eqn:Hd.
  - destruct (dict_get rel dest_files); cbn [push_copy to_copy to_update].
    + tauto.
    + rewrite !in_app_iff. cbn [In]. intuition (auto; congruence).
  - destruct (path_in rel conflict_list).
    + destruct (dict_get rel dest_files) as [d|]; [|tauto].
      destruct (_resolve_conflict self rel f d);
        try (split; [apply route_items; exact self
                    | intro H; apply route_updates in H; tauto]).
      cbn [count_conflict push_skipped to_copy to_update]. tauto.
    + split; [apply route_items; exact self
             | intro H; apply route_updates in H; tauto].
Qed.

Lemma plan_fold_items (md5_hexdigest : string -> string) (self : FileSyncer)
  (w : World) (conflict_list : list Path) (dest_files : Dict) (items : Dict)
  (it : CopyItem) :
  forall acc : Plan,
  let acc' := fold_left (plan_entry md5_hexdigest self w conflict_list dest_files)
                items acc in
  (In it (to_copy acc' ++ to_update acc') ->
   In it (to_copy acc ++ to_update acc) \/
   exists item, In item items /\ it = copy_item self item) /\
  (In it (to_update acc') ->
   In it (to_update acc) \/
   exists item, In item items /\ it = copy_item self item /\ is_dir (snd item) = false).
Proof.
  induction items as [|item items IH]; intro acc.
  - cbn [fold_left]. tauto.
  - cbn [fold_left].
    destruct (IH (plan_entry md5_hexdigest self w conflict_list dest_files acc item))
      as [IH1 IH2].
    destruct (plan_entry_items md5_hexdigest self w conflict_list dest_files acc item it)
      as [E1 E2].
    split; intro H.
    + destruct (IH1 H) as [H'|[x [Hx Hit]]].
      * destruct (E1 H') as [H''| ->]; [now left|].
        right. exists item. split; [now left|reflexivity].
      * right. exists x. split; [now right|exact Hit].
    + destruct (IH2 H) as [H'|[x [Hx Hit]]].
      * destruct (E2 H') as [H''|[-> Hd]]; [now left|].
        right. exists item. split; [now left|]. split; [reflexivity|exact Hd].
      * right. exists x. split; [now right|exact Hit].
Qed.

Lemma plan_items_from_source (md5_hexdigest : string -> string)
  (self : FileSyncer) (w : World) (it : CopyItem) :
  In it (to_copy (build_plan md5_hexdigest self w) ++
         to_update (build_plan md5_hexdigest self w)) ->
  exists rel : Path,
    rel <> [] /\ dict_contains rel (source_index self w) = true /\
    fst (fst it) = os_path_join (source self) rel /\
    snd (fst it) = dest_path_of self rel.
Proof.
  unfold build_plan.
  change (to_copy (set_to_delete ?a ?l)) with (to_copy a).
  change (to_update (set_to_delete ?a ?l)) with (to_update a).
  intro Hit.
  apply plan_fold_items in Hit. destruct Hit as [Hit|[[rel f] [Hin ->]]];
    [destruct Hit|].
  destruct (source_type self) eqn:Hs.
  - destruct (source_item_facts self Hs w rel f Hin) as [n [Hne [_ ->]]].
    exists rel. split; [exact Hne|]. split.
    + unfold dict_contains.
      rewrite (dict_get_In rel _ (source_index self w) (dict_of_list_NoDup _) Hin).
      reflexivity.
    + split; reflexivity.
  - rewrite (source_index_remote self w Hs) in Hin. destruct Hin.
Qed.

(** In every mode the plan only carries entries from the source to the
    destination: each entry of the copy and update lists goes from a path
    of the source index, taken below the source, to the destination path
    of the same relative path (the joined path, with its backslashes
    replaced when the destination is remote), and the update list holds
    files only.  Nothing is ever planned from the destination back to the
    source, in TwoWay mode as in the others. *)
Theorem plan_transfers_source_to_destination (md5_hexdigest : string -> string)
  (self : FileSyncer) (w : World) :
  let p := build_plan md5_hexdigest self w in
  (forall it : CopyItem, In it (to_copy p ++ to_update p) ->
     exists rel : Path,
       rel <> [] /\ dict_contains rel (source_index self w) = true /\
       fst (fst it) = os_path_join (source self) rel /\
       snd (fst it) = dest_path_of self rel /\
       (dest_type self = LOCAL ->
        snd (fst it) = os_path_join (destination self) rel))
  /\
  (forall it : CopyItem, In it (to_update p) -> snd it = false).
Proof.
  intro p. split.
  - intros it Hit.
    destruct (plan_items_from_source md5_hexdigest self w it Hit)
      as [rel (H1 & H2 & H3 & H4)].
    exists rel. repeat split; try assumption.
    intro Hdst. rewrite H4. now apply dest_path_of_local.
  - intros it Hit. unfold p, build_plan in Hit.
    change (to_update (set_to_delete ?a ?l)) with (to_update a) in Hit.
    apply plan_fold_items in Hit. destruct Hit as [Hit|[[rel f] [Hin [-> Hd]]]];
      [destruct Hit|exact Hd].
Qed.

Lemma plan_transfers_source_to_destination_witness :
  In (["src"; "a.txt"], ["dst"; "a.txt"], false)
     (to_copy (build_plan sample_digest (plain_syncer ONE_WAY) world_a))
  /\
  exists rel : Path,
    dict_contains rel (source_index (plain_syncer ONE_WAY) world_a) = true /\
    ["src"; "a.txt"] = os_path_join (source (plain_syncer ONE_WAY)) rel /\
    ["dst"; "a.txt"] = dest_path_of (plain_syncer ONE_WAY) rel.
Proof.
  split; [left; reflexivity|].
  destruct (proj1 (plan_transfers_source_to_destination sample_digest
                     (plain_syncer ONE_WAY) world_a)
              (["src"; "a.txt"], ["dst"; "a.txt"], false) (or_introl eq_refl))
    as [rel (_ & Hc & Hs & Hd & _)].
  exists rel. split; [exact Hc|]. split; [exact Hs|exact Hd].
Defined.

Lemma plan_entry_action (md5_hexdigest : string -> string) (self : FileSyncer)
  (w : World) (conflict_list : list Path) (dest_files : Dict) (acc : Plan)
  (item : Path * FileInfo) :
  let a := planned_action md5_hexdigest self w conflict_list dest_files item in
  let acc' := plan_entry md5_hexdigest self w conflict_list dest_files acc item in
  to_copy acc' = to_copy acc ++ (if action_is COPY a then [copy_item self item] else [])
  /\
  to_update acc' =
    to_update acc ++ (if action_is UPDATE a then [copy_item self item] else [])
  /\
  skipped_paths acc' = skipped_paths acc ++ (if action_is SKIP a then [fst item] else []).
Proof.
  destruct item as [rel f]. cbv zeta.
  unfold plan_entry, planned_action, copy_item. cbn [fst snd].
  destruct (is_dir f) eqn:Hd.
  - destruct (dict_get rel dest_files);
      cbn [action_is push_copy to_copy to_update skipped_paths];
      rewrite ?app_nil_r; auto.
  - destruct (path_in rel conflict_list).
    + destruct (dict_get rel dest_files) as [d|];
        [|cbn [action_is]; rewrite ?app_nil_r; auto].
      destruct (_resolve_conflict self rel f d);
        cbn [action_is route push_copy push_update push_skipped count_conflict
             to_copy to_update skipped_paths];
        rewrite ?app_nil_r; auto.
    + destruct (_compare_files md5_hexdigest self w f (dict_get rel dest_files)
                  (full_path f) (dest_path_of self rel));
        cbn [action_is route push_copy push_update push_skipped
             to_copy to_update skipped_paths];
        rewrite ?app_nil_r; auto.
Qed.

Lemma plan_fold_actions (md5_hexdigest : string -> string) (self : FileSyncer)
  (w : World) (conflict_list : list Path) (dest_files : Dict) (items : Dict) :
  forall acc : Plan,
  let act := planned_action md5_hexdigest self w conflict_list dest_files in
  let acc' := fold_left (plan_entry md5_hexdigest self w conflict_list dest_files)
                items acc in
  to_copy acc' =
    to_copy acc ++ map (copy_item self) (filter (fun i => action_is COPY (act i)) items)
  /\
  to_update acc' =
    to_update acc ++ map (copy_item self) (filter (fun i => action_is UPDATE (act i)) items)
  /\
  skipped_paths acc' =
    skipped_paths acc ++ map fst (filter (fun i => action_is SKIP (act i)) items).
Proof.
  induction items as [|item items IH]; intro acc; cbv zeta.
  - cbn [fold_left filter map]. rewrite !app_nil_r. auto.
  - cbn [fold_left filter].
    destruct (IH (plan_entry md5_hexdigest self w conflict_list dest_files acc item))
      as (I1 & I2 & I3).
    cbv zeta in I1, I2, I3. rewrite I1, I2, I3. clear IH I1 I2 I3.
    destruct (plan_entry_action md5_hexdigest self w conflict_list dest_files acc item)
      as (E1 & E2 & E3).
    cbv zeta in E1, E2, E3. rewrite E1, E2, E3. clear E1 E2 E3.
    rewrite <- !app_assoc.
    destruct (planned_action md5_hexdigest self w conflict_list dest_files item)
      as [[]|]; cbn [action_is map app]; auto.
Qed.

Lemma in_items_by_key (self : FileSyncer) (g : Path * FileInfo -> bool) (items : Dict)
  (rel : Path) (f : FileInfo) :
  NoDup (map fst items) -> In (rel, f) items ->
  (forall (r : Path) (x : FileInfo),
     In (r, x) items -> full_path x = os_path_join (source self) r) ->
  (In (copy_item self (rel, f)) (map (copy_item self) (filter g items)) <->
   g (rel, f) = true) /\
  (In rel (map fst (filter g items)) <-> g (rel, f) = true).
Proof.
  intros Hnd Hin Hfull. split; split.
  - intro H. apply in_map_iff in H. destruct H as [[rel' f'] [He Hi]].
    apply filter_In in Hi. destruct Hi as [Hi Hg].
    unfold copy_item in He. cbn [fst snd] in He.
    injection He as He _ _. rewrite (Hfull _ _ Hi), (Hfull _ _ Hin) in He.
    apply app_inv_head in He. subst rel'.
    now rewrite (NoDup_keys_functional items rel f f' Hnd Hin Hi).
  - intro Hg. apply in_map. apply filter_In. now split.
  - intro H. apply in_map_iff in H. destruct H as [[rel' f'] [He Hi]].
    apply filter_In in Hi. destruct Hi as [Hi Hg]. cbn [fst] in He. subst rel'.
    now rewrite (NoDup_keys_functional items rel f f' Hnd Hin Hi).
  - intro Hg. apply in_map_iff. exists (rel, f). split; [reflexivity|].
    apply filter_In. now split.
Qed.

(** The rule of TwoWay mode for a file that both sides have, when
    checksums are off.  Once the detector finds the two modification times
    more than two seconds apart (the absolute value of their float
    difference exceeds 2), the times and [force] alone decide: the file is
    updated when [force] is set or the source is the newer one, and
    skipped otherwise, whatever the sizes and [use_timestamp] are.  When
    the detector does not find them so far apart, the file goes through
    the ordinary comparison: it is updated when the sizes differ, or when
    [use_timestamp] is set and the source time exceeds the float sum of
    the destination time and 2.  It is never put on the copy list. *)
Theorem two_way_update_rule (md5_hexdigest : string -> string)
  (self : FileSyncer) (w : World) (rel : Path) (sf df : FileInfo) :
  sync_mode self = TWO_WAY -> use_checksum self = false ->
  In (rel, sf) (source_index self w) -> is_dir sf = false ->
  dict_get rel (dest_index self w) = Some df -> is_dir df = false ->
  let p := build_plan md5_hexdigest self w in
  let updated_by_rule :=
    (float_gap_gt (mtime sf) (mtime df) 2 = true /\
     (force self = true \/ (mtime df < mtime sf)%Q)) \/
    (float_gap_gt (mtime sf) (mtime df) 2 = false /\
     (size sf <> size df \/
      (use_timestamp self = true /\
       float_gt_sum (mtime sf) (mtime df) 2 = true))) in
  (In (copy_item self (rel, sf)) (to_update p) <-> updated_by_rule) /\
  (In rel (skipped_paths p) <-> ~ updated_by_rule) /\
  ~ In (copy_item self (rel, sf)) (to_copy p).
Proof.
  intros Hmode Hcs Hin Hsd Hdf Hdd p rule.
  pose proof (dict_of_list_NoDup
                (filter (fun f => _should_include_file self (path_str (path f)))
                   (_list_files self w (source self) (source_type self)))) as Hnd.
  fold (source_index self w) in Hnd.
  destruct (plan_fold_actions md5_hexdigest self w
              (_detect_conflicts md5_hexdigest self w (source_index self w)
                 (dest_index self w))
              (dest_index self w) (source_index self w) empty_plan) as (P1 & P2 & P3).
  cbv zeta in P1, P2, P3. cbn [empty_plan to_copy to_update skipped_paths app] in P1, P2, P3.
  assert (Ec : to_copy p = to_copy (fold_left
                 (plan_entry md5_hexdigest self w
                    (_detect_conflicts md5_hexdigest self w (source_index self w)
                       (dest_index self w)) (dest_index self w))
                 (source_index self w) empty_plan)) by reflexivity.
  assert (Eu : to_update p = to_update (fold_left
                 (plan_entry md5_hexdigest self w
                    (_detect_conflicts md5_hexdigest self w (source_index self w)
                       (dest_index self w)) (dest_index self w))
                 (source_index self w) empty_plan)) by reflexivity.
  assert (Es : skipped_paths p = skipped_paths (fold_left
                 (plan_entry md5_hexdigest self w
                    (_detect_conflicts md5_hexdigest self w (source_index self w)
                       (dest_index self w)) (dest_index self w))
                 (source_index self w) empty_plan)) by reflexivity.
  rewrite Ec, Eu, Es, P1, P2, P3. clear Ec Eu Es P1 P2 P3.
  set (act := planned_action md5_hexdigest self w
                (_detect_conflicts md5_hexdigest self w (source_index self w)
                   (dest_index self w)) (dest_index self w)).
  assert (Hfull : forall (r : Path) (x : FileInfo),
            In (r, x) (source_index self w) ->
            full_path x = os_path_join (source self) r).
  { intros r x Hx. destruct (source_type self) eqn:Hs.
    - destruct (source_item_facts self Hs w r x Hx) as [n [_ [_ ->]]]. reflexivity.
    - rewrite (source_index_remote self w Hs) in Hx. destruct Hx. }
  destruct (in_items_by_key self (fun i => action_is COPY (act i)) _ rel sf Hnd Hin Hfull)
    as [Kc _].
  destruct (in_items_by_key self (fun i => action_is UPDATE (act i)) _ rel sf Hnd Hin Hfull)
    as [Ku _].
  destruct (in_items_by_key self (fun i => action_is SKIP (act i)) _ rel sf Hnd Hin Hfull)
    as [_ Ks].
  rewrite Kc, Ku, Ks. clear Kc Ku Ks.
  (* the action of the entry *)
  assert (Hconf : path_in rel (_detect_conflicts md5_hexdigest self w (source_index self w)
                                 (dest_index self w)) =
                  float_gap_gt (mtime sf) (mtime df) 2).
  { unfold _detect_conflicts. rewrite Hmode. cbn [SyncMode_eqb negb].
    rewrite (path_in_detected md5_hexdigest self w _ _ (rel, sf) Hnd Hin).
    unfold in_conflict. rewrite Hdf, Hsd, Hdd, Hcs. reflexivity. }
  unfold act, planned_action. cbn [fst snd]. rewrite Hsd, Hdf, Hconf.
  assert (Hyes : rule ->
            (action_is UPDATE (Some UPDATE) = true <-> rule) /\
            (action_is SKIP (Some UPDATE) = true <-> ~ rule) /\
            action_is COPY (Some UPDATE) <> true).
  { intro Hr. cbn [action_is]. split; [|split]; [tauto| |discriminate].
    split; [discriminate|tauto]. }
  assert (Hno : ~ rule ->
            (action_is UPDATE (Some SKIP) = true <-> rule) /\
            (action_is SKIP (Some SKIP) = true <-> ~ rule) /\
            action_is COPY (Some SKIP) <> true).
  { intro Hr. cbn [action_is]. split; [|split]; [|tauto|discriminate].
    split; [discriminate|tauto]. }
  unfold rule in *. clear rule.
  destruct (float_gap_gt (mtime sf) (mtime df) 2) eqn:Hfar.
  - unfold _resolve_conflict.
    destruct (force self) eqn:Hf.
    + apply Hyes. left. auto.
    + destruct (Qgtb (mtime sf) (mtime df)) eqn:Hnew.
      * apply Qgtb_true in Hnew. apply Hyes. left. auto.
      * apply Qgtb_false in Hnew. apply Hno.
        intros [[_ [H|H]]|[H _]]; [discriminate| |discriminate].
        apply (Qlt_not_le _ _ H Hnew).
  - unfold _compare_files. rewrite Hcs.
    destruct (size sf =? size df)%Z eqn:Hsz; cbn [negb].
    + apply Z.eqb_eq in Hsz. rewrite andb_true_r.
      destruct (use_timestamp self) eqn:Hts; cbn [andb].
      * destruct (float_gt_sum (mtime sf) (mtime df) 2) eqn:Hgt.
        -- apply Hyes. right. auto.
        -- apply Hno. intros [[H _]|[_ [H|[_ H]]]]; congruence.
      * apply Hno. intros [[H _]|[_ [H|[H _]]]]; congruence.
    + apply Z.eqb_neq in Hsz. apply Hyes. right. auto.
Qed.

Lemma two_way_update_rule_witness :
  In ["shared.txt"]
     (skipped_paths (build_plan sample_digest (plain_syncer TWO_WAY) world_d))
  /\
  ~ In (copy_item (plain_syncer TWO_WAY) (["shared.txt"], info_src_old))
       (to_copy (build_plan sample_digest (plain_syncer TWO_WAY) world_d)).
Proof.
  destruct (two_way_update_rule sample_digest (plain_syncer TWO_WAY) world_d
              ["shared.txt"] info_src_old info_dst_new
              eq_refl eq_refl (or_introl eq_refl) eq_refl eq_refl eq_refl)
    as (_ & Hskip & Hcopy).
  split; [|exact Hcopy].
  apply Hskip. intros [[_ [H|H]]|[H _]].
  - discriminate.
  - vm_compute in H. discriminate.
  - vm_compute in H. discriminate.
Defined.

(* ================================================================= *)
(** ** The three mutators on local trees *)

Lemma makedirs_from_all_dirs (now : Q) (rest pre : Path) (st st' : Store) :
  makedirs_from now pre rest st = Some st' ->
  forall x y, rest = x ++ y -> x <> [] -> os_path_isdir st' (pre ++ x) = true.
Proof.
  revert pre st. induction rest as [|seg rest IH]; intros pre st H x y Hxy Hx.
  - destruct x; [congruence|discriminate].
  - destruct x as [|seg' x]; [congruence|]. injection Hxy as <- Hrest.
    cbn [makedirs_from] in H.
    assert (Hkeep : forall st1, makedirs_from now (pre ++ [seg]) rest st1 = Some st' ->
                      os_path_isdir st1 (pre ++ [seg]) = true ->
                      os_path_isdir st' (pre ++ [seg]) = true).
    { intros st1 H1 Hd. unfold os_path_isdir in *.
      destruct (makedirs_from_adds now rest (pre ++ [seg]) st1 st' H1) as [added [-> _]].
      rewrite fs_lookup_app. destruct (fs_lookup (pre ++ [seg]) st1); [exact Hd|discriminate]. }
    assert (Hgoal : forall st1, makedirs_from now (pre ++ [seg]) rest st1 = Some st' ->
                      os_path_isdir st1 (pre ++ [seg]) = true ->
                      os_path_isdir st' (pre ++ seg :: x) = true).
    { intros st1 H1 Hd. destruct x as [|s2 x2].
      - now apply Hkeep with st1.
      - replace (pre ++ seg :: s2 :: x2) with ((pre ++ [seg]) ++ s2 :: x2)
          by now rewrite <- app_assoc.
        apply (IH _ _ H1 (s2 :: x2) y); [exact Hrest|discriminate]. }
    destruct (fs_lookup (pre ++ [seg]) st) as [n|] eqn:Hl.
    + destruct (is_KDir (n_kind n)) eqn:Hk; [|discriminate].
      apply Hgoal with st; [exact H|]. unfold os_path_isdir. now rewrite Hl.
    + apply Hgoal with (fs_put (pre ++ [seg]) (new_dir now) st); [exact H|].
      unfold os_path_isdir. now rewrite fs_lookup_put_same.
Qed.

Lemma makedirs_from_noop (now : Q) (rest pre : Path) (st : Store) :
  (forall x y, rest = x ++ y -> x <> [] -> os_path_isdir st (pre ++ x) = true) ->
  makedirs_from now pre rest st = Some st.
Proof.
  revert pre. induction rest as [|seg rest IH]; intros pre H; [reflexivity|].
  cbn [makedirs_from].
  pose proof (H [seg] rest eq_refl ltac:(discriminate)) as Hd.
  unfold os_path_isdir in Hd.
  destruct (fs_lookup (pre ++ [seg]) st) as [n|]; [|discriminate].
  rewrite Hd. apply IH. intros x y Hxy Hx.
  rewrite <- app_assoc. apply (H (seg :: x) y); [now rewrite Hxy|discriminate].
Qed.

Lemma app_cons_neq (A : Type) (p : list A) (a b : A) (x : list A) :
  p ++ [a] <> p ++ a :: b :: x.
Proof.
  intro H. apply app_inv_head in H. discriminate.
Qed.

Lemma makedirs_from_fails (now : Q) (rest pre : Path) (st : Store) :
  (exists x y n, rest = x ++ y /\ x <> [] /\
     fs_lookup (pre ++ x) st = Some n /\ is_KDir (n_kind n) = false) ->
  makedirs_from now pre rest st = None.
Proof.
  revert pre st. induction rest as [|seg rest IH]; intros pre st [x [y [n [Hxy [Hx [Hl Hk]]]]]].
  - destruct x; [congruence|discriminate].
  - destruct x as [|seg' x]; [congruence|]. injection Hxy as <- Hrest.
    cbn [makedirs_from].
    destruct x as [|s2 x2].
    + rewrite Hl, Hk. reflexivity.
    + assert (Hrec : forall st1,
                fs_lookup (pre ++ seg :: s2 :: x2) st1 = Some n ->
                makedirs_from now (pre ++ [seg]) rest st1 = None).
      { intros st1 H1. apply IH. exists (s2 :: x2), y, n.
        split; [exact Hrest|]. split; [discriminate|].
        rewrite <- app_assoc. cbn [app]. now split. }
      destruct (fs_lookup (pre ++ [seg]) st) as [m|] eqn:Hm.
      * destruct (is_KDir (n_kind m)); [now apply Hrec|reflexivity].
      * apply Hrec. rewrite fs_lookup_put_other; [exact Hl|].
        apply app_cons_neq.
Qed.

(** [_create_directory] on a local path, outside a dry run.  When it
    returns True, every part of the path is a directory afterwards, the
    entries that were there are kept, the statistics are untouched, and a
    second call returns True and changes nothing.  When it returns False
    it has added one error.  It returns False whenever a part of the path
    is taken by something that is not a directory. *)
Theorem create_directory_local_outcome (self : FileSyncer) (p : Path) (s : State) :
  dry_run self = false -> p <> [] ->
  let L := local_fs (world s) in
  (forall s' : State,
     _create_directory self p LOCAL s = (true, s') ->
     stats s' = stats s /\
     (forall x y, p = x ++ y -> x <> [] -> os_path_isdir (local_fs (world s')) x = true) /\
     (forall q m, fs_lookup q L = Some m -> fs_lookup q (local_fs (world s')) = Some m) /\
     _create_directory self p LOCAL s' = (true, s'))
  /\
  (forall s' : State,
     _create_directory self p LOCAL s = (false, s') ->
     stats s' = add_error (stats s))
  /\
  ((exists x y n, p = x ++ y /\ x <> [] /\
      fs_lookup x L = Some n /\ is_KDir (n_kind n) = false) ->
   fst (_create_directory self p LOCAL s) = false).
Proof.
  intros Hdry Hp L. unfold _create_directory. rewrite Hdry.
  unfold os_makedirs. destruct p as [|seg p']; [congruence|].
  split; [|split].
  - intros s'.
    destruct (makedirs_from (clock (world s)) [] (seg :: p') (local_fs (world s)))
      as [st'|] eqn:Hst'; cbn [option_map]; [|discriminate].
    intros [= <-]. cbn [world set_local local_fs clock stats].
    pose proof (makedirs_from_all_dirs _ _ _ _ _ Hst') as Hall. cbn [app] in Hall.
    split; [reflexivity|]. split; [exact Hall|]. split.
    + intros q m Hq.
      destruct (makedirs_from_adds _ _ _ _ _ Hst') as [added [-> _]].
      rewrite fs_lookup_app. fold L. now rewrite Hq.
    + rewrite (makedirs_from_noop (clock (world s)) (seg :: p') [] st' Hall).
      cbn [option_map]. unfold set_local. cbn [source_sftp dest_sftp clock local_fs].
      reflexivity.
  - intros s'.
    destruct (makedirs_from (clock (world s)) [] (seg :: p') (local_fs (world s)));
      cbn [option_map]; [discriminate|].
    intros [= <-]. reflexivity.
  - intro Hbad.
    rewrite (makedirs_from_fails (clock (world s)) (seg :: p') [] (local_fs (world s)) Hbad).
    reflexivity.
Qed.

Lemma create_directory_local_outcome_witness :
  let s := {| stats := fresh_stats; world := world_a |} in
  os_path_isdir
    (local_fs (world (snd (_create_directory (plain_syncer ONE_WAY) ["dst"; "sub"] LOCAL s))))
    ["dst"; "sub"] = true
  /\
  fst (_create_directory (plain_syncer ONE_WAY) ["src"; "a.txt"; "sub"] LOCAL s) = false.
Proof.
  intro s. split.
  - destruct (proj1 (create_directory_local_outcome (plain_syncer ONE_WAY) ["dst"; "sub"] s
                       eq_refl ltac:(discriminate))
                (snd (_create_directory (plain_syncer ONE_WAY) ["dst"; "sub"] LOCAL s))
                eq_refl)
      as (_ & Hall & _).
    apply (Hall ["dst"; "sub"] []); [reflexivity|discriminate].
  - apply (proj2 (proj2 (create_directory_local_outcome (plain_syncer ONE_WAY)
                    ["src"; "a.txt"; "sub"] s eq_refl ltac:(discriminate)))).
    exists ["src"; "a.txt"], ["sub"], (file_node "hello" 100).
    repeat split; discriminate.
Defined.

Lemma not_prefix_of_dirname (p : Path) :
  p <> [] -> prefixb p (os_path_dirname p) = false.
Proof.
  intro Hp. destruct (prefixb p (os_path_dirname p)) eqn:E; [|reflexivity].
  apply prefixb_true in E. destruct E as [r Hr].
  pose proof (app_removelast_last EmptyString Hp) as Hs.
  unfold os_path_dirname in Hr.
  apply (f_equal (@List.length string)) in Hr.
  apply (f_equal (@List.length string)) in Hs.
  rewrite length_app in Hr, Hs. cbn [List.length] in Hs. lia.
Qed.

Lemma fs_read_lookup (st : Store) (p : Path) (n : Node) :
  fs_read st p = Some n ->
  fs_lookup p st = Some n /\ n_kind n = KFile /\ n_readable n = true.
Proof.
  unfold fs_read. destruct (fs_lookup p st) as [m|]; [|discriminate].
  destruct (n_kind m) eqn:Hk; try discriminate.
  destruct (n_readable m) eqn:Hr; [|discriminate].
  intros [= <-]. auto.
Qed.

Lemma fs_read_same_lookup (st st' : Store) (p : Path) :
  fs_lookup p st' = fs_lookup p st -> fs_read st' p = fs_read st p.
Proof. unfold fs_read. now intros ->. Qed.

Lemma isdir_same_lookup (st st' : Store) (p : Path) :
  fs_lookup p st' = fs_lookup p st -> os_path_isdir st' p = os_path_isdir st p.
Proof. unfold os_path_isdir. now intros ->. Qed.

Lemma file_is_not_dir (st : Store) (p : Path) (n : Node) :
  fs_read st p = Some n -> os_path_isdir st p = false.
Proof.
  intro H. apply fs_read_lookup in H. destruct H as [Hl [Hk _]].
  unfold os_path_isdir. rewrite Hl, Hk. reflexivity.
Qed.

(** The copy itself, once the way is clear: the source can be read, the
    destination path is not a directory and its parent is one. *)
Lemma transfer_local_clear (self : FileSyncer) (w : World) (sp dp : Path) (n : Node) :
  fs_read (local_fs w) sp = Some n ->
  os_path_isdir (local_fs w) dp = false ->
  parent_ok (local_fs w) dp = true ->
  transfer self w sp dp LOCAL LOCAL =
  Some (set_local w
          (fs_put dp (new_file (n_data n) (copy_stamp self (clock w) n)) (local_fs w)),
        node_size n).
Proof.
  intros Hr Hd Hp. unfold transfer. rewrite Hr.
  cbn [PathType_eqb andb]. rewrite andb_false_r.
  unfold copy_stamp, shutil_copy2, fs_write.
  destruct (rich_console self); rewrite ?Hr, Hd, ?Hd, Hp; reflexivity.
Qed.

(** [_copy_file] to a path that is not there yet, between two local
    trees, without backup.  When the call returns True, the source was a
    file that could be read, the directory of the destination is there
    (made by the call when it was missing), the destination holds the
    contents of the source, every entry that was there is kept, and
    [bytes_transferred] has grown by the size of the file.  When the source
    cannot be read the call returns False. *)
Theorem copy_file_makes_missing_parents (self : FileSyncer) (sp dp : Path) (s : State) :
  dry_run self = false -> backup self = false ->
  let L := local_fs (world s) in
  dp <> [] -> fs_lookup dp L = None ->
  (forall s' : State,
     _copy_file self sp dp LOCAL LOCAL s = (true, s') ->
     exists n : Node,
       fs_read L sp = Some n /\
       stats s' = add_bytes (node_size n) (stats s) /\
       fs_lookup dp (local_fs (world s')) =
         Some (new_file (n_data n) (copy_stamp self (clock (world s)) n)) /\
       parent_ok (local_fs (world s')) dp = true /\
       (forall q m, fs_lookup q L = Some m -> fs_lookup q (local_fs (world s')) = Some m))
  /\
  (fs_read L sp = None -> fst (_copy_file self sp dp LOCAL LOCAL s) = false).
Proof.
  intros Hdry Hbk L Hdp Hfresh.
  (* the state after the parent has been seen to *)
  assert (Hmade : forall s1 : State,
            match os_path_dirname dp with
            | [] => (true, s)
            | _ :: _ =>
                if negb (_path_exists self (world s) (os_path_dirname dp) LOCAL)
                then _create_directory self (os_path_dirname dp) LOCAL s
                else (true, s)
            end = (true, s1) ->
            stats s1 = stats s /\ clock (world s1) = clock (world s) /\
            fs_lookup dp (local_fs (world s1)) = None /\
            (forall q m, fs_lookup q L = Some m ->
                         fs_lookup q (local_fs (world s1)) = Some m) /\
            (forall n, fs_read (local_fs (world s1)) sp = Some n -> fs_read L sp = Some n)).
  { intros s1. destruct (os_path_dirname dp) as [|d0 ds] eqn:Hdir.
    - intros [= <-]. repeat split; auto.
    - destruct (negb (_path_exists self (world s) (d0 :: ds) LOCAL)).
      + intro E.
        destruct (create_directory_local_ok self Hdry _ _ _ E) as [Hadds [Hd [Hclk Hst]]].
        split; [exact Hst|]. split; [exact Hclk|]. split; [|split].
        * destruct (fs_lookup dp (local_fs (world s1))) as [m|] eqn:Hm; [|reflexivity].
          destruct (adds_dirs_new _ _ _ _ _ Hadds Hfresh Hm) as [_ [_ Hpre]].
          rewrite <- Hdir in Hpre. rewrite (not_prefix_of_dirname dp Hdp) in Hpre.
          discriminate.
        * intros q m Hq. apply (adds_dirs_lookup _ _ _ _ _ Hadds Hq).
        * intros n Hn. apply (adds_dirs_read_back _ _ _ _ _ Hadds Hn).
      + intros [= <-]. repeat split; auto. }
  unfold _copy_file. rewrite Hdry. cbv zeta.
  destruct (match os_path_dirname dp with
            | [] => (true, s)
            | _ :: _ =>
                if negb (_path_exists self (world s) (os_path_dirname dp) LOCAL)
                then _create_directory self (os_path_dirname dp) LOCAL s
                else (true, s)
            end) as [made s1].
  destruct made; cbn [negb]; [|split; [discriminate|reflexivity]].
  destruct (Hmade s1 eq_refl) as (Hst & Hclk & Hnone & Hkeep & Hback). clear Hmade.
  rewrite Hbk. cbn [andb].
  assert (Hnd : os_path_isdir (local_fs (world s1)) dp = false).
  { unfold os_path_isdir. now rewrite Hnone. }
  unfold transfer.
  destruct (fs_read (local_fs (world s1)) sp) as [n|] eqn:Hr.
  2:{ split; [discriminate|reflexivity]. }
  split; [|intro Hno; rewrite (Hback n eq_refl) in Hno; discriminate].
  intros s'. cbn [PathType_eqb andb]. rewrite andb_false_r.
  assert (Hw : (if rich_console self
                then fs_write dp (n_data n) (clock (world s1)) (local_fs (world s1))
                else shutil_copy2 sp dp (local_fs (world s1))) =
               fs_write dp (n_data n) (copy_stamp self (clock (world s1)) n)
                 (local_fs (world s1))).
  { unfold copy_stamp, shutil_copy2. destruct (rich_console self); [reflexivity|].
    now rewrite Hr, Hnd. }
  replace (match rich_console self with
           | true => fs_write dp (n_data n) (clock (world s1)) (local_fs (world s1))
           | false => shutil_copy2 sp dp (local_fs (world s1))
           end)
    with (fs_write dp (n_data n) (copy_stamp self (clock (world s1)) n)
            (local_fs (world s1)))
    by (symmetry; exact Hw).
  unfold fs_write. rewrite Hnd.
  destruct (parent_ok (local_fs (world s1)) dp) eqn:Hpar; cbn [option_map];
    [|discriminate].
  intros [= <-]. cbn [stats world set_local local_fs].
  exists n. split; [now apply Hback|]. split; [now rewrite Hst|].
  split; [rewrite Hclk; apply fs_lookup_put_same|]. split.
  - unfold parent_ok in *. destruct (os_path_dirname dp) as [|d0 ds] eqn:Hdir;
      [reflexivity|].
    rewrite (isdir_same_lookup (local_fs (world s1))); [exact Hpar|].
    apply fs_lookup_put_other. intro Heq.
    pose proof (not_prefix_of_dirname dp Hdp) as Hnp.
    rewrite Hdir, <- Heq, prefixb_refl in Hnp. discriminate.
  - intros q m Hq. rewrite fs_lookup_put_other; [now apply Hkeep|].
    intro Heq. subst q. fold L in Hfresh. congruence.
Qed.

Lemma copy_file_makes_missing_parents_witness :
  let s := {| stats := fresh_stats; world := world_a |} in
  let r := _copy_file (plain_syncer ONE_WAY) ["src"; "a.txt"] ["dst"; "sub"; "a.txt"]
             LOCAL LOCAL s in
  fst r = true /\
  bytes_transferred (stats (snd r)) = 5%Z /\
  os_path_isdir (local_fs (world (snd r))) ["dst"; "sub"] = true /\
  fst (_copy_file (plain_syncer ONE_WAY) ["src"; "none.txt"] ["dst"; "sub"; "a.txt"]
         LOCAL LOCAL s) = false.
Proof.
  intros s r.
  destruct (copy_file_makes_missing_parents (plain_syncer ONE_WAY)
              ["src"; "a.txt"] ["dst"; "sub"; "a.txt"] s
              eq_refl eq_refl ltac:(discriminate) eq_refl) as [Hok _].
  destruct (Hok (snd r) eq_refl) as [n (Hr & Hst & _ & Hpar & _)].
  split; [reflexivity|]. split; [|split].
  - rewrite Hst. vm_compute in Hr. injection Hr as <-. reflexivity.
  - exact Hpar.
  - apply (proj2 (copy_file_makes_missing_parents (plain_syncer ONE_WAY)
              ["src"; "none.txt"] ["dst"; "sub"; "a.txt"] s
              eq_refl eq_refl ltac:(discriminate) eq_refl)).
    reflexivity.
Defined.

Lemma dirname_snoc (p : Path) (x : string) : os_path_dirname (p ++ [x]) = p.
Proof. unfold os_path_dirname. apply removelast_last. Qed.









Lemma string_length_append (a b : string) :
  String.length (a ++ b) = (String.length a + String.length b)%nat.
Proof. induction a as [|c a IH]; simpl; [reflexivity|now rewrite IH]. Qed.

Lemma path_append_snoc (p : Path) (x suffix : string) :
  path_append (p ++ [x]) suffix = p ++ [(x ++ suffix)%string].
Proof.
  induction p as [|y p IH]; [reflexivity|].
  cbn [app path_append]. rewrite IH.
  destruct p; reflexivity.
Qed.

Lemma backup_name_dirname (p : Path) (now : Q) :
  os_path_dirname (backup_name p now) = os_path_dirname p.
Proof.
  unfold backup_name. destruct p as [|x p]; [reflexivity|].
  assert (Hp : x :: p <> []) by discriminate.
  rewrite (app_removelast_last EmptyString Hp) at 1.
  rewrite path_append_snoc. apply dirname_snoc.
Qed.

Lemma backup_name_neq (p : Path) (now : Q) : backup_name p now <> p.
Proof.
  unfold backup_name. destruct p as [|x p]; [discriminate|].
  assert (Hp : x :: p <> []) by discriminate.
  intro H. rewrite (app_removelast_last EmptyString Hp) in H.
  rewrite path_append_snoc in H. apply app_inv_head in H.
  injection H as H. apply (f_equal String.length) in H.
  rewrite !string_length_append in H. cbn [String.length] in H. lia.
Qed.

Lemma backup_parent_ok (st : Store) (p : Path) (now : Q) :
  parent_ok st (backup_name p now) = parent_ok st p.
Proof. unfold parent_ok. now rewrite backup_name_dirname. Qed.



(** [_copy_file] over an existing local file with backups on: the old
    contents are kept, with their time, under [dest.bak.<seconds>] next to
    the destination, and the destination then holds the source's
    contents. *)
Theorem copy_file_backs_up_overwritten (self : FileSyncer) (sp dp : Path)
  (n m : Node) (s : State) :
  dry_run self = false -> backup self = true ->
  let L := local_fs (world s) in
  let b := backup_name dp (clock (world s)) in
  fs_read L sp = Some n -> fs_read L dp = Some m ->
  parent_ok L dp = true ->
  os_path_isdir L b = false -> b <> sp ->
  exists s' : State,
    _copy_file self sp dp LOCAL LOCAL s = (true, s') /\
    stats s' = add_bytes (node_size n) (stats s) /\
    fs_lookup dp (local_fs (world s')) =
      Some (new_file (n_data n) (copy_stamp self (clock (world s)) n)) /\
    fs_lookup b (local_fs (world s')) = Some (new_file (n_data m) (n_mtime m)).
Proof.
  intros Hdry Hbk L b Hrs Hrd Hpar Hb Hbs.
  destruct (fs_read_lookup _ _ _ Hrs) as [Hls _].
  destruct (fs_read_lookup _ _ _ Hrd) as [Hld [Hkd _]].
  assert (Hne : b <> dp) by apply backup_name_neq.
  assert (Hmade :
            match os_path_dirname dp with
            | [] => (true, s)
            | _ :: _ =>
                if negb (_path_exists self (world s) (os_path_dirname dp) LOCAL)
                then _create_directory self (os_path_dirname dp) LOCAL s
                else (true, s)
            end = (true, s)).
  { unfold parent_ok in Hpar. destruct (os_path_dirname dp) as [|d0 ds]; [reflexivity|].
    unfold _path_exists. fold L. rewrite (isdir_exists L _ Hpar). reflexivity. }
  set (L2 := fs_put b (new_file (n_data m) (n_mtime m)) L).
  assert (Hbackup : backup_before_copy (world s) dp LOCAL = set_local (world s) L2).
  { unfold backup_before_copy, shutil_copy2, fs_write. fold L b.
    rewrite Hrd, Hb, Hb. unfold b. rewrite backup_parent_ok, Hpar. reflexivity. }
  assert (Hex : _path_exists self (world s) dp LOCAL = true).
  { unfold _path_exists, os_path_exists. fold L. rewrite Hld, Hkd. reflexivity. }
  assert (Hrs2 : fs_read L2 sp = Some n).
  { rewrite (fs_read_same_lookup L); [exact Hrs|].
    now apply fs_lookup_put_other. }
  assert (Hd2 : os_path_isdir L2 dp = false).
  { rewrite (isdir_same_lookup L); [now apply (file_is_not_dir L dp m)|].
    now apply fs_lookup_put_other. }
  assert (Hpar2 : parent_ok L2 dp = true).
  { unfold parent_ok in *. destruct (os_path_dirname dp) as [|d0 ds] eqn:Hdir;
      [reflexivity|].
    rewrite (isdir_same_lookup L); [exact Hpar|].
    apply fs_lookup_put_other. intro E. fold b in E. rewrite E in Hb. congruence. }
  exists {| stats := add_bytes (node_size n) (stats s);
            world := set_local (set_local (world s) L2)
                       (fs_put dp (new_file (n_data n)
                                     (copy_stamp self (clock (world s)) n)) L2) |}.
  unfold _copy_file. rewrite Hdry. cbv zeta. rewrite Hmade. cbn [negb].
  rewrite Hbk, Hex. cbn [andb]. rewrite Hbackup.
  rewrite (transfer_local_clear self (set_local (world s) L2) sp dp n Hrs2 Hd2 Hpar2).
  cbn [stats world set_local local_fs clock].
  split; [reflexivity|]. split; [reflexivity|]. split.
  - apply fs_lookup_put_same.
  - rewrite fs_lookup_put_other; [apply fs_lookup_put_same|congruence].
Qed.

Lemma copy_file_backs_up_overwritten_witness :
  let self := with_backup true (plain_syncer ONE_WAY) in
  let s := {| stats := fresh_stats; world := world_b |} in
  exists s' : State,
    _copy_file self ["src"; "a.txt"] ["dst"; "a.txt"] LOCAL LOCAL s = (true, s') /\
    fs_lookup ["dst"; "a.txt"] (local_fs (world s')) = Some (new_file "0123456789" 200) /\
    fs_lookup ["dst"; "a.txt.bak.1000"] (local_fs (world s')) =
      Some (new_file "abcdefghij" 100).
Proof.
  intros self s.
  destruct (copy_file_backs_up_overwritten self ["src"; "a.txt"] ["dst"; "a.txt"]
              (file_node "0123456789" 200) (file_node "abcdefghij" 100) s
              eq_refl eq_refl eq_refl eq_refl eq_refl eq_refl ltac:(discriminate))
    as [s' (E & _ & Hd & Hb)].
  exists s'. split; [exact E|]. split; [exact Hd|exact Hb].
Defined.

Lemma with_stats_world (f : Stats -> Stats) (s : State) :
  world (with_stats f s) = world s.
Proof. reflexivity. Qed.



(** A Mirror run whose deletion list has that shape: the destination walk
    meets the stale directory [old] before the file in it, and both pass
    the filter.  The tree ends up mirrored, and the run reports a
    failure. *)
Example mirror_run_over_stale_directory :
  let o := run sample_digest (plain_syncer MIRROR) world_stale_dir in
  to_delete (build_plan sample_digest (plain_syncer MIRROR) world_stale_dir) =
    [(["dst"; "old"], true); (["dst"; "old"; "x.txt"], false)] /\
  result o = false /\ deleted (stats (final o)) = 1%Z /\
  errors (stats (final o)) = 1%Z /\
  local_fs (world (final o)) = [ (["src"], dir_node 100); (["dst"], dir_node 100) ].
Proof. repeat split; reflexivity. Qed.

(* ================================================================= *)
(** ** What a run leaves alone *)

Section Frames.

Variable self : FileSyncer.

(** A relation between the world before and the world after, kept by each
    of the three mutators on the paths [C] allows. *)
Variable R : World -> World -> Prop.
Variable C D : Path -> Prop.

Hypothesis R_refl : forall w, R w w.
Hypothesis R_trans : forall w1 w2 w3, R w1 w2 -> R w2 w3 -> R w1 w3.

Hypothesis R_create : forall (dp : Path) (s : State),
  R (world s) (world (snd (_create_directory self dp (dest_type self) s))).
Hypothesis R_copy : forall (sp dp : Path) (s : State),
  C dp ->
  R (world s)
    (world (snd (_copy_file self sp dp (source_type self) (dest_type self) s))).
Hypothesis R_delete : forall (p : Path) (d : bool) (s : State),
  D p ->
  R (world s) (world (snd (_delete_path self p (dest_type self) d s))).

Lemma exec_dirs_kept (l : list CopyItem) (s : State) :
  R (world s) (world (exec_dirs self l s)).
Proof.
  revert s. induction l as [|[[sp dp] d] l IH]; intros s; [apply R_refl|].
  change (exec_dirs self ((sp, dp, d) :: l) s)
    with (exec_dirs self l
            (if d then
               let '(ok, s') := _create_directory self dp (dest_type self) s in
               if ok then with_stats add_copied s' else s'
             else s)).
  eapply R_trans; [|apply IH].
  destruct d; [|apply R_refl].
  pose proof (R_create dp s) as H.
  destruct (_create_directory self dp (dest_type self) s) as [[] s']; exact H.
Qed.

Lemma exec_files_kept (bump : Stats -> Stats) (l : list CopyItem) (s : State) :
  (forall it : CopyItem, In it l -> C (snd (fst it))) ->
  R (world s) (world (exec_files self bump l s)).
Proof.
  revert s. induction l as [|[[sp dp] d] l IH]; intros s Hl; [apply R_refl|].
  change (exec_files self bump ((sp, dp, d) :: l) s)
    with (exec_files self bump l
            (if negb d then
               let '(ok, s') :=
                 _copy_file self sp dp (source_type self) (dest_type self) s in
               if ok then with_stats bump s' else s'
             else s)).
  eapply R_trans; [|apply IH; intros it Hit; apply Hl; now right].
  destruct d; [apply R_refl|]. cbn [negb].
  pose proof (R_copy sp dp s (Hl (sp, dp, false) (or_introl eq_refl))) as H.
  destruct (_copy_file self sp dp (source_type self) (dest_type self) s) as [[] s'];
    exact H.
Qed.

Lemma exec_deletes_kept (l : list DeleteItem) (s : State) :
  (forall it : DeleteItem, In it l -> D (fst it)) ->
  R (world s) (world (exec_deletes self l s)).
Proof.
  revert s. induction l as [|[dp d] l IH]; intros s Hl; [apply R_refl|].
  change (exec_deletes self ((dp, d) :: l) s)
    with (exec_deletes self l
            (let '(ok, s') := _delete_path self dp (dest_type self) d s in
             if ok then with_stats add_deleted s' else s')).
  eapply R_trans; [|apply IH; intros it Hit; apply Hl; now right].
  pose proof (R_delete dp d s (Hl (dp, d) (or_introl eq_refl))) as H.
  destruct (_delete_path self dp (dest_type self) d s) as [[] s']; exact H.
Qed.

Lemma execute_kept (p : Plan) (s : State) :
  (forall it : CopyItem, In it (to_copy p ++ to_update p) -> C (snd (fst it))) ->
  (forall it : DeleteItem, In it (to_delete p) -> D (fst it)) ->
  R (world s) (world (execute self p s)).
Proof.
  intros Hc Hd. unfold execute. rewrite with_stats_world.
  eapply R_trans; [|apply exec_deletes_kept; exact Hd].
  eapply R_trans; [|apply exec_files_kept;
                    intros it Hit; apply Hc; apply in_or_app; now right].
  eapply R_trans; [|apply exec_files_kept;
                    intros it Hit; apply Hc; apply in_or_app; now left].
  apply exec_dirs_kept.
Qed.

Lemma check_paths_kept (s : State) :
  R (world s) (world (fst (check_paths self s))).
Proof.
  unfold check_paths.
  destruct (negb (_path_exists self (world s) (source self) (source_type self)));
    [apply R_refl|].
  destruct (negb (_path_exists self (world s) (destination self) (dest_type self))
            && negb (SyncMode_eqb (sync_mode self) MIRROR)); [|apply R_refl].
  pose proof (R_create (destination self) s) as H.
  destruct (_create_directory self (destination self) (dest_type self) s) as [ok s1].
  exact H.
Qed.

End Frames.

Section SourceFrame.

Variable self : FileSyncer.

Hypothesis Hsrc : source_type self = LOCAL.
Hypothesis Hdst : dest_type self = LOCAL.
Hypothesis Hapart1 : prefixb (source self) (destination self) = false.
Hypothesis Hapart2 : prefixb (destination self) (source self) = false.

Lemma makedirs_outside_source (now : Q) (d : Path) (st st' : Store) :
  prefixb (destination self) d = true ->
  os_makedirs now d st = Some st' ->
  at_or_below (source self) st' = at_or_below (source self) st.
Proof.
  intros H Hm. apply os_makedirs_adds in Hm. destruct Hm as [Hadds _].
  unfold at_or_below.
  apply (adds_dirs_filter (prefixb (source self)) d st st' Hadds).
  intros q _ Hq. apply (not_in_source_tree self Hapart1 Hapart2 d q H Hq).
Qed.

Lemma create_directory_source_kept (dp : Path) (s : State) :
  prefixb (destination self) dp = true ->
  source_kept self (world s) (world (snd (_create_directory self dp (dest_type self) s))).
Proof.
  intro H. unfold source_kept, _create_directory. rewrite Hdst.
  destruct (dry_run self); [reflexivity|].
  destruct (os_makedirs (clock (world s)) dp (local_fs (world s))) as [st'|] eqn:E;
    cbn [option_map snd world set_local local_fs with_stats]; [|reflexivity].
  now apply (makedirs_outside_source _ dp _ _ H E).
Qed.

End SourceFrame.

Lemma run_kept (md5_hexdigest : string -> string) (self : FileSyncer)
  (R : World -> World -> Prop) (C D : Path -> Prop) :
  (forall w, R w w) ->
  (forall w1 w2 w3, R w1 w2 -> R w2 w3 -> R w1 w3) ->
  (forall (dp : Path) (s : State),
     R (world s) (world (snd (_create_directory self dp (dest_type self) s)))) ->
  (forall (sp dp : Path) (s : State),
     C dp ->
     R (world s)
       (world (snd (_copy_file self sp dp (source_type self) (dest_type self) s)))) ->
  (forall (p : Path) (d : bool) (s : State),
     D p ->
     R (world s) (world (snd (_delete_path self p (dest_type self) d s)))) ->
  (forall w (it : CopyItem),
     In it (to_copy (build_plan md5_hexdigest self w) ++
            to_update (build_plan md5_hexdigest self w)) -> C (snd (fst it))) ->
  (forall w (it : DeleteItem),
     In it (to_delete (build_plan md5_hexdigest self w)) -> D (fst it)) ->
  forall w, R w (world (final (run md5_hexdigest self w))).
Proof.
  intros Rr Rt Rc Rf Rd HC HD w. unfold run, synchronize.
  pose proof (check_paths_kept self R Rr Rc {| stats := fresh_stats; world := w |}) as H0.
  destruct (check_paths self {| stats := fresh_stats; world := w |}) as [s1 ok].
  cbn [fst world] in H0. destruct ok; cbn [negb final]; [|exact H0].
  eapply Rt; [exact H0|].
  change (world s1)
    with (world (with_stats
                   (add_conflicts (conflicts_counted (build_plan md5_hexdigest self (world s1))))
                   s1)) at 1.
  apply (execute_kept self R C D Rr Rt Rc Rf Rd).
  - intros it Hit. now apply (HC (world s1)).
  - intros it Hit. now apply (HD (world s1)).
Qed.

Lemma entries_kept_refl (st : Store) : entries_kept st st.
Proof. intros q n H. now exists n. Qed.

Lemma entries_kept_trans (a b c : Store) :
  entries_kept a b -> entries_kept b c -> entries_kept a c.
Proof.
  intros H1 H2 q n Hq. destruct (H1 q n Hq) as [n1 [Hn1 E1]].
  destruct (H2 q n1 Hn1) as [n2 [Hn2 E2]]. exists n2. split; [exact Hn2|].
  intro Hd. specialize (E1 Hd). subst n1. now apply E2.
Qed.

Lemma entries_kept_put (t : Path) (m : Node) (st : Store) :
  os_path_isdir st t = false -> entries_kept st (fs_put t m st).
Proof.
  intros Hd q n Hq. destruct (path_eqb t q) eqn:E.
  - apply path_eqb_eq in E. subst q. exists m. split; [apply fs_lookup_put_same|].
    intro Hk. unfold os_path_isdir in Hd. rewrite Hq in Hd. congruence.
  - apply path_eqb_neq in E. exists n. split; [|reflexivity].
    now rewrite fs_lookup_put_other.
Qed.

Lemma entries_kept_write (t : Path) (c : string) (stamp : Q) (st st' : Store) :
  fs_write t c stamp st = Some st' -> entries_kept st st'.
Proof.
  intro H. apply fs_write_ok in H. destruct H as [Hd ->]. now apply entries_kept_put.
Qed.

Lemma entries_kept_copy2 (a b : Path) (st st' : Store) :
  shutil_copy2 a b st = Some st' -> entries_kept st st'.
Proof.
  unfold shutil_copy2. destruct (fs_read st a); [|discriminate].
  apply entries_kept_write.
Qed.

Lemma entries_kept_makedirs (now : Q) (p : Path) (st st' : Store) :
  os_makedirs now p st = Some st' -> entries_kept st st'.
Proof.
  intros H q n Hq. apply os_makedirs_adds in H. destruct H as [Hadds _].
  exists n. split; [|reflexivity]. now apply (adds_dirs_lookup p q n st st').
Qed.

Lemma entries_kept_mkdir_parts (now : Q) (rest pre : Path) (st st' : Store) :
  sftp_mkdir_parts now pre rest st = Some st' -> entries_kept st st'.
Proof.
  revert pre st. induction rest as [|seg rest IH]; intros pre st H.
  - injection H as <-. apply entries_kept_refl.
  - cbn [sftp_mkdir_parts] in H.
    destruct (os_path_exists st (pre ++ [seg])); [now apply IH in H|].
    destruct (fs_lookup (pre ++ [seg]) st) eqn:Hl; [discriminate|].
    destruct (parent_ok st (pre ++ [seg])); [|discriminate].
    apply IH in H. eapply entries_kept_trans; [|exact H].
    apply entries_kept_put. unfold os_path_isdir. now rewrite Hl.
Qed.

(** The destination side keeps its entries. *)
Lemma create_directory_keeps (self : FileSyncer) (dp : Path) (s : State) :
  let w' := world (snd (_create_directory self dp (dest_type self) s)) in
  entries_kept (dest_sftp (world s)) (dest_sftp w') /\
  (dest_type self = LOCAL -> entries_kept (local_fs (world s)) (local_fs w')).
Proof.
  unfold _create_directory.
  destruct (dry_run self); [split; intros; apply entries_kept_refl|].
  destruct (dest_type self).
  - destruct (os_makedirs _ _ _) eqn:E; cbn [option_map snd world set_local local_fs
                                              dest_sftp with_stats];
      (split; [apply entries_kept_refl|intros _]).
    + now apply entries_kept_makedirs in E.
    + apply entries_kept_refl.
  - destruct (sftp_mkdir_parts _ _ _ _) eqn:E;
      cbn [option_map snd world set_dest_sftp local_fs dest_sftp with_stats];
      (split; [|discriminate]).
    + now apply entries_kept_mkdir_parts in E.
    + apply entries_kept_refl.
Qed.

Lemma backup_before_copy_keeps (w : World) (dp : Path) (t : PathType) :
  entries_kept (dest_sftp w) (dest_sftp (backup_before_copy w dp t)) /\
  (t = LOCAL -> entries_kept (local_fs w) (local_fs (backup_before_copy w dp t))).
Proof.
  unfold backup_before_copy. destruct t.
  - destruct (shutil_copy2 _ _ _) eqn:E; cbn [set_local local_fs dest_sftp];
      (split; [apply entries_kept_refl|intros _]).
    + now apply entries_kept_copy2 in E.
    + apply entries_kept_refl.
  - split; [|discriminate].
    destruct (fs_read _ _); [|apply entries_kept_refl].
    destruct (fs_write _ _ _ (local_fs w)); [|apply entries_kept_refl].
    cbn [set_local dest_sftp].
    destruct (fs_write _ _ _ (dest_sftp w)) eqn:E; [|apply entries_kept_refl].
    cbn [set_dest_sftp set_local local_fs dest_sftp].
    apply entries_kept_write in E.
    destruct (os_unlink _ _); exact E.
Qed.

Lemma transfer_keeps (self : FileSyncer) (w w3 : World) (sp dp : Path)
  (ts td : PathType) (k : Z) :
  transfer self w sp dp ts td = Some (w3, k) ->
  entries_kept (dest_sftp w) (dest_sftp w3) /\
  (td = LOCAL -> entries_kept (local_fs w) (local_fs w3)).
Proof.
  unfold transfer. destruct (fs_read _ sp); [|discriminate].
  destruct td.
  - match goal with |- option_map _ ?x = _ -> _ => destruct x eqn:E end; [|discriminate].
    cbn [option_map]. intros [= <- _]. cbn [set_local local_fs dest_sftp].
    split; [apply entries_kept_refl|intros _].
    destruct ts; destruct (rich_console self);
      first [now apply entries_kept_copy2 in E | now apply entries_kept_write in E].
  - destruct (fs_write _ _ _ _) eqn:E; [|discriminate].
    cbn [option_map]. intros [= <- _]. cbn [set_dest_sftp local_fs dest_sftp].
    split; [|discriminate]. now apply entries_kept_write in E.
Qed.

Lemma copy_file_keeps (self : FileSyncer) (sp dp : Path) (s : State) :
  let w' := world (snd (_copy_file self sp dp (source_type self) (dest_type self) s)) in
  entries_kept (dest_sftp (world s)) (dest_sftp w') /\
  (dest_type self = LOCAL -> entries_kept (local_fs (world s)) (local_fs w')).
Proof.
  unfold _copy_file.
  destruct (dry_run self); [split; intros; apply entries_kept_refl|]. cbv zeta.
  assert (Hmade : let r := match os_path_dirname dp with
                           | [] => (true, s)
                           | _ :: _ =>
                               if negb (_path_exists self (world s) (os_path_dirname dp)
                                          (dest_type self))
                               then _create_directory self (os_path_dirname dp)
                                      (dest_type self) s
                               else (true, s)
                           end in
                  entries_kept (dest_sftp (world s)) (dest_sftp (world (snd r))) /\
                  (dest_type self = LOCAL ->
                   entries_kept (local_fs (world s)) (local_fs (world (snd r))))).
  { cbv zeta. destruct (os_path_dirname dp);
      [split; intros; apply entries_kept_refl|].
    destruct (negb _); [|split; intros; apply entries_kept_refl].
    apply create_directory_keeps. }
  cbv zeta in Hmade.
  destruct (match os_path_dirname dp with
            | [] => (true, s)
            | _ :: _ =>
                if negb (_path_exists self (world s) (os_path_dirname dp) (dest_type self))
                then _create_directory self (os_path_dirname dp) (dest_type self) s
                else (true, s)
            end) as [made s1].
  cbn [snd] in Hmade. destruct Hmade as [M1 M2].
  destruct made; cbn [negb]; [|cbn [snd]; split; assumption].
  set (w2 := if backup self && _path_exists self (world s1) dp (dest_type self)
             then backup_before_copy (world s1) dp (dest_type self) else world s1).
  assert (B : entries_kept (dest_sftp (world s)) (dest_sftp w2) /\
              (dest_type self = LOCAL -> entries_kept (local_fs (world s)) (local_fs w2))).
  { unfold w2. destruct (backup self && _); [|split; assumption].
    destruct (backup_before_copy_keeps (world s1) dp (dest_type self)) as [K1 K2]. split.
    - eapply entries_kept_trans; eassumption.
    - intro Hl. eapply entries_kept_trans; [now apply M2|now apply K2]. }
  destruct B as [B1 B2].
  destruct (transfer self w2 sp dp (source_type self) (dest_type self)) as [[w3 k]|] eqn:Et;
    cbn [snd world]; [|split; assumption].
  destruct (transfer_keeps _ _ _ _ _ _ _ _ Et) as [T1 T2]. split.
  - eapply entries_kept_trans; eassumption.
  - intro Hl. eapply entries_kept_trans; [now apply B2|now apply T2].
Qed.

(** Outside Mirror mode a run removes nothing from the destination side:
    every entry that was on the destination host, or in the local file
    system when the destination is local, is still there after the run; the
    directories are untouched and the files have at most new contents. *)
Theorem run_without_mirror_removes_nothing (md5_hexdigest : string -> string)
  (self : FileSyncer) (w : World) :
  sync_mode self <> MIRROR ->
  let w' := world (final (run md5_hexdigest self w)) in
  entries_kept (dest_sftp w) (dest_sftp w') /\
  (dest_type self = LOCAL -> entries_kept (local_fs w) (local_fs w')).
Proof.
  intros Hmode w'.
  apply (run_kept md5_hexdigest self
           (fun a b => entries_kept (dest_sftp a) (dest_sftp b) /\
                       (dest_type self = LOCAL ->
                        entries_kept (local_fs a) (local_fs b)))
           (fun _ => True) (fun _ => False)).
  - intro a. split; intros; apply entries_kept_refl.
  - intros w1 w2 w3 [A1 A2] [B1 B2]. split.
    + eapply entries_kept_trans; eassumption.
    + intro Hl. eapply entries_kept_trans; [now apply A2|now apply B2].
  - intros dp s. apply create_directory_keeps.
  - intros sp dp s _. apply copy_file_keeps.
  - intros p d s [].
  - intros; exact I.
  - intros w0 it. unfold build_plan. cbn [to_delete set_to_delete].
    unfold mirror_deletions. destruct (sync_mode self); try (intros []). congruence.
Qed.

Lemma run_without_mirror_removes_nothing_witness :
  exists n' : Node,
    fs_lookup ["dst"; "old.txt"]
      (local_fs (world (final (run sample_digest (plain_syncer ONE_WAY)
                                 world_old_in_dest)))) = Some n'.
Proof.
  destruct (proj2 (run_without_mirror_removes_nothing sample_digest
                     (plain_syncer ONE_WAY) world_old_in_dest ltac:(discriminate))
              eq_refl ["dst"; "old.txt"] (file_node "stale" 100) eq_refl)
    as [n' [H _]].
  exists n'. exact H.
Defined.

(* ================================================================= *)
(** ** What a run without errors has delivered *)

Lemma NoDup_app_disjoint (A : Type) (l l' : list A) (x : A) :
  NoDup (l ++ l') -> In x l -> ~ In x l'.
Proof.
  induction l as [|y l IH]; intros H Hx; [destruct Hx|].
  cbn [app] in H. inversion H as [|? ? Hy Hnd]; subst.
  destruct Hx as [-> | Hx]; [|now apply IH].
  intro Hin. apply Hy. apply in_or_app. now right.
Qed.

Lemma check_paths_keeps_lookups (self : FileSyncer) (s : State) :
  dry_run self = false -> dest_type self = LOCAL ->
  forall q m, fs_lookup q (local_fs (world s)) = Some m ->
              fs_lookup q (local_fs (world (fst (check_paths self s)))) = Some m.
Proof.
  intros Hdry Hdst q m Hq. unfold check_paths.
  destruct (negb (_path_exists self (world s) (source self) (source_type self)));
    [exact Hq|].
  destruct (negb (_path_exists self (world s) (destination self) (dest_type self))
            && negb (SyncMode_eqb (sync_mode self) MIRROR)); [|exact Hq].
  rewrite Hdst.
  destruct (_create_directory self (destination self) LOCAL s) as [ok s1] eqn:E.
  cbn [fst]. destruct ok.
  - destruct (create_directory_local_ok self Hdry _ _ _ E) as [Hadds _].
    now apply (adds_dirs_lookup _ _ _ _ _ Hadds).
  - unfold _create_directory in E. rewrite Hdry in E.
    destruct (option_map _ _); [discriminate|]. injection E as <-. exact Hq.
Qed.

Section Delivery.

Variable md5_hexdigest : string -> string.
Variable self : FileSyncer.

Hypothesis Hdry : dry_run self = false.
Hypothesis Hbackup : backup self = false.
Hypothesis Hsrc : source_type self = LOCAL.
Hypothesis Hdst : dest_type self = LOCAL.
Hypothesis Hapart1 : prefixb (source self) (destination self) = false.
Hypothesis Hapart2 : prefixb (destination self) (source self) = false.
Hypothesis Hmode : sync_mode self <> MIRROR.

Lemma check_paths_local_facts (s s1 : State) :
  check_paths self s = (s1, true) ->
  stats s1 = stats s /\ clock (world s1) = clock (world s) /\
  at_or_below (source self) (local_fs (world s1)) =
    at_or_below (source self) (local_fs (world s)) /\
  (NoDup (map fst (local_fs (world s))) -> NoDup (map fst (local_fs (world s1)))).
Proof.
  unfold check_paths.
  destruct (negb (_path_exists self (world s) (source self) (source_type self)));
    [discriminate|].
  destruct (negb (_path_exists self (world s) (destination self) (dest_type self))
            && negb (SyncMode_eqb (sync_mode self) MIRROR)).
  2:{ intros [= <-]. auto. }
  pose proof (create_directory_source_kept self Hdst Hapart1 Hapart2
                (destination self) s (prefixb_refl _)) as Hkept.
  rewrite Hdst in *.
  destruct (_create_directory self (destination self) LOCAL s) as [ok s'] eqn:E.
  intros [= <- ->]. cbn [snd] in Hkept.
  destruct (create_directory_local_ok self Hdry _ _ _ E) as (Hadds & _ & Hclk & Hst).
  split; [exact Hst|]. split; [exact Hclk|]. split; [exact Hkept|].
  now apply (adds_dirs_NoDup _ _ _ Hadds).
Qed.

(** What a run without errors has delivered, outside Mirror mode, between
    two local trees that lie apart and without backups.  Every file of the
    copy and update lists is at its destination with the contents the
    source had; every directory of the copy list is there; the destination
    entry of every skipped file is as it was; and the counters [copied] and
    [updated] are the lengths of the two lists.  When copies go through
    [shutil.copy2], the run must not have met a directory where a file was
    to go. *)
Theorem error_free_run_delivers (w : World) :
  NoDup (map fst (local_fs w)) ->
  let o := run md5_hexdigest self w in
  let w1 := world (final o) in
  errors (stats (final o)) = 0%Z ->
  (rich_console self = false ->
   forall rel f, In (rel, f) (source_index self w) -> is_dir f = false ->
     os_path_isdir (local_fs w1) (destination self ++ rel) = false) ->
  forall p : Plan, planned o = Some p ->
  (forall sp dp, In (sp, dp, false) (to_copy p ++ to_update p) ->
     exists n : Node,
       fs_read (local_fs w) sp = Some n /\
       fs_lookup dp (local_fs w1) =
         Some (new_file (n_data n) (copy_stamp self (clock w) n)))
  /\
  (forall sp dp, In (sp, dp, true) (to_copy p) -> os_path_isdir (local_fs w1) dp = true)
  /\
  (forall rel m, In rel (skipped_paths p) ->
     fs_lookup (os_path_join (destination self) rel) (local_fs w) = Some m ->
     fs_lookup (os_path_join (destination self) rel) (local_fs w1) = Some m)
  /\
  copied (stats (final o)) = Z.of_nat (List.length (to_copy p)) /\
  updated (stats (final o)) = Z.of_nat (List.length (to_update p)).
Proof.
  intros Hnd o w1 Herr Hclash p Hp.
  subst o w1. unfold run, synchronize in *.
  set (s0 := {| stats := fresh_stats; world := w |}) in *.
  pose proof (check_paths_keeps_lookups self s0 Hdry Hdst) as Hkeep0.
  destruct (check_paths self s0) as [s1 ok] eqn:Ecp.
  destruct ok; cbn [negb final planned fst] in *; [|discriminate].
  injection Hp as <-.
  destruct (check_paths_local_facts s0 s1 Ecp) as (Hst & Hclk & Hsame & HndP).
  set (p1 := build_plan md5_hexdigest self (world s1)) in *.
  set (s2 := with_stats (add_conflicts (conflicts_counted p1)) s1) in *.
  assert (He : errors (stats (execute self p1 s2)) = errors (stats s2)).
  { rewrite Herr. subst s2. cbn [with_stats stats add_conflicts errors].
    now rewrite Hst. }
  assert (Hidx : source_index self (world s1) = source_index self w).
  { apply (source_index_same self Hsrc). exact Hsame. }
  assert (Hdel : to_delete p1 = []).
  { unfold p1, build_plan. cbn [to_delete set_to_delete]. unfold mirror_deletions.
    destruct (sync_mode self); try reflexivity. congruence. }
  assert (Hitems : forall it, In it (to_copy p1 ++ to_update p1) ->
            exists rel sf, it = copy_item self (rel, sf) /\
                           In (rel, sf) (source_index self (world s1))).
  { intros it H. unfold p1, build_plan in H.
    change (to_copy (set_to_delete ?a ?l)) with (to_copy a) in H.
    change (to_update (set_to_delete ?a ?l)) with (to_update a) in H.
    apply plan_fold_items in H. destruct H as [H|[[rel f] [Hin ->]]]; [destruct H|].
    now exists rel, f. }
  assert (Hpre : forall it : CopyItem, In it (to_copy p1 ++ to_update p1) ->
            prefixb (destination self) (snd (fst it)) = true /\
            prefixb (source self) (fst (fst it)) = true).
  { intros it H. destruct (Hitems it H) as (rel & sf & -> & Hin).
    destruct (source_item_facts self Hsrc (world s1) rel sf Hin) as (n & _ & _ & ->).
    unfold copy_item. cbn [fst snd full_path mk_info].
    rewrite (dest_path_of_local self rel Hdst).
    unfold os_path_join. split; apply prefixb_app. }
  pose proof (planned_dests_NoDup md5_hexdigest self (world s1) Hdst) as Hpd.
  fold p1 in Hpd. unfold planned_dests in Hpd.
  assert (Hfd : NoDup (file_dests (to_copy p1 ++ to_update p1))).
  { unfold file_dests. apply NoDup_map_filter. rewrite map_app.
    rewrite app_assoc in Hpd. now apply NoDup_app_left in Hpd. }
  assert (Hcl : rich_console self = false ->
            forall it : CopyItem, In it (to_copy p1 ++ to_update p1) -> snd it = false ->
              os_path_isdir (local_fs (world (execute self p1 s2))) (snd (fst it)) = false).
  { intros Hc it H Hf. destruct (Hitems it H) as (rel & sf & -> & Hin).
    unfold copy_item in Hf |- *. cbn [fst snd] in Hf |- *.
    rewrite (dest_path_of_local self rel Hdst).
    rewrite Hidx in Hin. apply (Hclash Hc rel sf Hin Hf). }
  destruct (execute_effect self Hdry Hbackup Hsrc Hdst Hapart1 Hapart2
              p1 s2 Hdel He Hpre Hfd Hcl)
    as (E1 & E2 & E3 & E4 & E5 & E6).
  change (world s2) with (world s1) in *.
  split; [|split; [|split]].
  - intros sp dp Hin. destruct (E5 sp dp Hin) as [n [Hr Hl]].
    exists n. split.
    + rewrite <- Hr. apply fs_read_same_lookup. symmetry.
      apply (same_source_lookup self sp _ _ Hsame).
      apply (Hpre (sp, dp, false) Hin).
    + rewrite Hl, Hclk. reflexivity.
  - exact E6.
  - intros rel m Hin Hl.
    apply E4; [now apply Hkeep0|].
    unfold file_dests. intro Hd. apply in_map_iff in Hd.
    destruct Hd as [it [Hit Hd]]. apply filter_In in Hd. destruct Hd as [Hd _].
    rewrite app_assoc in Hpd.
    apply (NoDup_app_disjoint _ _ _ (os_path_join (destination self) rel) Hpd).
    + rewrite <- map_app. apply in_map_iff. now exists it.
    + rewrite <- (dest_path_of_local self rel Hdst). now apply in_map.
  - destruct (execute_error_free_tallies self p1 s2 He) as (T1 & T2 & _).
    rewrite T1, T2. subst s2. cbn [with_stats stats add_conflicts copied updated].
    rewrite Hst. cbn [fresh_stats copied updated].
    split; [reflexivity|].
    unfold count_files.
    rewrite (filter_all _ (fun it : CopyItem => negb (snd it)) (to_update p1));
      [reflexivity|].
    intros it H. unfold p1, build_plan in H.
    change (to_update (set_to_delete ?a ?l)) with (to_update a) in H.
    apply plan_fold_items in H. destruct H as [H|[[rel f] [_ [-> Hf]]]]; [destruct H|].
    unfold copy_item. cbn [fst snd] in Hf |- *. now rewrite Hf.
Qed.

End Delivery.

Lemma error_free_run_delivers_witness :
  fs_lookup ["dst"; "a.txt"]
    (local_fs (world (final (run sample_digest timestamp_syncer world_b)))) =
  Some (new_file "0123456789" 200).
Proof.
  assert (Hnd : NoDup (map fst (local_fs world_b))).
  { cbn. repeat constructor; cbn; intuition discriminate. }
  assert (Hclash : rich_console timestamp_syncer = false ->
            forall rel f, In (rel, f) (source_index timestamp_syncer world_b) ->
              is_dir f = false ->
              os_path_isdir
                (local_fs (world (final (run sample_digest timestamp_syncer world_b))))
                (destination timestamp_syncer ++ rel) = false).
  { intros _ rel f Hin _. vm_compute in Hin.
    destruct Hin as [Hin|[]]. injection Hin as <- _. reflexivity. }
  destruct (error_free_run_delivers sample_digest timestamp_syncer
              eq_refl eq_refl eq_refl eq_refl eq_refl eq_refl
              ltac:(discriminate) world_b Hnd eq_refl Hclash
              (build_plan sample_digest timestamp_syncer world_b) eq_refl)
    as (Hfiles & _).
  destruct (Hfiles ["src"; "a.txt"] ["dst"; "a.txt"] (or_introl eq_refl))
    as [n [Hr Hl]].
  vm_compute in Hr. injection Hr as <-. exact Hl.
Defined.

(* ================================================================= *)
(** ** Path types and remote paths *)

Lemma string_app_assoc (a b c : string) :
  ((a ++ b) ++ c = a ++ b ++ c)%string.
Proof. induction a as [|x a IH]; cbn [append]; [reflexivity|now rewrite IH]. Qed.

Lemma contains_char_app (c : ascii) (a b : string) :
  contains_char c (a ++ b) = contains_char c a || contains_char c b.
Proof.
  induction a as [|x a IH]; [reflexivity|].
  cbn [append contains_char]. rewrite IH. apply orb_assoc.
Qed.

Lemma split_once_found (c : ascii) (a b : string) :
  contains_char c a = false ->
  split_once c (a ++ String c b) = (a, Some b).
Proof.
  induction a as [|x a IH]; intro H.
  - cbn [append split_once]. now rewrite Ascii.eqb_refl.
  - cbn [contains_char] in H. apply orb_false_iff in H. destruct H as [Hx Ha].
    cbn [append split_once]. now rewrite Hx, (IH Ha).
Qed.

Lemma split_once_spec (c : ascii) (s : string) :
  match split_once c s with
  | (h, Some t) => s = (h ++ String c t)%string /\ contains_char c h = false
  | (h, None) => s = h /\ contains_char c s = false
  end.
Proof.
  induction s as [|x s IH]; [now split|].
  cbn [split_once contains_char]. destruct (Ascii.eqb x c) eqn:E.
  - apply Ascii.eqb_eq in E. subst x. now split.
  - destruct (split_once c s) as [h [t|]]; cbn [append contains_char orb].
    + destruct IH as [-> Hh]. rewrite E. now split.
    + destruct IH as [<- Hs]. split; [reflexivity|]. exact Hs.
Qed.

(** A path written [user@host:path] is taken for a remote one and is
    parsed back into its three parts, provided the user holds no [@] or
    [:] and the host no [:]. *)
Theorem parse_remote_path_round_trip (environ_USER user host rpath : string) :
  contains_char "@" user = false -> contains_char ":" user = false ->
  contains_char ":" host = false ->
  let path := (user ++ "@" ++ host ++ ":" ++ rpath)%string in
  _get_path_type path = REMOTE /\
  _parse_remote_path environ_USER path = Some (user, host, rpath).
Proof.
  intros Hu1 Hu2 Hh path. split.
  - unfold _get_path_type, path. rewrite !contains_char_app.
    cbn [contains_char Ascii.eqb Bool.eqb andb orb].
    rewrite !orb_true_r. reflexivity.
  - unfold _parse_remote_path, path.
    replace (user ++ "@" ++ host ++ ":" ++ rpath)%string
      with ((user ++ "@" ++ host) ++ String ":" rpath)%string.
    2:{ rewrite string_app_assoc. reflexivity. }
    rewrite split_once_found.
    2:{ rewrite !contains_char_app, Hu2, Hh. reflexivity. }
    rewrite contains_char_app. cbn [contains_char Ascii.eqb Bool.eqb orb].
    rewrite orb_true_r.
    change (user ++ "@" ++ host)%string with (user ++ String "@" host)%string.
    rewrite (split_once_found "@" user host Hu1). reflexivity.
Qed.

(** Every path taken for a remote one can be parsed.  Either it reads
    [user@host:path] with the first colon after an [@], or its first colon
    comes before every [@]: then the user is taken from the environment and
    the host is whatever precedes that colon. *)
Theorem remote_paths_parse (environ_USER path : string) :
  _get_path_type path = REMOTE ->
  exists user host rpath : string,
    _parse_remote_path environ_USER path = Some (user, host, rpath) /\
    contains_char ":" host = false /\
    ((path = (user ++ "@" ++ host ++ ":" ++ rpath)%string /\
      contains_char "@" user = false /\ contains_char ":" user = false)
     \/
     (user = environ_USER /\ path = (host ++ ":" ++ rpath)%string /\
      contains_char "@" host = false /\ contains_char "@" rpath = true)).
Proof.
  unfold _get_path_type. intro H.
  destruct (contains_char "@" path) eqn:Hat; [|discriminate].
  destruct (contains_char ":" path) eqn:Hco; [|discriminate]. clear H.
  unfold _parse_remote_path.
  pose proof (split_once_spec ":" path) as Hs.
  destruct (split_once ":" path) as [uh [rp|]].
  2:{ destruct Hs as [_ Hs]. congruence. }
  destruct Hs as [Hpath Huh].
  destruct (contains_char "@" uh) eqn:Huat.
  - pose proof (split_once_spec "@" uh) as Hs2.
    destruct (split_once "@" uh) as [u [h|]].
    2:{ destruct Hs2 as [_ Hs2]. congruence. }
    destruct Hs2 as [Huh2 Hu].
    exists u, h, rp. split; [reflexivity|].
    rewrite Huh2, contains_char_app in Huh. apply orb_false_iff in Huh.
    destruct Huh as [Hu2 Hh]. cbn [contains_char] in Hh.
    apply orb_false_iff in Hh. destruct Hh as [_ Hh].
    split; [exact Hh|]. left. split; [|now split].
    rewrite Hpath, Huh2, string_app_assoc. reflexivity.
  - exists environ_USER, uh, rp. split; [reflexivity|]. split; [exact Huh|].
    right. split; [reflexivity|]. split; [exact Hpath|]. split; [exact Huat|].
    rewrite Hpath, contains_char_app, Huat in Hat. exact Hat.
Qed.

Lemma parse_remote_path_round_trip_witness :
  _parse_remote_path "me" "deploy@backup.example.org:/srv/data" =
  Some ("deploy", "backup.example.org", "/srv/data").
Proof.
  apply (parse_remote_path_round_trip "me" "deploy" "backup.example.org" "/srv/data"
           eq_refl eq_refl eq_refl).
Defined.

Lemma remote_paths_parse_witness :
  exists user host rpath : string,
    _parse_remote_path "me" "/snapshots/10:30/alice@work" = Some (user, host, rpath) /\
    contains_char ":" host = false.
Proof.
  destruct (remote_paths_parse "me" "/snapshots/10:30/alice@work" eq_refl)
    as (user & host & rpath & Hp & Hh & _).
  exists user, host, rpath. split; [exact Hp|exact Hh].
Defined.

(** A local path that holds a colon before an [@] is taken for a remote
    one, with the text before the colon as the host. *)
Example local_path_taken_for_remote :
  _get_path_type "/snapshots/10:30/alice@work" = REMOTE /\
  _parse_remote_path "me" "/snapshots/10:30/alice@work" =
    Some ("me", "/snapshots/10", "30/alice@work").
Proof. split; reflexivity. Qed.

(* ================================================================= *)
(** ** Logging and the summary *)

Lemma emit_below_level (lg : Logger) (level : nat) :
  (level < effective_level lg)%nat -> emit lg level = [].
Proof.
  intro H. unfold emit. apply Nat.leb_gt in H. now rewrite H.
Qed.

Lemma setup_logging_level (verbose quiet : bool) (log_file : string) (lg : Logger) :
  effective_level (_setup_logging verbose quiet log_file lg) = log_level verbose quiet.
Proof.
  unfold effective_level, _setup_logging. cbn [l_level].
  now destruct verbose, quiet.
Qed.

Lemma written_nothing (lg : Logger) (level : nat) (records : list SummaryLine) :
  emit lg level = [] -> written lg level records = [].
Proof.
  intro H. unfold written. rewrite H.
  induction records as [|r records IH]; [reflexivity|exact IH].
Qed.

(** Without [--verbose] nothing that is logged at [INFO] is written
    anywhere, whatever handlers the logger already has: the whole summary
    of [print_summary] is dropped, and so are the [[DRY RUN]] lines of the
    three mutators.  With [--quiet] the warnings are dropped as well.
    Errors are always written to the console. *)
Theorem summary_needs_verbose (quiet : bool) (log_file : string) (lg : Logger)
  (dry : bool) (st : Stats) (t0 t1 : Q) :
  let quiet_logger := _setup_logging false quiet log_file lg in
  written quiet_logger INFO (print_summary dry st t0 t1) = []
  /\
  emit quiet_logger INFO = []
  /\
  (quiet = true -> emit quiet_logger WARNING = [])
  /\
  (forall verbose : bool,
     In Console (emit (_setup_logging verbose quiet log_file lg) ERROR)).
Proof.
  intro quiet_logger.
  assert (Hinfo : emit quiet_logger INFO = []).
  { apply emit_below_level. unfold quiet_logger. rewrite setup_logging_level.
    destruct quiet; cbv; lia. }
  split; [now apply written_nothing|]. split; [exact Hinfo|]. split.
  - intros ->. apply emit_below_level. unfold quiet_logger.
    rewrite setup_logging_level. cbv. lia.
  - intro verbose. unfold emit. rewrite setup_logging_level.
    assert (Hle : (log_level verbose quiet <=? ERROR)%nat = true)
      by now destruct verbose, quiet.
    rewrite Hle. apply in_map_iff.
    exists {| h_level := log_level verbose quiet; h_sink := Console |}.
    split; [reflexivity|]. apply filter_In. split; [|exact Hle].
    unfold _setup_logging. cbn [l_handlers].
    destruct (nonempty log_file); rewrite ?in_app_iff; cbn [In]; auto.
Qed.

Lemma summary_needs_verbose_witness :
  written (_setup_logging false false "" fresh_logger) INFO
    (print_summary true fresh_stats 1000 1001) = [].
Proof.
  apply (proj1 (summary_needs_verbose false "" fresh_logger true fresh_stats 1000 1001)).
Defined.

(** The logger is one object for the whole process and every
    [FileSyncer] adds a console handler to it.  After [k] synchronisers
    have been built with the same switches (one per pair of a
    configuration file), every record that is let through is written [k]
    times to the console. *)
Theorem handlers_pile_up (verbose quiet : bool) (k level : nat) :
  (log_level verbose quiet <= level)%nat ->
  emit (Nat.iter (S k) (_setup_logging verbose quiet "") fresh_logger) level =
  repeat Console (S k).
Proof.
  intro Hle.
  assert (Hshape : forall n,
            Nat.iter (S n) (_setup_logging verbose quiet "") fresh_logger =
            {| l_level := log_level verbose quiet;
               l_handlers :=
                 repeat {| h_level := log_level verbose quiet; h_sink := Console |}
                   (S n) |}).
  { induction n as [|n IH].
    - reflexivity.
    - change (Nat.iter (S (S n)) (_setup_logging verbose quiet "") fresh_logger)
        with (_setup_logging verbose quiet ""
                (Nat.iter (S n) (_setup_logging verbose quiet "") fresh_logger)).
      rewrite IH. unfold _setup_logging. cbn [l_handlers nonempty]. f_equal.
      change [{| h_level := log_level verbose quiet; h_sink := Console |}]
        with (repeat {| h_level := log_level verbose quiet; h_sink := Console |} 1).
      rewrite <- repeat_app. f_equal. lia. }
  rewrite Hshape. unfold emit, effective_level. cbn [l_level l_handlers].
  assert (Hns : (log_level verbose quiet =? NOTSET)%nat = false)
    by now destruct verbose, quiet.
  rewrite Hns. apply Nat.leb_le in Hle. rewrite Hle.
  generalize (S k). intro n. induction n as [|n IH]; [reflexivity|].
  cbn [repeat filter h_level]. rewrite Hle. cbn [map h_sink]. now rewrite IH.
Qed.

Lemma handlers_pile_up_witness :
  emit (Nat.iter 3 (_setup_logging false false "") fresh_logger) ERROR =
  [Console; Console; Console].
Proof.
  apply (handlers_pile_up false false 2 ERROR). cbv. lia.
Defined.

(** A run that stops at one of the two path checks never sets
    [end_time]: the summary then reports the duration [0 - start_time], a
    negative number of seconds, and the counters still hold no more than
    the one error of a failed [_create_directory]. *)
Theorem summary_after_early_return (md5_hexdigest : string -> string)
  (self : FileSyncer) (w : World) (start_time : Q) :
  let o := run md5_hexdigest self w in
  planned o = None ->
  In (SDuration (0 - start_time))
     (print_summary (dry_run self) (stats (final o)) start_time (end_time_after o))
  /\ result o = false
  /\ (errors (stats (final o)) = 0%Z \/ errors (stats (final o)) = 1%Z).
Proof.
  intros o Hp. unfold end_time_after. rewrite Hp. split.
  - unfold print_summary. cbn [app In]. auto.
  - destruct (run_outcome md5_hexdigest self w) as [[_ [Hr Hst]]|[s1 [_ [Hpl _]]]].
    + split; [exact Hr|]. fold o in Hst. destruct Hst as [-> | ->]; auto.
    + fold o in Hpl. congruence.
Qed.

Lemma summary_after_early_return_witness :
  In (SDuration (0 - 1000))
     (print_summary false
        (stats (final (run sample_digest (plain_syncer ONE_WAY) world_no_source)))
        1000
        (end_time_after (run sample_digest (plain_syncer ONE_WAY) world_no_source))).
Proof.
  apply (summary_after_early_return sample_digest (plain_syncer ONE_WAY)
           world_no_source 1000 eq_refl).
Defined.

(* ================================================================= *)
(** ** The command line and the configuration file *)

Section MainFacts.

Variable SFTP_AVAILABLE RICH_AVAILABLE : bool.
Variable load_config_file : string -> option Config.
Variable synchronise : OptionsDict -> option bool.

Lemma synchronised_app (a b : list Event) :
  synchronised (a ++ b) = synchronised a ++ synchronised b.
Proof.
  induction a as [|[m|o] a IH]; cbn [app synchronised]; [reflexivity|exact IH|].
  now rewrite IH.
Qed.

Lemma run_pairs_all (args : Namespace) (config : Config) (n : nat)
  (pairs : list OptionsDict) :
  (forall o, synchronise o <> None) ->
  forall i,
  snd (run_pairs synchronise args config n i pairs) = false /\
  synchronised (fst (run_pairs synchronise args config n i pairs)) =
    map (pair_options args config) pairs /\
  (a_dry_run args = true ->
   filter is_failure_notice (fst (run_pairs synchronise args config n i pairs)) = []).
Proof.
  intro Hlive. induction pairs as [|pc pairs IH]; intro i.
  - cbn. auto.
  - cbn [run_pairs map].
    destruct (synchronise (pair_options args config pc)) as [success|] eqn:E;
      [|now apply Hlive in E].
    destruct (IH (S i)) as (I1 & I2 & I3).
    destruct (run_pairs synchronise args config n (S i) pairs) as [events died].
    cbn [fst snd] in *. split; [exact I1|]. split.
    + cbn [app synchronised]. rewrite synchronised_app, I2.
      now destruct (negb success && negb (a_dry_run args)).
    + intro Hdry. rewrite Hdry. cbn [negb]. rewrite andb_false_r.
      cbn [app filter is_failure_notice]. now apply I3.
Qed.

Lemma notes_no_sync :
  synchronised
    ((if SFTP_AVAILABLE then [] else [Printed MNoParamiko]) ++
     (if RICH_AVAILABLE then [] else [Printed MNoRich])) = [] /\
  filter is_failure_notice
    ((if SFTP_AVAILABLE then [] else [Printed MNoParamiko]) ++
     (if RICH_AVAILABLE then [] else [Printed MNoRich])) = [].
Proof. destruct SFTP_AVAILABLE, RICH_AVAILABLE; split; reflexivity. Qed.

(** The exit status of [main].  With a configuration file that could be
    loaded, and no synchronisation ending the process, every pair is
    synchronised in order, whatever the earlier ones returned, and the
    status is 0 even when synchronisations failed.  From the command line
    alone the status is 1 exactly when the synchronisation failed outside a
    dry run.  Without a configuration file and without both paths nothing
    is synchronised and the status is 1.  Under [--dry-run] no failure is
    ever reported. *)
Theorem main_exit_status (args : Namespace) :
  let m := main SFTP_AVAILABLE RICH_AVAILABLE load_config_file synchronise args in
  (forall (path : string) (config : Config),
     a_config args = Some path -> nonempty path = true ->
     load_config_file path = Some config ->
     (forall o, synchronise o <> None) ->
     snd m = 0%Z /\
     (forall pairs, c_sync_pairs config = Some pairs ->
        synchronised (fst m) = map (pair_options args config) pairs) /\
     (c_sync_pairs config = None ->
        synchronised (fst m) = [override_flags args (c_options config)]))
  /\
  (given (a_config args) = false ->
   given (a_source args) = true -> given (a_destination args) = true ->
   forall success : bool,
     synchronise (command_line_options args) = Some success ->
     snd m = (if negb success && negb (a_dry_run args) then 1%Z else 0%Z) /\
     synchronised (fst m) = [command_line_options args])
  /\
  (given (a_config args) = false ->
   given (a_source args) = false \/ given (a_destination args) = false ->
   snd m = 1%Z /\ synchronised (fst m) = [])
  /\
  (a_dry_run args = true -> (forall o, synchronise o <> None) ->
   filter is_failure_notice (fst m) = []).
Proof.
  intro m. destruct notes_no_sync as [Hns Hnf].
  split; [|split; [|split]].
  - intros path config Hc Hne Hload Hlive.
    unfold m, main. rewrite Hc. cbn [given]. rewrite Hne, Hload. cbn [negb andb].
    destruct (c_sync_pairs config) as [pairs|] eqn:Hp.
    + destruct (run_pairs_all args config (List.length pairs) pairs Hlive 0)
        as (R1 & R2 & _).
      destruct (run_pairs synchronise args config (List.length pairs) 0 pairs)
        as [events died].
      cbn [fst snd] in *. subst died. split; [reflexivity|]. split; [|discriminate].
      intros pairs' [= <-]. rewrite synchronised_app, Hns. exact R2.
    + destruct (synchronise (override_flags args (c_options config))) as [success|] eqn:E;
        [|now apply Hlive in E].
      cbn [fst snd]. split; [reflexivity|]. split; [discriminate|]. intros _.
      rewrite synchronised_app, Hns. cbn [app synchronised].
      now destruct (negb success && negb (a_dry_run args)).
  - intros Hc Hs Hd success E. unfold m, main.
    rewrite Hc, Hs, Hd, E. cbn [negb andb orb].
    destruct (negb success && negb (a_dry_run args)); cbn [fst snd];
      (split; [reflexivity|]); rewrite synchronised_app, Hns; reflexivity.
  - intros Hc Hmiss. unfold m, main. rewrite Hc. cbn [negb andb].
    assert (Hor : negb (given (a_source args)) || negb (given (a_destination args)) = true).
    { destruct Hmiss as [-> | ->]; cbn [negb orb]; [reflexivity|apply orb_true_r]. }
    rewrite Hor. cbn [fst snd]. split; [reflexivity|].
    rewrite synchronised_app, Hns. reflexivity.
  - intros Hdry Hlive. unfold m, main. rewrite Hdry. cbn [negb].
    destruct (negb (given (a_config args)) &&
              (negb (given (a_source args)) || negb (given (a_destination args)))).
    { cbn [fst]. rewrite filter_app, Hnf. reflexivity. }
    destruct (given (a_config args)).
    + destruct (load_config_file _) as [config|]; [|exact Hnf].
      destruct (c_sync_pairs config) as [pairs|].
      * assert (Hd : a_dry_run args = true) by exact Hdry.
        destruct (run_pairs_all args config (List.length pairs) pairs Hlive 0)
          as (_ & _ & R3).
        destruct (run_pairs synchronise args config (List.length pairs) 0 pairs)
          as [events died].
        cbn [fst] in *. rewrite filter_app, Hnf. now apply R3.
      * destruct (synchronise _) as [success|]; rewrite ?andb_false_r; cbn [fst];
          rewrite filter_app, Hnf; reflexivity.
    + destruct (synchronise _) as [success|]; rewrite ?andb_false_r; cbn [fst];
        rewrite filter_app, Hnf; reflexivity.
Qed.

Lemma run_pairs_same_flags (args args' : Namespace) (config : Config) (n : nat)
  (pairs : list OptionsDict) :
  a_verbose args' = a_verbose args -> a_quiet args' = a_quiet args ->
  a_dry_run args' = a_dry_run args ->
  forall i,
  run_pairs synchronise args' config n i pairs =
  run_pairs synchronise args config n i pairs.
Proof.
  intros Hv Hq Hd. induction pairs as [|pc pairs IH]; intro i; [reflexivity|].
  cbn [run_pairs]. unfold pair_options, override_flags.
  rewrite Hv, Hq, Hd, IH. reflexivity.
Qed.

(** With [--config], the rest of the command line is not read, the three
    switches [--verbose], [--quiet] and [--dry-run] apart: the positional
    paths and [--sync-mode], [--exclude], [--include], [--timestamp],
    [--checksum], [--backup], [--force], [--log], [--port] and [--ssh-key]
    change nothing. *)
Theorem config_mode_ignores_command_line (args args' : Namespace) :
  given (a_config args) = true ->
  a_config args' = a_config args ->
  a_verbose args' = a_verbose args -> a_quiet args' = a_quiet args ->
  a_dry_run args' = a_dry_run args ->
  main SFTP_AVAILABLE RICH_AVAILABLE load_config_file synchronise args' =
  main SFTP_AVAILABLE RICH_AVAILABLE load_config_file synchronise args.
Proof.
  intros Hg Hc Hv Hq Hd. unfold main. rewrite Hc, Hg. cbn [negb andb].
  destruct (load_config_file _) as [config|]; [|reflexivity].
  destruct (c_sync_pairs config) as [pairs|].
  - now rewrite (run_pairs_same_flags args args' config _ pairs Hv Hq Hd).
  - unfold override_flags. rewrite Hv, Hq, Hd. reflexivity.
Qed.

End MainFacts.

Lemma main_exit_status_witness :
  snd (main true true (fun _ => Some sample_config) (fun _ => Some false)
         (sample_args (Some "pairs.json") false)) = 0%Z
  /\
  List.length
    (synchronised
       (fst (main true true (fun _ => Some sample_config) (fun _ => Some false)
               (sample_args (Some "pairs.json") false)))) = 2%nat.
Proof.
  destruct (proj1 (main_exit_status true true (fun _ => Some sample_config)
                     (fun _ => Some false) (sample_args (Some "pairs.json") false))
              "pairs.json" sample_config eq_refl eq_refl eq_refl
              (fun o H => eq_ind (Some false) (fun x => match x with Some _ => True | None => False end) I None H))
    as (Hstatus & Hpairs & _).
  split; [exact Hstatus|].
  rewrite (Hpairs sample_pairs eq_refl). reflexivity.
Defined.

Lemma config_mode_ignores_command_line_witness :
  main true true (fun _ => Some sample_config) (fun _ => Some true)
    {| a_source := Some "/elsewhere"; a_destination := Some "/other";
       a_config := Some "pairs.json";
       a_dry_run := false; a_verbose := false; a_quiet := false;
       a_sync_mode := "two-way"; a_exclude := ["*.tmp"]; a_include := [];
       a_timestamp := true; a_checksum := true; a_backup := false; a_force := true;
       a_log := Some "sync.log"; a_port := 2222; a_ssh_key := None |} =
  main true true (fun _ => Some sample_config) (fun _ => Some true)
    (sample_args (Some "pairs.json") false).
Proof.
  apply (config_mode_ignores_command_line true true (fun _ => Some sample_config)
           (fun _ => Some true) (sample_args (Some "pairs.json") false));
    reflexivity.
Defined.

Lemma opt_get_set (k k' : string) (v : Value) (d : OptionsDict) :
  opt_get k (opt_set k' v d) = if String.eqb k' k then Some v else opt_get k d.
Proof.
  induction d as [|[q u] d IH]; cbn [opt_set opt_get].
  - reflexivity.
  - destruct (String.eqb q k') eqn:E; cbn [opt_get].
    + apply String.eqb_eq in E. subst q. now destruct (String.eqb k' k).
    + destruct (String.eqb q k) eqn:E2.
      * apply String.eqb_eq in E2. subst q. now rewrite String.eqb_sym, E.
      * exact IH.
Qed.

Lemma opt_get_update (k : string) (e d : OptionsDict) :
  NoDup (map fst e) ->
  opt_get k (opt_update d e) =
  match opt_get k e with Some v => Some v | None => opt_get k d end.
Proof.
  unfold opt_update. revert d. induction e as [|[q v] e IH]; intros d Hnd;
    [reflexivity|].
  cbn [map fst] in Hnd. inversion Hnd as [|? ? Hq Hnd']; subst.
  cbn [fold_left fst snd opt_get]. rewrite (IH _ Hnd'), opt_get_set.
  destruct (String.eqb q k) eqn:E; [|reflexivity].
  apply String.eqb_eq in E. subst q.
  destruct (opt_get k e) as [v'|] eqn:Hv; [|reflexivity].
  exfalso. apply Hq. clear - Hv. induction e as [|[q u] e IH]; [discriminate|].
  cbn [opt_get] in Hv. cbn [map fst In].
  destruct (String.eqb q k) eqn:E; [left; now apply String.eqb_eq|right; auto].
Qed.

(** Where an option of a pair comes from.  One of the three overriding
    switches of the command line, when it is set, makes the option true;
    the switch being off leaves the configuration's value alone, so the
    command line cannot turn off a dry run the file asks for.  Otherwise
    the pair's own entry wins over the one of ["global_options"]. *)
Theorem pair_options_precedence (args : Namespace) (config : Config)
  (pair_config : OptionsDict) (k : string) :
  NoDup (map fst pair_config) ->
  (forall g, c_global_options config = Some g -> NoDup (map fst g)) ->
  opt_get k (pair_options args config pair_config) =
  if forced_by_flag args k then Some (VBool true)
  else match opt_get k pair_config with
       | Some v => Some v
       | None =>
           match c_global_options config with
           | Some g => opt_get k g
           | None => None
           end
       end.
Proof.
  intros Hp Hg. unfold pair_options, override_flags, forced_by_flag.
  assert (Hmerged :
            opt_get k (opt_update
                         match c_global_options config with
                         | Some g => opt_update [] g
                         | None => []
                         end pair_config) =
            match opt_get k pair_config with
            | Some v => Some v
            | None =>
                match c_global_options config with
                | Some g => opt_get k g
                | None => None
                end
            end).
  { rewrite (opt_get_update k pair_config _ Hp).
    destruct (opt_get k pair_config); [reflexivity|].
    destruct (c_global_options config) as [g|] eqn:E; [|reflexivity].
    rewrite (opt_get_update k g [] (Hg g eq_refl)).
    now destruct (opt_get k g). }
  rewrite (String.eqb_sym k "verbose"), (String.eqb_sym k "quiet"),
    (String.eqb_sym k "dry_run").
  destruct (a_verbose args), (a_quiet args), (a_dry_run args);
    rewrite ?opt_get_set, ?andb_true_r, ?andb_false_r, ?orb_false_r, Hmerged;
    cbn [orb];
    destruct (String.eqb "dry_run" k) eqn:E1;
    destruct (String.eqb "quiet" k) eqn:E2;
    destruct (String.eqb "verbose" k) eqn:E3; cbn [orb]; try reflexivity.
Qed.

Lemma pair_options_precedence_witness :
  opt_get "sync_mode"
    (pair_options (sample_args (Some "pairs.json") false) sample_config
       [("source", VStr "/etc"); ("destination", VStr "/backup/etc");
        ("dry_run", VBool true); ("sync_mode", VStr "one-way")]) =
    Some (VStr "one-way")
  /\
  opt_get "dry_run"
    (pair_options (sample_args (Some "pairs.json") false) sample_config
       [("source", VStr "/etc"); ("destination", VStr "/backup/etc");
        ("dry_run", VBool true); ("sync_mode", VStr "one-way")]) =
    Some (VBool true).
Proof.
  assert (Hp : NoDup (map fst [("source", VStr "/etc"); ("destination", VStr "/backup/etc");
                               ("dry_run", VBool true); ("sync_mode", VStr "one-way")])).
  { cbn. repeat constructor; cbn; intuition discriminate. }
  assert (Hg : forall g, c_global_options sample_config = Some g -> NoDup (map fst g)).
  { intros g [= <-]. cbn. repeat constructor; cbn; intuition discriminate. }
  split.
  - rewrite (pair_options_precedence (sample_args (Some "pairs.json") false)
               sample_config _ "sync_mode" Hp Hg).
    reflexivity.
  - rewrite (pair_options_precedence (sample_args (Some "pairs.json") false)
               sample_config _ "dry_run" Hp Hg).
    reflexivity.
Defined.
